(** * minimal-chat backend: the echo run streamer and its checkpoint chain

    A shallow embedding of [backend/services/streaming.py],
    [backend/services/storage.py], [backend/data_utils.py] and the parts of
    [backend/utils.py] and [backend/main.py] they rely on.

    Python objects that are shared and mutated (checkpoint dicts, message
    lists, run dicts) live in an explicit store and are named by locations;
    the asynchronous generator [EchoStreamer.stream_response] is a
    computation in a state-and-exception monad that records the frames it
    yields and asks the consumer, at every [yield], whether it resumes the
    generator or throws an exception into it. *)

From Stdlib Require Import ZArith NArith List String Ascii Lia.
From stdpp Require Import base option list gmap strings pretty.
Import ListNotations.

Local Open Scope list_scope.

(** ** Python strings

    A Python [str] is a sequence of Unicode code points. *)

Abbreviation str := (list N).

(** A literal of the source, as code points. *)
Definition py (s : string) : str :=
  map N_of_ascii (list_ascii_of_string s).

(** [str.isspace] on one code point: the code points CPython's
    [_PyUnicode_IsWhitespace] accepts. *)
Definition isspace (c : N) : bool :=
  ((9 <=? c) && (c <=? 13) || (28 <=? c) && (c <=? 32) ||
   (c =? 133) || (c =? 160) || (c =? 5760) ||
   (8192 <=? c) && (c <=? 8202) ||
   (c =? 8232) || (c =? 8233) || (c =? 8239) || (c =? 8287) ||
   (c =? 12288))%N.

(** [s.split()] with no separator: maximal runs of non-whitespace code
    points, in order; [cur] is the word being read. *)
Fixpoint split_from (cur : str) (s : str) : list str :=
  match s with
  | [] => match cur with [] => [] | _ => [cur] end
  | c :: s' =>
      if isspace c
      then match cur with
           | [] => split_from [] s'
           | _ => cur :: split_from [] s'
           end
      else split_from (cur ++ [c]) s'
  end.

Definition split (s : str) : list str := split_from [] s.

(** [s.strip()]: leading and trailing whitespace removed. *)
Fixpoint lstrip (s : str) : str :=
  match s with
  | c :: s' => if isspace c then lstrip s' else s
  | [] => []
  end.

Definition strip (s : str) : str := rev (lstrip (rev (lstrip s))).

(** ["".join(chunks)] *)
Definition join_empty (chunks : list str) : str := concat chunks.

(** [" ".join(ws)] (used in statements only) *)
Fixpoint join_space (ws : list str) : str :=
  match ws with
  | [] => []
  | [w] => w
  | w :: ws' => w ++ py " " ++ join_space ws'
  end.

(** [l[-1]] on a non-empty list; the default stands for the [IndexError]
    case, which callers rule out before. *)
Definition last_word (ws : list str) : str := List.last ws [].

(** ** The echo logic of [stream_response] (streaming.py, lines 55-63) *)

Definition PLACEHOLDER : str := py "I didn't catch that!".

(** [words = self.text.split()] and the two fall-backs for an empty
    list of words. *)
Definition words_of (text : str) : list str :=
  match split text with
  | [] => if decide (text = []) then [PLACEHOLDER] else [text]
  | ws => ws
  end.

(** [chunk = word + " " if word != words[-1] else word] *)
Definition chunk_of (words : list str) (word : str) : str :=
  if decide (word ≠ last_word words) then word ++ py " " else word.

(** The chunks of the loop, in order of emission. *)
Definition chunks_of (words : list str) : list str :=
  map (chunk_of words) words.

(** No word before the last one is equal to it. *)
Definition last_word_fresh (words : list str) : Prop :=
  ∀ i word, S i < length words → words !! i = Some word → word ≠ last_word words.

(** ** Data model *)

(** JSON values handed through untouched (request metadata, [kwargs]). *)
#[local] Unset Elimination Schemes.
Inductive Json :=
| JNull
| JBool (b : bool)
| JNum (z : Z)
| JStr (s : str)
| JArr (l : list Json)
| JObj (l : list (str * Json)).
#[local] Set Elimination Schemes.

(** [d.get(k, default)] on a JSON object given as its list of items. *)
Fixpoint dict_get (k : str) (d : list (str * Json)) (default : Json) : Json :=
  match d with
  | [] => default
  | (k', v) :: d' => if decide (k' = k) then v else dict_get k d' default
  end.

(** Locations of objects in the store. *)
Abbreviation loc := nat.

(** The [usage] dict written by [_finalize_data]. *)
Record Usage := mkUsage {
  prompt_tokens : Z;
  completion_tokens : Z;
  total_tokens : Z
}.

(** A message dict as [make_msg] builds it. The keys [additional_kwargs],
    [tool_calls] and [invalid_tool_calls] are empty and never written;
    [response_metadata] is [{}] ([None] here) until finalization writes
    [{"usage": ...}]. *)
Record Msg := mkMsg {
  msg_id : str;
  msg_created_at : str;
  msg_role : str;
  msg_content : str;
  msg_type : str;
  msg_response_metadata : option Usage
}.

(** A checkpoint dict as [make_checkpoint] builds it. [values_messages]
    is a reference to a list object; [updated_at] is a key that only
    [_finalize_data] adds; [next] and [tasks] are empty and never written. *)
Record Checkpoint := mkCheckpoint {
  values_messages : loc;
  meta_graph_id : str;
  meta_assistant_id : str;
  meta_run_id : str;
  meta_thread_id : str;
  meta_step : Z;
  ckpt_created_at : str;
  checkpoint_thread_id : str;
  checkpoint_id : str;
  parent_checkpoint : option (str * str);
  ckpt_updated_at : option str
}.

(** The run dict built by [stream_run] in main.py. *)
Record Run := mkRun {
  run_run_id : str;
  run_thread_id : str;
  run_assistant_id : str;
  run_created_at : str;
  run_updated_at : str;
  run_status : str;
  run_metadata : Json;
  run_kwargs : Json;
  run_multitask_strategy : str
}.

(** The thread dict built by [create_thread]. *)
Record Thread := mkThread {
  thread_thread_id : str;
  thread_created_at : str;
  thread_updated_at : str;
  thread_metadata : Json;
  thread_config : Json;
  thread_context : Json;
  thread_status : str;
  thread_values_messages : list Json
}.

(** The process state: the [db] instance of [InMemoryStorage] together
    with the objects its dictionaries refer to, and the number of clock
    readings and of [uuid4] draws made so far.

    - [ckpts], [mlists], [runs]: the checkpoint dicts, the message list
      objects and the run dicts ever allocated; a location is an index,
      and a new object gets the next index;
    - [threads_checkpoint_list]: per thread, the references to its
      checkpoints, newest first;
    - [db_runs]: run id to the run dict (the same object the streamer
      mutates).

    Message dicts are stored by value inside their list object: every
    message dict of this program belongs to exactly one list ([make_msg]
    results are appended to one list and [copy.deepcopy] duplicates the
    dicts). *)
Record World := mkWorld {
  threads : gmap str Thread;
  threads_checkpoint_list : gmap str (list loc);
  db_runs : gmap str loc;
  ckpts : list Checkpoint;
  mlists : list (list Msg);
  runs : list Run;
  clock_reads : nat;
  uuid_draws : nat
}.

Definition empty_world : World :=
  mkWorld ∅ ∅ ∅ [] [] [] 0 0.

(** Field updates. *)
Definition set_threads (f : gmap str Thread → gmap str Thread) (w : World) :=
  mkWorld (f (threads w)) (threads_checkpoint_list w) (db_runs w) (ckpts w)
          (mlists w) (runs w) (clock_reads w) (uuid_draws w).
Definition set_tcl (f : gmap str (list loc) → gmap str (list loc)) (w : World) :=
  mkWorld (threads w) (f (threads_checkpoint_list w)) (db_runs w) (ckpts w)
          (mlists w) (runs w) (clock_reads w) (uuid_draws w).
Definition set_db_runs (f : gmap str loc → gmap str loc) (w : World) :=
  mkWorld (threads w) (threads_checkpoint_list w) (f (db_runs w)) (ckpts w)
          (mlists w) (runs w) (clock_reads w) (uuid_draws w).
Definition set_ckpts (f : list Checkpoint → list Checkpoint) (w : World) :=
  mkWorld (threads w) (threads_checkpoint_list w) (db_runs w) (f (ckpts w))
          (mlists w) (runs w) (clock_reads w) (uuid_draws w).
Definition set_mlists (f : list (list Msg) → list (list Msg)) (w : World) :=
  mkWorld (threads w) (threads_checkpoint_list w) (db_runs w) (ckpts w)
          (f (mlists w)) (runs w) (clock_reads w) (uuid_draws w).
Definition set_runs (f : list Run → list Run) (w : World) :=
  mkWorld (threads w) (threads_checkpoint_list w) (db_runs w) (ckpts w)
          (mlists w) (f (runs w)) (clock_reads w) (uuid_draws w).
Definition tick_clock (w : World) :=
  mkWorld (threads w) (threads_checkpoint_list w) (db_runs w) (ckpts w)
          (mlists w) (runs w) (S (clock_reads w)) (uuid_draws w).
Definition tick_uuid (w : World) :=
  mkWorld (threads w) (threads_checkpoint_list w) (db_runs w) (ckpts w)
          (mlists w) (runs w) (clock_reads w) (S (uuid_draws w)).

(** ** Frames

    [sse(event, data, id_)] renders its arguments as text with
    [json.dumps]; a frame is kept here as the arguments it was built
    from. A checkpoint is serialized with the messages its list object
    holds at that moment. *)

Record CheckpointJson := mkCheckpointJson {
  cj_checkpoint : Checkpoint;
  cj_messages : list Msg
}.

Inductive PatchValue :=
| VRun (r : Run)
| VCheckpoint (c : CheckpointJson)
| VChunk (chunk : str)
| VNull.

Record PatchOp := mkPatchOp {
  op : str;
  path : str;
  value : PatchValue
}.

Inductive Payload :=
| PMetadata (run_id thread_id : str)
| PPatch (ops : list PatchOp)
| PError (run_id message : str)
| PStreamEnd (run_id : str) (final_checkpoint : option CheckpointJson).

Inductive Frame :=
| Keepalive
| Sse (id_ : option nat) (event : str) (data : Payload).

(** [sse] of utils.py. *)
Definition sse (event : str) (data : Payload) (id_ : option nat) : Frame :=
  Sse id_ event data.

(** ** Formatting of integers and UUIDs *)

(** [str(n)] for a Python [int]. *)
Definition str_of_int (z : Z) : str := py (pretty z).

Definition hex_digit (d : N) : N :=
  (if d <? 10 then 48 + d else 87 + d)%N.

(** The [n] low hexadecimal digits of [u], most significant first. *)
Fixpoint hex_digits (n : nat) (u : N) : str :=
  match n with
  | O => []
  | S n' => hex_digit ((u / 16 ^ N.of_nat n') mod 16)%N :: hex_digits n' u
  end.

(** [str(u)] for a [uuid.UUID] of integer value [u]: 32 hexadecimal
    digits grouped 8-4-4-4-12. *)
Definition str_of_uuid (u : N) : str :=
  let h := hex_digits 32 u in
  take 8 h ++ py "-" ++ take 4 (drop 8 h) ++ py "-" ++
  take 4 (drop 12 h) ++ py "-" ++ take 4 (drop 16 h) ++ py "-" ++ drop 20 h.

Arguments str_of_uuid : simpl never.

(** ** Exceptions and the computation monad *)

(** The exceptions the generator distinguishes: [BrokenPipeError]; any
    other instance of [Exception], with its [str(e)]; and the exceptions
    outside [Exception] ([GeneratorExit], [asyncio.CancelledError],
    [KeyboardInterrupt]), which no clause of the generator catches. *)
Inductive exn :=
| BrokenPipeError
| Exception (message : str)
| BaseException.

(** What the consumer of the generator does when it is handed a frame:
    ask for the next one, or throw an exception into the generator at
    the [yield] where it is suspended. *)
Inductive signal :=
| Next
| Throw (e : exn).

(** Outcome of a computation. [Stuck] is a dangling location: it has no
    counterpart in Python, where a reference always has its object. *)
Inductive Res (A : Type) :=
| Ok (a : A)
| Raise (e : exn)
| Stuck.
Arguments Ok {A} a.
Arguments Raise {A} e.
Arguments Stuck {A}.

Definition ST (S A : Type) : Type := S → S * Res A.

#[global] Instance ST_ret {S} : MRet (ST S) := λ A a s, (s, Ok a).
#[global] Instance ST_bind {S} : MBind (ST S) := λ A B f m s,
  match m s with
  | (s', Ok a) => f a s'
  | (s', Raise e) => (s', Raise e)
  | (s', Stuck) => (s', Stuck)
  end.

Definition raise {S A} (e : exn) : ST S A := λ s, (s, Raise e).
Definition stuck {S A} : ST S A := λ s, (s, Stuck).
Definition gets {S A} (f : S → A) : ST S A := λ s, (s, Ok (f s)).
Definition modify {S} (f : S → S) : ST S unit := λ s, (f s, Ok tt).

(** A reference is followed; the object is there in Python. *)
Definition deref {S A} (o : S → option A) : ST S A := λ s,
  match o s with
  | Some a => (s, Ok a)
  | None => (s, Stuck)
  end.

(** [try: body except ...: handler]: the handler sees the state the body
    left behind. *)
Definition try_except {S A} (body : ST S A) (handler : exn → ST S A) : ST S A :=
  λ s, match body s with
       | (s', Raise e) => handler e s'
       | r => r
       end.

(** The messages of the interpreter for the faults of subscripting. *)
Definition TypeError_not_subscriptable : exn :=
  Exception (py "'NoneType' object is not subscriptable").
Definition TypeError_no_item_assignment : exn :=
  Exception (py "'NoneType' object does not support item assignment").
Definition IndexError_list : exn :=
  Exception (py "list index out of range").

(** ** More of Python: slices, lines, dicts *)

(** The index [i] of a slice over a sequence of length [len], as
    [PySlice_AdjustIndices] adjusts it: counted from the end when
    negative, and clamped to [0 .. len]. *)
Definition slice_index (len i : Z) : Z :=
  if (i <? 0)%Z then Z.max (len + i) 0 else Z.min i len.

(** [l[start:stop]] *)
Definition py_slice {A} (l : list A) (start stop : Z) : list A :=
  let len := Z.of_nat (length l) in
  let a := slice_index len start in
  let b := slice_index len stop in
  take (Z.to_nat (b - a)) (drop (Z.to_nat a) l).

(** The code points [str.splitlines] breaks lines at, [\r\n] apart. *)
Definition is_linebreak (c : N) : bool :=
  ((10 <=? c) && (c <=? 13) || (28 <=? c) && (c <=? 30) ||
   (c =? 133) || (c =? 8232) || (c =? 8233))%N.

(** [s.splitlines()]: the lines of [s] without their line breaks; [\r\n]
    is one break, and a break at the end of [s] opens no further line.
    [cur] is the line being read, [open] tells whether a line is being
    read. *)
Fixpoint splitlines_from (cur : str) (open : bool) (s : str) : list str :=
  match s with
  | [] => if open then [cur] else []
  | c :: s' =>
      if is_linebreak c
      then cur :: match c, s' with
                  | 13%N, 10%N :: s'' => splitlines_from [] false s''
                  | _, _ => splitlines_from [] false s'
                  end
      else splitlines_from (cur ++ [c]) true s'
  end.

Definition splitlines (s : str) : list str := splitlines_from [] false s.

(** ["\n".join(parts)] *)
Fixpoint join_lines (parts : list str) : str :=
  match parts with
  | [] => []
  | [p] => p
  | p :: parts' => p ++ [10%N] ++ join_lines parts'
  end.

(** The text [sse(event, data, id_)] of utils.py returns, where
    [json_data_str] is the text [json.dumps(data, ensure_ascii=False,
    indent=2)] returned. *)
Definition sse_text (event : str) (json_data_str : str) (id_ : option Z) : str :=
  let parts :=
    match id_ with
    | Some i => [py "id: " ++ str_of_int i]
    | None => []
    end ++
    [py "event: " ++ event] ++
    map (λ line, py "data: " ++ line) (splitlines json_data_str) in
  join_lines parts ++ [10%N; 10%N].

(** [d[k] = v] on a dict given as its list of items: the value of an
    existing key is replaced in place, a new key goes to the end. *)
Fixpoint dict_set (k : str) (v : Json) (d : list (str * Json)) : list (str * Json) :=
  match d with
  | [] => [(k, v)]
  | (k', v') :: d' =>
      if decide (k' = k) then (k, v) :: d' else (k', v') :: dict_set k v d'
  end.

(** Truth value of a JSON value in Python. *)
Definition truthy (v : Json) : bool :=
  match v with
  | JNull | JBool false | JNum 0 | JStr [] | JArr [] | JObj [] => false
  | _ => true
  end.

(** [v == s] for a string [s]: no value that is not a string is equal to
    a string. *)
Definition is_str (v : Json) (s : str) : bool :=
  match v with
  | JStr s' => bool_decide (s' = s)
  | _ => false
  end.

(** ** utils.py: [extract_user_text]

    The payload is the dict of the request body, given as its list of
    items; [d.get(k)] is [dict_get k d JNull], since a missing key and a
    [null] value both give [None]. *)

(** [v in ("user", "human")] *)
Definition is_user (v : Json) : bool :=
  match v with
  | JStr s => bool_decide (s = py "user") || bool_decide (s = py "human")
  | _ => false
  end.

(** [for k in keys: v = d.get(k); if isinstance(v, str): return v] *)
Fixpoint first_str (keys : list str) (d : list (str * Json)) : option str :=
  match keys with
  | [] => None
  | k :: keys' =>
      match dict_get k d JNull with
      | JStr s => Some s
      | _ => first_str keys' d
      end
  end.

(** The loop over [reversed(msgs_inner)] of [_from_content]; [ms] is the
    reversed list. *)
Fixpoint typed_content (ms : list Json) : option str :=
  match ms with
  | [] => None
  | JObj m :: ms' =>
      if is_user (dict_get (py "type") m JNull)
      then match dict_get (py "content") m JNull with
           | JStr cand => Some cand
           | _ => typed_content ms'
           end
      else typed_content ms'
  | _ :: ms' => typed_content ms'
  end.

(** The loop over the parts of a list content. *)
Fixpoint from_parts (content : list Json) : option str :=
  match content with
  | [] => None
  | JObj part :: content' =>
      match dict_get (py "text") part JNull with
      | JStr s => Some s
      | _ =>
          match first_str [py "content"; py "input"; py "prompt"] part with
          | Some v => Some v
          | None => from_parts content'
          end
      end
  | _ :: content' => from_parts content'
  end.

Definition _from_content (content : Json) : option str :=
  match content with
  | JStr s => Some s
  | JObj d =>
      match
        match dict_get (py "messages") d JNull with
        | JArr msgs_inner => typed_content (rev msgs_inner)
        | _ => None
        end
      with
      | Some cand => Some cand
      | None =>
          first_str [py "text"; py "content"; py "input"; py "prompt";
                     py "query"; py "message"] d
      end
  | JArr parts => from_parts parts
  | _ => None
  end.

(** The loop over [reversed(msgs)] of [extract_user_text]; [ms] is the
    reversed list. *)
Fixpoint user_content (ms : list Json) : option str :=
  match ms with
  | [] => None
  | JObj m :: ms' =>
      if is_user (dict_get (py "role") m JNull)
      then match _from_content (dict_get (py "content") m JNull) with
           | Some cand => Some cand
           | None => user_content ms'
           end
      else user_content ms'
  | _ :: ms' => user_content ms'
  end.

Definition extract_user_text (payload : list (str * Json)) : str :=
  let inp := dict_get (py "input") payload JNull in
  match
    match inp with
    | JStr s => Some s
    | JObj _ | JArr _ => _from_content inp
    | _ => None
    end
  with
  | Some s => s
  | None =>
      match dict_get (py "messages") payload JNull with
      | JArr msgs => default [] (user_content (rev msgs))
      | _ => []
      end
  end.

(** ** The program *)

(** The environment the process reads from: the readings of the clock
    ([now_iso_at k] is what the [k]-th call of [now_iso] returns), the
    draws of [uuid.uuid4] (as integers), the configured assistant id
    (config.py), and [repr] on strings (the text of a [KeyError]). *)
Class Env := mkEnv {
  now_iso_at : nat → str;
  uuid4_at : nat → N;
  ASSISTANT_ID : N;
  repr : str → str
}.

Section Program.

Context `{Env}.

(** *** utils.py *)

Definition now_iso : ST World str := λ w,
  (tick_clock w, Ok (now_iso_at (clock_reads w))).

(** [str(uuid.uuid4())] *)
Definition uuid4 : ST World str := λ w,
  (tick_uuid w, Ok (str_of_uuid (uuid4_at (uuid_draws w)))).

(** *** Objects *)

Definition new_ckpt (c : Checkpoint) : ST World loc := λ w,
  (set_ckpts (λ h, h ++ [c]) w, Ok (length (ckpts w))).
Definition new_mlist (ms : list Msg) : ST World loc := λ w,
  (set_mlists (λ h, h ++ [ms]) w, Ok (length (mlists w))).
Definition new_run (r : Run) : ST World loc := λ w,
  (set_runs (λ h, h ++ [r]) w, Ok (length (runs w))).

Definition get_ckpt (l : loc) : ST World Checkpoint := deref (λ w, ckpts w !! l).
Definition get_mlist (l : loc) : ST World (list Msg) := deref (λ w, mlists w !! l).
Definition get_run (l : loc) : ST World Run := deref (λ w, runs w !! l).

Definition put_ckpt (l : loc) (c : Checkpoint) : ST World unit :=
  modify (set_ckpts (λ h, <[l:=c]> h)).
Definition put_mlist (l : loc) (ms : list Msg) : ST World unit :=
  modify (set_mlists (λ h, <[l:=ms]> h)).
Definition put_run (l : loc) (r : Run) : ST World unit :=
  modify (set_runs (λ h, <[l:=r]> h)).

(** [copy.deepcopy(messages)]: a new list object holding copies. *)
Definition deepcopy (messages : loc) : ST World loc :=
  ms ← get_mlist messages; new_mlist ms.

(** [messages.append(m)] *)
Definition append (messages : loc) (m : Msg) : ST World unit :=
  ms ← get_mlist messages; put_mlist messages (ms ++ [m]).

(** [json.dumps] reads a checkpoint and the messages of its list. *)
Definition dump_checkpoint (l : loc) : ST World CheckpointJson :=
  c ← get_ckpt l;
  ms ← get_mlist (values_messages c);
  mret (mkCheckpointJson c ms).

(** *** data_utils.py *)

(** [parent_checkpoint_id] is tested for truth: [None] and the empty
    string both give no parent. *)
Definition make_checkpoint (checkpoint_id : str) (parent_checkpoint_id : option str)
    (thread_id run_id : str) (step : Z) (messages : loc) : ST World loc :=
  now ← now_iso;
  new_ckpt {|
    values_messages := messages;
    meta_graph_id := py "agent";
    meta_assistant_id := str_of_uuid ASSISTANT_ID;
    meta_run_id := run_id;
    meta_thread_id := thread_id;
    meta_step := step;
    ckpt_created_at := now;
    checkpoint_thread_id := thread_id;
    checkpoint_id := checkpoint_id;
    parent_checkpoint :=
      match parent_checkpoint_id with
      | Some (c :: p) => Some (thread_id, c :: p)
      | _ => None
      end;
    ckpt_updated_at := None
  |}.

Definition make_msg (role content : str) : ST World Msg :=
  i ← uuid4;
  now ← now_iso;
  mret {|
    msg_id := i;
    msg_created_at := now;
    msg_role := role;
    msg_content := content;
    msg_type := if decide (role = py "user") then py "human" else py "ai";
    msg_response_metadata := None
  |}.

(** *** services/storage.py: [InMemoryStorage], on the instance [db] *)

Definition create_thread (payload : list (str * Json)) : ST World Thread :=
  thread_id ← uuid4;
  now ← now_iso;
  let thread_data := {|
    thread_thread_id := thread_id;
    thread_created_at := now;
    thread_updated_at := now;
    thread_metadata := dict_get (py "metadata") payload (JObj []);
    thread_config := dict_get (py "config") payload (JObj []);
    thread_context := dict_get (py "context") payload (JObj []);
    thread_status := py "idle";
    thread_values_messages := []
  |} in
  modify (set_threads (λ m, <[thread_id:=thread_data]> m));;
  cid ← uuid4;
  messages ← new_mlist [];
  start_ckpt ← make_checkpoint cid None thread_id (py "<initial>") (-1) messages;
  modify (set_tcl (λ m, <[thread_id:=[start_ckpt]]> m));;
  mret thread_data.

(** [add_run]: the dict itself is stored, not a copy. *)
Definition add_run (run_data : loc) : ST World unit :=
  r ← get_run run_data;
  modify (set_db_runs (λ m, <[run_run_id r:=run_data]> m)).

Definition get_thread_checkpoints (thread_id : str) : ST World (option (list loc)) :=
  gets (λ w, threads_checkpoint_list w !! thread_id).

Definition get_latest_checkpoint (thread_id : str) : ST World (option loc) :=
  checkpoints ← get_thread_checkpoints thread_id;
  mret match checkpoints with
       | Some (c :: _) => Some c
       | _ => None
       end.

(** [self.threads_checkpoint_list[thread_id].insert(0, checkpoint)]: a
    [KeyError] for a thread the store does not know. *)
Definition add_checkpoint (thread_id : str) (checkpoint : loc) : ST World unit :=
  checkpoints ← get_thread_checkpoints thread_id;
  match checkpoints with
  | Some l => modify (set_tcl (λ m, <[thread_id:=checkpoint :: l]> m))
  | None => raise (Exception (repr thread_id))
  end.

(** [len(checkpoints) if checkpoints else 0] *)
Definition get_history_count (thread_id : str) : ST World Z :=
  checkpoints ← get_thread_checkpoints thread_id;
  mret (match checkpoints with
        | Some l => Z.of_nat (length l)
        | None => 0%Z
        end).

(** [checkpoints[offset : offset + limit]], or [None] for an unknown
    thread. *)
Definition get_history (thread_id : str) (offset limit : Z)
    : ST World (option (list loc)) :=
  checkpoints ← get_thread_checkpoints thread_id;
  mret (match checkpoints with
        | None => None
        | Some l => Some (py_slice l offset (offset + limit))
        end).

Definition get_thread (thread_id : str) : ST World (option Thread) :=
  gets (λ w, threads w !! thread_id).

Definition get_total_threads : ST World Z :=
  gets (λ w, Z.of_nat (size (threads w))).

(** The message dicts [create_run] appends to a thread. *)
Definition role_content (role content : str) : Json :=
  JObj [(py "role", JStr role); (py "content", JStr content)].

(** [msgs[-1].get("content") != user_text]; the last message of a
    non-empty list. A message that is no dict has no [get]. *)
Definition last_differs (msgs : list Json) (user_text : str) : Res bool :=
  match last msgs with
  | Some (JObj m) =>
      Ok (negb (is_str (dict_get (py "content") m JNull) user_text))
  | Some _ => Raise (Exception (py "object has no attribute 'get'"))
  | None => Raise IndexError_list
  end.

(** [create_run], the run that does not stream. The result is the run
    dict, which is also stored under its id. *)
Definition create_run (thread_id : str) (payload : list (str * Json))
    (user_text : str) : ST World Run :=
  t ← get_thread thread_id;
  match t with
  | None => raise (Exception (py "Thread not found"))
  | Some t =>
      let assistant_msg := role_content (py "assistant") user_text in
      let msgs := thread_values_messages t in
      with_user ←
        match user_text, msgs with
        | [], _ => mret false
        | _, [] => mret true
        | _, _ => λ w, (w, last_differs msgs user_text)
        end;
      let msgs :=
        (if with_user : bool then msgs ++ [role_content (py "user") user_text]
         else msgs) ++ [assistant_msg] in
      now ← now_iso;
      modify (set_threads (λ m, <[thread_id :=
        mkThread (thread_thread_id t) (thread_created_at t) now
                 (thread_metadata t) (thread_config t) (thread_context t)
                 (py "idle") msgs]> m));;
      run_id ← uuid4;
      created ← now_iso;
      updated ← now_iso;
      let run := {|
        run_run_id := run_id;
        run_thread_id := thread_id;
        run_assistant_id := str_of_uuid ASSISTANT_ID;
        run_created_at := created;
        run_updated_at := updated;
        run_status := py "success";
        run_metadata := dict_get (py "metadata") payload (JObj []);
        run_kwargs :=
          JObj [(py "result",
                 JObj [(py "output", JStr user_text);
                       (py "messages", JArr [assistant_msg])])];
        run_multitask_strategy := py "enqueue"
      |} in
      l ← new_run run;
      modify (set_db_runs (λ m, <[run_id := l]> m));;
      mret run
  end.

(** *** services/streaming.py: [EchoStreamer] *)

(** The attributes [__init__] sets and no method rebinds;
    [self.event_id] is in the generator state below. *)
Record EchoStreamer := mkEchoStreamer {
  thread_id : str;
  run_id : str;
  run_data : loc;
  text : str;
  latest_checkpoint : loc
}.

(** [__init__]: [thread_checkpoints[0]] is an [IndexError] on an empty
    list. *)
Definition EchoStreamer_init (thread_id run_id : str) (run_data : loc) (text : str)
    (thread_checkpoints : list loc) : Res EchoStreamer :=
  match thread_checkpoints with
  | c :: _ => Ok (mkEchoStreamer thread_id run_id run_data text c)
  | [] => Raise IndexError_list
  end.

(** State of one generator: the process state, [self.event_id], and the
    frames handed to the consumer so far, oldest first. *)
Record St := mkSt {
  world : World;
  event_id : nat;
  emitted : list Frame
}.

Abbreviation M := (ST St).

(** A storage or data operation inside the generator. *)
Definition lift {A} (m : ST World A) : M A := λ s,
  let (w, r) := m (world s) in (mkSt w (event_id s) (emitted s), r).

Section Generator.

Variable self : EchoStreamer.

(** [consumer k] is what the consumer does once it holds the frame of
    the [k]-th [yield] (counted from 0). *)
Variable consumer : nat → signal.

(** [yield frame]: the frame goes out, the generator is suspended, and
    it is resumed by the consumer, normally or with an exception. *)
Definition yield (frame : Frame) : M unit := λ s,
  let s' := mkSt (world s) (event_id s) (emitted s ++ [frame]) in
  match consumer (length (emitted s)) with
  | Next => (s', Ok tt)
  | Throw e => (s', Raise e)
  end.

Definition _next_id : M nat := λ s,
  (mkSt (world s) (S (event_id s)) (emitted s), Ok (event_id s)).

Definition _sse_metadata : M Frame :=
  i ← _next_id;
  mret (sse (py "metadata") (PMetadata (run_id self) (thread_id self)) (Some i)).

Definition _sse_run_start : M Frame :=
  r ← lift (get_run (run_data self));
  i ← _next_id;
  mret (sse (py "data") (PPatch [mkPatchOp (py "add") (py "/runs/-") (VRun r)]) (Some i)).

Definition _sse_checkpoint (checkpoint : loc) : M Frame :=
  c ← lift (dump_checkpoint checkpoint);
  i ← _next_id;
  mret (sse (py "data")
            (PPatch [mkPatchOp (py "add") (py "/checkpoints/-") (VCheckpoint c)])
            (Some i)).

Definition _sse_token (path chunk : str) : M Frame :=
  i ← _next_id;
  mret (sse (py "data")
            (PPatch [mkPatchOp (py "add") (path ++ py "/-") (VChunk chunk)])
            (Some i)).

Definition _sse_run_end : M Frame :=
  r ← lift (get_run (run_data self));
  i ← _next_id;
  mret (sse (py "data") (PPatch [mkPatchOp (py "replace") (py "/runs/0") (VRun r)]) (Some i)).

(** The final checkpoint is what [get_latest_checkpoint] returned; [None]
    is serialized as [null]. *)
Definition dump_optional (checkpoint : option loc) : ST World (option CheckpointJson) :=
  match checkpoint with
  | Some l => c ← dump_checkpoint l; mret (Some c)
  | None => mret None
  end.

Definition _sse_checkpoint_end (checkpoint : option loc) : M Frame :=
  c ← lift (dump_optional checkpoint);
  i ← _next_id;
  mret (sse (py "data")
            (PPatch [mkPatchOp (py "replace") (py "/checkpoints/0")
                       (from_option VCheckpoint VNull c)])
            (Some i)).

Definition _sse_stream_end (checkpoint : option loc) : M Frame :=
  c ← lift (dump_optional checkpoint);
  i ← _next_id;
  mret (sse (py "stream_end") (PStreamEnd (run_id self) c) (Some i)).

Definition _create_step_0_checkpoint : ST World loc :=
  user_msg ← make_msg (py "user") (text self);
  latest ← get_ckpt (latest_checkpoint self);
  messages ← deepcopy (values_messages latest);
  append messages user_msg;;
  make_checkpoint (run_id self ++ py ":step_0") (Some (checkpoint_id latest))
                  (thread_id self) (run_id self) 0 messages.

Definition _create_step_1_checkpoint (step_0_ckpt : loc) : ST World loc :=
  assistant_msg ← make_msg (py "assistant") [];
  step_0 ← get_ckpt step_0_ckpt;
  messages ← deepcopy (values_messages step_0);
  append messages assistant_msg;;
  make_checkpoint (run_id self ++ py ":step_1") (Some (checkpoint_id step_0))
                  (thread_id self) (run_id self) 1 messages.

(** [m[-1][key] = v] on a list of message dicts. *)
Definition set_last (f : Msg → Msg) (ms : list Msg) : list Msg :=
  match ms with
  | [] => []
  | _ => removelast ms ++ [f (List.last ms (mkMsg [] [] [] [] [] None))]
  end.

Definition with_content (content : str) (m : Msg) : Msg :=
  mkMsg (msg_id m) (msg_created_at m) (msg_role m) content (msg_type m)
        (msg_response_metadata m).

Definition with_response_metadata (u : Usage) (m : Msg) : Msg :=
  mkMsg (msg_id m) (msg_created_at m) (msg_role m) (msg_content m) (msg_type m)
        (Some u).

(** [db.get_latest_checkpoint(self.thread_id)["values"]["messages"][-1]["content"] = final_text] *)
Definition set_latest_content (final_text : str) : ST World unit :=
  latest ← get_latest_checkpoint (thread_id self);
  match latest with
  | None => raise TypeError_not_subscriptable
  | Some l =>
      c ← get_ckpt l;
      ms ← get_mlist (values_messages c);
      match ms with
      | [] => raise IndexError_list
      | _ => put_mlist (values_messages c) (set_last (with_content final_text) ms)
      end
  end.

Definition with_status (status updated_at : str) (r : Run) : Run :=
  mkRun (run_run_id r) (run_thread_id r) (run_assistant_id r) (run_created_at r)
        updated_at status (run_metadata r) (run_kwargs r) (run_multitask_strategy r).

Definition with_updated_at (now : str) (c : Checkpoint) : Checkpoint :=
  mkCheckpoint (values_messages c) (meta_graph_id c) (meta_assistant_id c)
               (meta_run_id c) (meta_thread_id c) (meta_step c) (ckpt_created_at c)
               (checkpoint_thread_id c) (checkpoint_id c) (parent_checkpoint c)
               (Some now).

(** [_finalize_data]; [final_checkpoint] is what [get_latest_checkpoint]
    returned, possibly [None]. No test of the run's current status
    precedes the writes. *)
Definition _finalize_data (final_checkpoint : option loc) (num_words : Z)
    : ST World unit :=
  r ← get_run (run_data self);
  now ← now_iso;
  put_run (run_data self) (with_status (py "success") now r);;
  now' ← now_iso;
  match final_checkpoint with
  | None => raise TypeError_no_item_assignment
  | Some l =>
      c ← get_ckpt l;
      put_ckpt l (with_updated_at now' c);;
      ms ← get_mlist (values_messages c);
      match ms with
      | [] => raise IndexError_list
      | _ =>
          put_mlist (values_messages c)
            (set_last (with_response_metadata
                         (mkUsage 5 num_words (5 + num_words))) ms)
      end
  end.

(** The body of the [for word in words] loop, for the words still to
    come; [words] is the whole list (the loop reads [words[-1]]) and
    [full_content_chunks] the chunks appended so far.
    [await asyncio.sleep(0.02)] only passes time. *)
Fixpoint stream_tokens (msg_content_path : str) (words remaining : list str)
    (full_content_chunks : list str) : M unit :=
  match remaining with
  | [] => mret tt
  | word :: remaining' =>
      let chunk := chunk_of words word in
      let full_content_chunks := full_content_chunks ++ [chunk] in
      frame ← _sse_token msg_content_path chunk;
      yield frame;;
      let final_text := join_empty full_content_chunks in
      lift (set_latest_content final_text);;
      stream_tokens msg_content_path words remaining' full_content_chunks
  end.

(** The [try] block of [stream_response], in the four parts its comments
    mark. *)

(** "Initial Setup Events" *)
Definition initial_setup_events : M unit :=
  yield Keepalive;;
  frame ← _sse_metadata; yield frame;;
  frame ← _sse_run_start; yield frame.

(** "Create and Send Checkpoints"; the result is [step_1_ckpt]. *)
Definition create_and_send_checkpoints : M loc :=
  step_0_ckpt ← lift _create_step_0_checkpoint;
  lift (add_checkpoint (thread_id self) step_0_ckpt);;
  frame ← _sse_checkpoint step_0_ckpt; yield frame;;
  step_1_ckpt ← lift (_create_step_1_checkpoint step_0_ckpt);
  lift (add_checkpoint (thread_id self) step_1_ckpt);;
  frame ← _sse_checkpoint step_1_ckpt; yield frame;;
  mret step_1_ckpt.

(** "Stream Tokens"; the result is [words]. *)
Definition stream_the_tokens (step_1_ckpt : loc) : M (list str) :=
  step_1 ← lift (dump_checkpoint step_1_ckpt);
  let msg_content_path :=
    py "/messages/" ++ str_of_int (Z.of_nat (length (cj_messages step_1)) - 1)
      ++ py "/content" in
  let words := words_of (text self) in
  stream_tokens msg_content_path words words [];;
  mret words.

(** "Finalize Run and Checkpoint" *)
Definition finalize_run_and_checkpoint (words : list str) : M unit :=
  final_checkpoint ← lift (get_latest_checkpoint (thread_id self));
  lift (_finalize_data final_checkpoint (Z.of_nat (length words)));;
  frame ← _sse_run_end; yield frame;;
  frame ← _sse_checkpoint_end final_checkpoint; yield frame;;
  frame ← _sse_stream_end final_checkpoint; yield frame.

(** Everything before the finalization. *)
Definition stream_until_finalization : M (list str) :=
  initial_setup_events;;
  step_1_ckpt ← create_and_send_checkpoints;
  stream_the_tokens step_1_ckpt.

Definition stream_body : M unit :=
  words ← stream_until_finalization;
  finalize_run_and_checkpoint words.

(** The [except] clauses: a [BrokenPipeError] ends the generator; any
    other [Exception] is reported in two frames numbered from
    [self.event_id]; anything else propagates. *)
Definition stream_handler (e : exn) : M unit :=
  match e with
  | BrokenPipeError => mret tt
  | Exception message =>
      i ← gets event_id;
      yield (sse (py "error") (PError (run_id self) message) (Some i));;
      modify (λ s, mkSt (world s) (S (event_id s)) (emitted s));;
      i ← gets event_id;
      yield (sse (py "stream_end") (PStreamEnd (run_id self) None) (Some i))
  | BaseException => raise BaseException
  end.

Definition stream_response : M unit :=
  try_except stream_body stream_handler.

End Generator.

(** The generator of a streamer just constructed ([self.event_id = 1]),
    consumed to its end from the process state [w]. *)
Definition run_stream (self : EchoStreamer) (consumer : nat → signal) (w : World)
    : St * Res unit :=
  stream_response self consumer (mkSt w 1 []).

(** *** main.py: [stream_run]

    [user_text] is what [extract_user_text(payload)] returned and
    [metadata] is [payload.get("metadata", {})]. The streamer is
    constructed when the request is handled; its generator is consumed
    by the response. *)
Inductive Response :=
| Http404
| Http500
| Streaming (frames : list Frame) (outcome : Res unit).

Definition consume (streamer : EchoStreamer) (consumer : nat → signal)
    : ST World Response := λ w,
  let (s, r) := run_stream streamer consumer w in
  (world s, Ok (Streaming (emitted s) r)).

Definition stream_run (thread_id : str) (user_text : str) (metadata : Json)
    (consumer : nat → signal) : ST World Response :=
  thread_checkpoints ← get_thread_checkpoints thread_id;
  match thread_checkpoints with
  | None => mret Http404
  | Some thread_checkpoints =>
      let text := strip user_text in
      run_id ← uuid4;
      created ← now_iso;
      updated ← now_iso;
      run_data ← new_run {|
        run_run_id := run_id;
        run_thread_id := thread_id;
        run_assistant_id := str_of_uuid ASSISTANT_ID;
        run_created_at := created;
        run_updated_at := updated;
        run_status := py "running";
        run_metadata := metadata;
        run_kwargs := JObj [];
        run_multitask_strategy := py "enqueue"
      |};
      add_run run_data;;
      match EchoStreamer_init thread_id run_id run_data text thread_checkpoints with
      | Ok streamer => consume streamer consumer
      | _ => mret Http500
      end
  end.

(** *** utils.py: [resolve_assistant_id]

    [py_str] is [str] on the JSON values that are no strings. *)
Definition str_of_json (py_str : Json → str) (v : Json) : str :=
  match v with
  | JStr s => s
  | _ => py_str v
  end.

Definition resolve_assistant_id (py_str : Json → str) (payload : list (str * Json))
    : str :=
  let given := dict_get (py "assistant_id") payload JNull in
  let incoming :=
    strip (str_of_json py_str (if truthy given then given else JStr [])) in
  if decide (incoming = str_of_uuid ASSISTANT_ID) then str_of_uuid ASSISTANT_ID
  else if is_str (dict_get (py "graph_id") payload JNull) (py "echo")
       then str_of_uuid ASSISTANT_ID
       else str_of_uuid ASSISTANT_ID.

(** *** main.py: [create_run], the run that does not stream *)
Inductive RunResponse :=
| RunHttp404
| RunHttp400
| RunHttp500 (e : exn)
| RunJson (run : Run) (content_location : str).

Definition create_run_endpoint (py_str : Json → str) (thread_id : str)
    (payload : list (str * Json)) : ST World RunResponse :=
  t ← get_thread thread_id;
  match t with
  | None => mret RunHttp404
  | Some _ =>
      let payload :=
        dict_set (py "assistant_id") (JStr (resolve_assistant_id py_str payload))
                 payload in
      if decide (str_of_json py_str (dict_get (py "assistant_id") payload JNull)
                 ≠ str_of_uuid ASSISTANT_ID)
      then mret RunHttp400
      else
        let user_text := strip (extract_user_text payload) in
        try_except
          (run ← create_run thread_id payload user_text;
           mret (RunJson run
                   (py "/threads/" ++ thread_id ++ py "/runs/" ++ run_run_id run)))
          (λ e, mret (RunHttp500 e))
  end.

(** *** main.py: [thread_history]

    [offset] and [limit] are what [payload.get] returned for the two
    keys: an integer, or [None] when the key is absent or [null]. Other
    JSON values are not covered. [x or d] is [d] for [None] and for 0.
    [sleep(0.5)] only passes time. *)
Definition int_or (v : option Z) (d : Z) : Z :=
  match v with
  | Some 0%Z | None => d
  | Some z => z
  end.

Inductive HistoryResponse :=
| HistoryHttp404
| HistoryPage (page : list CheckpointJson) (x_offset : Z)
              (x_next_offset : option Z).

(** The checkpoints of a page, serialized. *)
Fixpoint dump_all (page : list loc) : ST World (list CheckpointJson) :=
  match page with
  | [] => mret []
  | c :: page' =>
      j ← dump_checkpoint c; js ← dump_all page'; mret (j :: js)
  end.

Definition thread_history (thread_id : str) (offset limit : option Z)
    : ST World HistoryResponse :=
  let offset := int_or offset 0 in
  let limit := int_or limit 50 in
  page ← get_history thread_id offset limit;
  match page with
  | None => mret HistoryHttp404
  | Some page =>
      total_items ← get_history_count thread_id;
      content ← dump_all page;
      mret (HistoryPage content offset
              (if (offset + limit <? total_items)%Z
               then Some (offset + limit)%Z else None))
  end.

End Program.

(** ** Observations on streams and stores *)

(** The [id:] line of a frame. *)
Definition frame_id (f : Frame) : option nat :=
  match f with
  | Keepalive => None
  | Sse i _ _ => i
  end.

Definition frame_event (f : Frame) : option str :=
  match f with
  | Keepalive => None
  | Sse _ e _ => Some e
  end.

(** The chunk of an "append token" frame. *)
Definition token_chunk (f : Frame) : option str :=
  match f with
  | Sse _ _ (PPatch [mkPatchOp _ _ (VChunk chunk)]) => Some chunk
  | _ => None
  end.

(** The token chunks of a stream, in order of emission. *)
Definition token_chunks (frames : list Frame) : list str :=
  omap token_chunk frames.

(** The consumer that takes every frame and never throws. *)
Definition patient : nat → signal := λ _, Next.

(** A consumer that throws [e] once it holds the frame of the [k]-th
    [yield], and otherwise resumes. *)
Definition throws_at (k : nat) (e : exn) : nat → signal :=
  λ i, if decide (i = k) then Throw e else Next.

(** The checkpoints a list of references names, newest first. *)
Definition checkpoints_of (w : World) (l : list loc) : option (list Checkpoint) :=
  mapM (λ c, ckpts w !! c) l.

(** The messages of the latest checkpoint of a thread. *)
Definition latest_messages (w : World) (thread_id : str) : option (list Msg) :=
  l ← threads_checkpoint_list w !! thread_id;
  c ← head l;
  ck ← ckpts w !! c;
  mlists w !! values_messages ck.

(** The last message of the latest checkpoint of a thread. *)
Definition latest_message (w : World) (thread_id : str) : option Msg :=
  ms ← latest_messages w thread_id; last ms.

(** The status of a run dict. *)
Definition status_of (w : World) (run_data : loc) : option str :=
  run_status <$> runs w !! run_data.

(** *** The checkpoint chain

    A chain, newest first: exactly one checkpoint has no parent, it is
    the oldest, and the parent id of any other is the id of a checkpoint
    registered before it (further down the list). *)
Definition is_root (c : Checkpoint) : bool :=
  match parent_checkpoint c with
  | None => true
  | Some _ => false
  end.

Definition links_back (cs : list Checkpoint) : Prop :=
  ∀ i c t p, cs !! i = Some c → parent_checkpoint c = Some (t, p) →
    ∃ j c', i < j ∧ cs !! j = Some c' ∧ checkpoint_id c' = p.

Definition chain (cs : list Checkpoint) : Prop :=
  length (filter (λ c, is_root c = true) cs) = 1 ∧
  (∃ g, last cs = Some g ∧ parent_checkpoint g = None) ∧
  links_back cs.

(** Every thread of the store has a chain. *)
Definition chains (w : World) : Prop :=
  ∀ t l, threads_checkpoint_list w !! t = Some l →
    ∃ cs, checkpoints_of w l = Some cs ∧ chain cs.

(** The same on the store, by references: [chain_in h l] when the
    references [l], newest first, name checkpoints of [h] with non-empty
    ids, the oldest without a parent and every other with the id of an
    older one of [l] as its parent id. *)
Inductive chain_in (h : list Checkpoint) : list loc → Prop :=
| chain_genesis g ck :
    h !! g = Some ck → parent_checkpoint ck = None → checkpoint_id ck ≠ [] →
    chain_in h [g]
| chain_step c ck t p l :
    h !! c = Some ck → parent_checkpoint ck = Some (t, p) →
    checkpoint_id ck ≠ [] →
    (∃ c' ck', c' ∈ l ∧ h !! c' = Some ck' ∧ checkpoint_id ck' = p) →
    chain_in h l → chain_in h (c :: l).

Definition chained (w : World) : Prop :=
  ∀ t l, threads_checkpoint_list w !! t = Some l → chain_in (ckpts w) l.

(** [same_links h h']: every checkpoint of [h] is in [h'] at the same
    place, with the same id and the same parent. *)
Definition same_links (h h' : list Checkpoint) : Prop :=
  ∀ i ck, h !! i = Some ck →
    ∃ ck', h' !! i = Some ck' ∧ checkpoint_id ck' = checkpoint_id ck ∧
           parent_checkpoint ck' = parent_checkpoint ck.

(** [settled w w']: from [w] to [w'] no list of checkpoints has changed
    and no checkpoint has changed its id or parent. *)
Definition settled (w w' : World) : Prop :=
  threads_checkpoint_list w' = threads_checkpoint_list w ∧
  same_links (ckpts w) (ckpts w').

(** [within R m]: the computation [m] takes a state to an [R]-related
    one, whatever its outcome. *)
Definition within {S A} (R : S → S → Prop) (m : ST S A) : Prop :=
  ∀ s, R s (m s).1.

(** What a run over the thread [t] makes of its list [l] of checkpoints,
    from the store [w] to the store [w']: nothing, or a step-0 checkpoint
    whose parent is the latest checkpoint of [l], or that and a step-1
    checkpoint on top, whose parent is the step-0 checkpoint. *)
Definition step_0_linked (t : str) (w w' : World) (l : list loc) (c0 : loc) : Prop :=
  ∃ ck0 latest ck,
    ckpts w' !! c0 = Some ck0 ∧ head l = Some latest ∧
    ckpts w !! latest = Some ck ∧
    parent_checkpoint ck0 = Some (t, checkpoint_id ck).

Definition step_1_linked (t : str) (w' : World) (c0 c1 : loc) : Prop :=
  ∃ ck0 ck1,
    ckpts w' !! c0 = Some ck0 ∧ ckpts w' !! c1 = Some ck1 ∧
    parent_checkpoint ck1 = Some (t, checkpoint_id ck0).

Definition run_effect (t : str) (w w' : World) (l : list loc) : Prop :=
  threads_checkpoint_list w' !! t = Some l ∨
  (∃ c0, threads_checkpoint_list w' !! t = Some (c0 :: l) ∧
         step_0_linked t w w' l c0) ∨
  (∃ c1 c0, threads_checkpoint_list w' !! t = Some (c1 :: c0 :: l) ∧
            step_0_linked t w w' l c0 ∧ step_1_linked t w' c0 c1).

(** [wired w]: every checkpoint of the store refers to a list of messages
    of the store. *)
Definition wired (w : World) : Prop :=
  Forall (λ ck, values_messages ck < length (mlists w)) (ckpts w).

(** The states the process reaches from an empty store by creating
    threads and serving streaming runs, each consumed in any way. *)
Inductive reachable `{Env} : World → Prop :=
| reach_empty : reachable empty_world
| reach_create_thread w payload :
    reachable w → reachable (fst (create_thread payload w))
| reach_stream_run w thread_id user_text metadata consumer :
    reachable w →
    reachable (fst (stream_run thread_id user_text metadata consumer w)).

(** [keeps f m]: the computation [m] leaves the observation [f] of the
    state as it is, whatever its outcome. *)
Definition keeps {S A X} (f : S → X) (m : ST S A) : Prop :=
  ∀ s, f (m s).1 = f s.

(** *** Numbering of frames *)

(** Frames numbered 1, 2, 3, ... in order. *)
Definition numbered (fs : list Frame) : Prop :=
  map frame_id fs = map Some (seq 1 (length fs)).

(** The frames of a stream: the keepalive, which has no id, then frames
    numbered from 1 without gaps. *)
Definition well_numbered (frames : list Frame) : Prop :=
  ∃ fs, frames = Keepalive :: fs ∧ numbered fs.

(** The generator between two frames: the frames sent are well numbered
    and all satisfy [ok], and [self.event_id] is the next number. *)
Definition sends (ok : Frame → Prop) (s : St) : Prop :=
  ∃ fs, emitted s = Keepalive :: fs ∧ numbered fs ∧
        event_id s = S (length fs) ∧ Forall ok (emitted s).

(** The generator holding a frame it has numbered and not yet sent. *)
Definition pending (ok : Frame → Prop) (frame : Frame) (s : St) : Prop :=
  ∃ fs, emitted s = Keepalive :: fs ∧ numbered fs ∧
        event_id s = S (S (length fs)) ∧ Forall ok (emitted s) ∧
        frame_id frame = Some (S (length fs)) ∧ ok frame.

(** Frames that do not end or fail a stream. *)
Definition calm (f : Frame) : Prop :=
  frame_event f ≠ Some (py "error") ∧ frame_event f ≠ Some (py "stream_end").

(** ** Reasoning about computations

    [triple P m I Q]: from a state in [P], the computation [m] ends in a
    state in [Q a] when it returns [a], and in a state in [I] when it
    raises or is stuck. *)
Definition triple {S A} (P : S → Prop) (m : ST S A) (I : S → Prop)
    (Q : A → S → Prop) : Prop :=
  ∀ s, P s →
    match (m s).2 with
    | Ok a => Q a (m s).1
    | _ => I (m s).1
    end.

(** ** The course of an undisturbed run

    What a run leaves behind when the consumer takes every frame: the
    objects it allocates and the frames it sends, written out from the
    state [w] it starts in, the latest checkpoint [c] of its thread, the
    messages [ms] of that checkpoint and the run dict [r]. *)

Section Course.

Context `{Env}.
Variable self : EchoStreamer.
Variable w : World.

Definition user_msg : Msg := {|
  msg_id := str_of_uuid (uuid4_at (uuid_draws w));
  msg_created_at := now_iso_at (clock_reads w);
  msg_role := py "user";
  msg_content := text self;
  msg_type := py "human";
  msg_response_metadata := None
|}.

Definition assistant_msg (content : str) (usage : option Usage) : Msg := {|
  msg_id := str_of_uuid (uuid4_at (S (uuid_draws w)));
  msg_created_at := now_iso_at (2 + clock_reads w);
  msg_role := py "assistant";
  msg_content := content;
  msg_type := py "ai";
  msg_response_metadata := usage
|}.

Definition step_0 (c : Checkpoint) : Checkpoint := {|
  values_messages := length (mlists w);
  meta_graph_id := py "agent";
  meta_assistant_id := str_of_uuid ASSISTANT_ID;
  meta_run_id := run_id self;
  meta_thread_id := thread_id self;
  meta_step := 0;
  ckpt_created_at := now_iso_at (1 + clock_reads w);
  checkpoint_thread_id := thread_id self;
  checkpoint_id := run_id self ++ py ":step_0";
  parent_checkpoint :=
    match checkpoint_id c with
    | [] => None
    | p => Some (thread_id self, p)
    end;
  ckpt_updated_at := None
|}.

Definition step_1 (updated_at : option str) : Checkpoint := {|
  values_messages := S (length (mlists w));
  meta_graph_id := py "agent";
  meta_assistant_id := str_of_uuid ASSISTANT_ID;
  meta_run_id := run_id self;
  meta_thread_id := thread_id self;
  meta_step := 1;
  ckpt_created_at := now_iso_at (3 + clock_reads w);
  checkpoint_thread_id := thread_id self;
  checkpoint_id := run_id self ++ py ":step_1";
  parent_checkpoint := Some (thread_id self, run_id self ++ py ":step_0");
  ckpt_updated_at := updated_at
|}.

(** The store once the step-0 checkpoint is registered. *)
Definition world_step_0 (c : Checkpoint) (ms : list Msg) (l : list loc) : World := {|
  threads := threads w;
  threads_checkpoint_list :=
    <[thread_id self := length (ckpts w) :: l]> (threads_checkpoint_list w);
  db_runs := db_runs w;
  ckpts := ckpts w ++ [step_0 c];
  mlists := mlists w ++ [ms ++ [user_msg]];
  runs := runs w;
  clock_reads := 2 + clock_reads w;
  uuid_draws := 1 + uuid_draws w
|}.

(** The store once both checkpoints are registered, the assistant
    message holding [content]. *)
Definition world_streaming (c : Checkpoint) (ms : list Msg) (l : list loc)
    (content : str) : World := {|
  threads := threads w;
  threads_checkpoint_list :=
    <[thread_id self := S (length (ckpts w)) :: length (ckpts w) :: l]>
      (threads_checkpoint_list w);
  db_runs := db_runs w;
  ckpts := ckpts w ++ [step_0 c; step_1 None];
  mlists := mlists w ++ [ms ++ [user_msg];
                         (ms ++ [user_msg]) ++ [assistant_msg content None]];
  runs := runs w;
  clock_reads := 4 + clock_reads w;
  uuid_draws := 2 + uuid_draws w
|}.

Definition final_usage : Usage :=
  let n := Z.of_nat (length (words_of (text self))) in
  mkUsage 5 n (5 + n).

Definition final_content : str :=
  join_empty (chunks_of (words_of (text self))).

Definition final_run (r : Run) : Run :=
  with_status (py "success") (now_iso_at (4 + clock_reads w)) r.

(** The store at the end of the run. *)
Definition world_final (c : Checkpoint) (ms : list Msg) (l : list loc)
    (r : Run) : World := {|
  threads := threads w;
  threads_checkpoint_list :=
    <[thread_id self := S (length (ckpts w)) :: length (ckpts w) :: l]>
      (threads_checkpoint_list w);
  db_runs := db_runs w;
  ckpts := ckpts w ++ [step_0 c;
                       step_1 (Some (now_iso_at (5 + clock_reads w)))];
  mlists := mlists w ++ [ms ++ [user_msg];
                         (ms ++ [user_msg]) ++
                           [assistant_msg final_content (Some final_usage)]];
  runs := <[run_data self := final_run r]> (runs w);
  clock_reads := 6 + clock_reads w;
  uuid_draws := 2 + uuid_draws w
|}.

Definition msg_content_path (ms : list Msg) : str :=
  py "/messages/" ++ str_of_int (Z.of_nat (length (ms ++ [user_msg]) + 1) - 1)
    ++ py "/content".

(** The "append token" frames for [chunks], numbered from [i]. *)
Fixpoint token_frames (path : str) (i : nat) (chunks : list str) : list Frame :=
  match chunks with
  | [] => []
  | chunk :: chunks' =>
      sse (py "data") (PPatch [mkPatchOp (py "add") (path ++ py "/-") (VChunk chunk)])
          (Some i) :: token_frames path (S i) chunks'
  end.

Definition frames_before_tokens (c : Checkpoint) (ms : list Msg) (r : Run)
    : list Frame :=
  [ Keepalive;
    sse (py "metadata") (PMetadata (run_id self) (thread_id self)) (Some 1);
    sse (py "data") (PPatch [mkPatchOp (py "add") (py "/runs/-") (VRun r)]) (Some 2);
    sse (py "data")
        (PPatch [mkPatchOp (py "add") (py "/checkpoints/-")
                   (VCheckpoint (mkCheckpointJson (step_0 c) (ms ++ [user_msg])))])
        (Some 3);
    sse (py "data")
        (PPatch [mkPatchOp (py "add") (py "/checkpoints/-")
                   (VCheckpoint (mkCheckpointJson (step_1 None)
                      ((ms ++ [user_msg]) ++ [assistant_msg [] None])))])
        (Some 4) ].

Definition final_checkpoint_json (ms : list Msg) : CheckpointJson :=
  mkCheckpointJson (step_1 (Some (now_iso_at (5 + clock_reads w))))
    ((ms ++ [user_msg]) ++ [assistant_msg final_content (Some final_usage)]).

Definition frames_after_tokens (ms : list Msg) (r : Run) (i : nat) : list Frame :=
  [ sse (py "data")
        (PPatch [mkPatchOp (py "replace") (py "/runs/0") (VRun (final_run r))])
        (Some i);
    sse (py "data")
        (PPatch [mkPatchOp (py "replace") (py "/checkpoints/0")
                   (VCheckpoint (final_checkpoint_json ms))])
        (Some (S i));
    sse (py "stream_end") (PStreamEnd (run_id self) (Some (final_checkpoint_json ms)))
        (Some (S (S i))) ].

(** All the frames of the run. *)
Definition frames_of_run (c : Checkpoint) (ms : list Msg) (r : Run) : list Frame :=
  let chunks := chunks_of (words_of (text self)) in
  frames_before_tokens c ms r ++
  token_frames (msg_content_path ms) 5 chunks ++
  frames_after_tokens ms r (5 + length chunks).

End Course.

(** The frames of a streaming response. *)
Definition response_frames (r : Res Response) : list Frame :=
  match r with
  | Ok (Streaming frames _) => frames
  | _ => []
  end.

(** ** What [create_thread] makes

    The id of the thread created in the store [w], its dict and its
    genesis checkpoint. *)
Definition new_thread_id `{Env} (w : World) : str :=
  str_of_uuid (uuid4_at (uuid_draws w)).

Definition new_thread `{Env} (payload : list (str * Json)) (w : World) : Thread := {|
  thread_thread_id := new_thread_id w;
  thread_created_at := now_iso_at (clock_reads w);
  thread_updated_at := now_iso_at (clock_reads w);
  thread_metadata := dict_get (py "metadata") payload (JObj []);
  thread_config := dict_get (py "config") payload (JObj []);
  thread_context := dict_get (py "context") payload (JObj []);
  thread_status := py "idle";
  thread_values_messages := []
|}.

Definition genesis `{Env} (w : World) : Checkpoint := {|
  values_messages := length (mlists w);
  meta_graph_id := py "agent";
  meta_assistant_id := str_of_uuid ASSISTANT_ID;
  meta_run_id := py "<initial>";
  meta_thread_id := new_thread_id w;
  meta_step := -1;
  ckpt_created_at := now_iso_at (S (clock_reads w));
  checkpoint_thread_id := new_thread_id w;
  checkpoint_id := str_of_uuid (uuid4_at (S (uuid_draws w)));
  parent_checkpoint := None;
  ckpt_updated_at := None
|}.

(** ** What [stream_run] sets up

    The run dict it builds in the store [w], the store once the run is
    added, and the streamer it constructs over the latest checkpoint. *)
Definition running_run `{Env} (thread_id : str) (metadata : Json) (w : World) : Run := {|
  run_run_id := str_of_uuid (uuid4_at (uuid_draws w));
  run_thread_id := thread_id;
  run_assistant_id := str_of_uuid ASSISTANT_ID;
  run_created_at := now_iso_at (clock_reads w);
  run_updated_at := now_iso_at (S (clock_reads w));
  run_status := py "running";
  run_metadata := metadata;
  run_kwargs := JObj [];
  run_multitask_strategy := py "enqueue"
|}.

Definition world_run `{Env} (thread_id : str) (metadata : Json) (w : World) : World := {|
  threads := threads w;
  threads_checkpoint_list := threads_checkpoint_list w;
  db_runs :=
    <[str_of_uuid (uuid4_at (uuid_draws w)) := length (runs w)]> (db_runs w);
  ckpts := ckpts w;
  mlists := mlists w;
  runs := runs w ++ [running_run thread_id metadata w];
  clock_reads := 2 + clock_reads w;
  uuid_draws := 1 + uuid_draws w
|}.

Definition streamer_of `{Env} (thread_id user_text : str) (w : World)
    (latest : loc) : EchoStreamer := {|
  thread_id := thread_id;
  run_id := str_of_uuid (uuid4_at (uuid_draws w));
  run_data := length (runs w);
  text := strip user_text;
  latest_checkpoint := latest
|}.

(** ** A concrete environment and store, for examples *)

Definition example_env : Env := {|
  now_iso_at := λ k, py "2025-01-01T00:00:0" ++ str_of_int (Z.of_nat k);
  uuid4_at := λ k, N.of_nat k;
  ASSISTANT_ID := 0x11111111111111111111111111111111;
  repr := λ s, py "'" ++ s ++ py "'"
|}.

(** The store after one [create_thread], and the id of its thread. *)
Definition example_world : World :=
  fst (create_thread (H:=example_env) [] empty_world).

Definition example_thread : str := str_of_uuid 0.

(** Its genesis checkpoint. *)
Definition example_genesis : Checkpoint := {|
  values_messages := 0;
  meta_graph_id := py "agent";
  meta_assistant_id := str_of_uuid (ASSISTANT_ID (Env:=example_env));
  meta_run_id := py "<initial>";
  meta_thread_id := example_thread;
  meta_step := -1;
  ckpt_created_at := now_iso_at (Env:=example_env) 1;
  checkpoint_thread_id := example_thread;
  checkpoint_id := str_of_uuid 1;
  parent_checkpoint := None;
  ckpt_updated_at := None
|}.

(** The streamer [stream_run] would construct for [text] over the example
    thread, with its run dict [run_data] allocated in the store. *)
Definition example_run : Run := {|
  run_run_id := py "run";
  run_thread_id := example_thread;
  run_assistant_id := str_of_uuid (ASSISTANT_ID (Env:=example_env));
  run_created_at := py "2025-01-01T00:00:00";
  run_updated_at := py "2025-01-01T00:00:00";
  run_status := py "running";
  run_metadata := JObj [];
  run_kwargs := JObj [];
  run_multitask_strategy := py "enqueue"
|}.

Definition example_world_run : World :=
  set_runs (λ h, h ++ [example_run]) example_world.

Definition example_streamer (text : str) : EchoStreamer :=
  mkEchoStreamer example_thread (py "run") 0 text 0.

Definition example_message : Msg := {|
  msg_id := str_of_uuid 9;
  msg_created_at := py "2025-01-01T00:00:00";
  msg_role := py "assistant";
  msg_content := py "hello";
  msg_type := py "ai";
  msg_response_metadata := None
|}.

(** A store with one checkpoint, holding one message, and one run. *)
Definition example_world_message : World :=
  mkWorld ∅ ∅ ∅ [example_genesis] [[example_message]] [example_run] 0 0.

(** A caller of the builder that keeps its list and appends to it after
    the checkpoint is built. The result is the checkpoint as serialized
    before and after the append. *)
Definition build_then_append `{Env} (m : Msg)
    : ST World (CheckpointJson * CheckpointJson) :=
  messages ← new_mlist [];
  checkpoint ← make_checkpoint (py "c") None (py "t") (py "r") 0 messages;
  before ← dump_checkpoint checkpoint;
  append messages m;;
  after ← dump_checkpoint checkpoint;
  mret (before, after).

(** ** Properties of the echo logic *)

Lemma split_from_nil_cur cur s :
  cur ≠ [] → ∃ ws, split_from cur s = ws ∧ ws ≠ [].
Proof.
  revert cur. induction s as [|c s IH]; intros cur Hcur; simpl.
  - destruct cur; [done|]. eauto.
  - destruct (isspace c).
    + destruct cur; [done|]. eauto.
    + apply IH. by destruct cur.
Qed.

(** A text of whitespace only has no words. *)
Lemma split_whitespace s : forallb isspace s = true → split s = [].
Proof.
  unfold split. induction s as [|c s IH]; simpl; [done|].
  intros [Hc Hs]%andb_prop. rewrite Hc. auto.
Qed.

(** A text with a code point that is not whitespace has a word. *)
Lemma split_nonempty s : forallb isspace s = false → split s ≠ [].
Proof.
  unfold split. induction s as [|c s IH]; simpl; [done|].
  destruct (isspace c) eqn:Hc; simpl; [auto|].
  intros _. destruct (split_from_nil_cur [c] s) as (ws & -> & Hws); done.
Qed.

Lemma words_of_split text : split text ≠ [] → words_of text = split text.
Proof. unfold words_of. by destruct (split text). Qed.

Lemma words_of_empty : words_of [] = [PLACEHOLDER].
Proof. reflexivity. Qed.

Lemma words_of_whitespace text :
  text ≠ [] → forallb isspace text = true → words_of text = [text].
Proof.
  intros Hne Hws. unfold words_of. rewrite split_whitespace by done.
  by case_decide.
Qed.

Lemma words_of_nonempty text : words_of text ≠ [].
Proof.
  unfold words_of. destruct (split text); [|done].
  by case_decide.
Qed.

Lemma chunks_of_length words : length (chunks_of words) = length words.
Proof. apply length_map. Qed.

Lemma chunks_of_singleton word : chunks_of [word] = [word].
Proof.
  unfold chunks_of, chunk_of, last_word. simpl.
  by case_decide.
Qed.

Lemma last_word_snoc ws w : last_word (ws ++ [w]) = w.
Proof. unfold last_word. apply last_last. Qed.

Lemma chunks_of_fresh words :
  words ≠ [] → last_word_fresh words →
  chunks_of words = map (λ word, word ++ py " ") (removelast words) ++ [last_word words].
Proof.
  intros Hne Hfresh.
  destruct (exists_last Hne) as (ws & w & ->).
  rewrite removelast_last, last_word_snoc.
  unfold chunks_of. rewrite map_app. simpl. f_equal.
  - apply map_ext_in. intros a Ha. unfold chunk_of.
    rewrite last_word_snoc. case_decide as Heq; [done|].
    exfalso. apply list_elem_of_In, list_elem_of_lookup in Ha as [i Hi].
    specialize (Hfresh i a). rewrite last_word_snoc in Hfresh.
    apply Hfresh; [| by apply lookup_app_l_Some | done].
    rewrite length_app. simpl. apply lookup_lt_Some in Hi. lia.
  - unfold chunk_of. rewrite last_word_snoc. by case_decide.
Qed.

Lemma join_space_snoc ws w :
  ws ≠ [] → join_space (ws ++ [w]) = join_space ws ++ py " " ++ w.
Proof.
  induction ws as [|a ws IH]; [done|]. intros _.
  destruct ws as [|b ws]; [done|].
  change (join_space ((a :: b :: ws) ++ [w]))
    with (a ++ py " " ++ join_space ((b :: ws) ++ [w])).
  rewrite IH by done.
  change (join_space (a :: b :: ws)) with (a ++ py " " ++ join_space (b :: ws)).
  by rewrite <- !app_assoc.
Qed.

Lemma concat_spaced ws w :
  join_empty (map (λ word, word ++ py " ") ws ++ [w]) = join_space (ws ++ [w]).
Proof.
  unfold join_empty. induction ws as [|a ws IH]; simpl.
  - by rewrite app_nil_r.
  - rewrite IH. destruct ws; simpl; by rewrite <- ?app_assoc.
Qed.

Lemma chunks_of_join words :
  words ≠ [] → last_word_fresh words →
  join_empty (chunks_of words) = join_space words.
Proof.
  intros Hne Hfresh. rewrite chunks_of_fresh by done.
  destruct (exists_last Hne) as (ws & w & ->).
  by rewrite removelast_last, last_word_snoc, concat_spaced.
Qed.

(** ** Equations of the monad *)

Lemma bind_Ok {S A B} (m : ST S A) (f : A → ST S B) s s' a :
  m s = (s', Ok a) → (m ≫= f) s = f a s'.
Proof. unfold mbind, ST_bind. by intros ->. Qed.

Lemma bind_Raise {S A B} (m : ST S A) (f : A → ST S B) s s' e :
  m s = (s', Raise e) → (m ≫= f) s = (s', Raise e).
Proof. unfold mbind, ST_bind. by intros ->. Qed.

Lemma bind_Stuck {S A B} (m : ST S A) (f : A → ST S B) s s' :
  m s = (s', Stuck) → (m ≫= f) s = (s', Stuck).
Proof. unfold mbind, ST_bind. by intros ->. Qed.

Lemma bind_assoc {S A B C} (m : ST S A) (f : A → ST S B) (g : B → ST S C) s :
  ((m ≫= f) ≫= g) s = (m ≫= λ a, f a ≫= g) s.
Proof. unfold mbind, ST_bind. by destruct (m s) as [s' [a| |]]. Qed.

Lemma lift_eq {A} (m : ST World A) s w r :
  m (world s) = (w, r) → lift m s = (mkSt w (event_id s) (emitted s), r).
Proof. unfold lift. by intros ->. Qed.

(** ** Lists as stores *)

Lemma lookup_snoc {A} (l : list A) x : (l ++ [x]) !! length l = Some x.
Proof. by apply list_lookup_middle. Qed.

Lemma lookup_snoc2_0 {A} (l : list A) x y : (l ++ [x; y]) !! length l = Some x.
Proof. by apply list_lookup_middle. Qed.

Lemma lookup_snoc2_1 {A} (l : list A) x y : (l ++ [x; y]) !! S (length l) = Some y.
Proof.
  change (l ++ [x; y]) with (l ++ [x] ++ [y]). rewrite app_assoc.
  apply list_lookup_middle. rewrite length_app. simpl. lia.
Qed.

Lemma insert_snoc {A} (l : list A) x y : <[length l:=y]> (l ++ [x]) = l ++ [y].
Proof. rewrite insert_app_r_alt by lia. by rewrite Nat.sub_diag. Qed.

Lemma insert_snoc2_1 {A} (l : list A) x y z :
  <[S (length l):=z]> (l ++ [x; y]) = l ++ [x; z].
Proof.
  rewrite insert_app_r_alt by lia.
  by replace (S (length l) - length l) with 1 by lia.
Qed.

Lemma set_last_snoc f ms m : set_last f (ms ++ [m]) = ms ++ [f m].
Proof.
  unfold set_last. destruct (ms ++ [m]) eqn:E.
  - by destruct ms.
  - rewrite <- E. by rewrite removelast_last, last_last.
Qed.

(** ** The undisturbed run, step by step *)

Ltac unfold_ops :=
  unfold make_checkpoint, deepcopy, append, dump_optional, dump_checkpoint,
    get_latest_checkpoint, add_checkpoint, get_thread_checkpoints,
    now_iso, uuid4, new_ckpt, new_mlist, new_run,
    get_ckpt, get_mlist, get_run, put_ckpt, put_mlist, put_run,
    deref, modify, gets, raise,
    mret, ST_ret, mbind, ST_bind, set_threads, set_tcl, set_db_runs, set_ckpts,
    set_mlists, set_runs, tick_clock, tick_uuid;
  simpl.

Ltac unfold_gen :=
  unfold yield, _next_id, _sse_metadata, _sse_run_start, _sse_checkpoint,
    _sse_token, _sse_run_end, _sse_checkpoint_end, _sse_stream_end, lift, patient;
  unfold_ops.

Section Undisturbed.

Context `{Env}.
Variable self : EchoStreamer.

Lemma make_msg_user content w :
  make_msg (py "user") content w =
  (tick_clock (tick_uuid w),
   Ok (mkMsg (str_of_uuid (uuid4_at (uuid_draws w))) (now_iso_at (clock_reads w))
             (py "user") content (py "human") None)).
Proof. reflexivity. Qed.

Lemma make_msg_assistant content w :
  make_msg (py "assistant") content w =
  (tick_clock (tick_uuid w),
   Ok (mkMsg (str_of_uuid (uuid4_at (uuid_draws w))) (now_iso_at (clock_reads w))
             (py "assistant") content (py "ai") None)).
Proof. reflexivity. Qed.

Lemma create_step_0_eq w c ms :
  ckpts w !! latest_checkpoint self = Some c →
  mlists w !! values_messages c = Some ms →
  _create_step_0_checkpoint self w =
  (mkWorld (threads w) (threads_checkpoint_list w) (db_runs w)
           (ckpts w ++ [step_0 self w c])
           (mlists w ++ [ms ++ [user_msg self w]])
           (runs w) (2 + clock_reads w) (1 + uuid_draws w),
   Ok (length (ckpts w))).
Proof.
  intros Hc Hms. unfold _create_step_0_checkpoint.
  erewrite bind_Ok by apply make_msg_user.
  destruct w as [th tcl dr ck ml rn k u]; simpl in *.
  unfold_ops. rewrite Hc. unfold_ops. rewrite Hms. unfold_ops.
  rewrite lookup_snoc. unfold_ops. rewrite insert_snoc.
  unfold step_0, user_msg. simpl. repeat f_equal.
Qed.

Lemma create_step_1_eq w tcl' c0 ms0 l0 :
  l0 = length (ckpts w) →
  _create_step_1_checkpoint self l0
    (mkWorld (threads w) tcl' (db_runs w)
             (ckpts w ++ [step_0 self w c0])
             (mlists w ++ [ms0])
             (runs w) (2 + clock_reads w) (1 + uuid_draws w)) =
  (mkWorld (threads w) tcl' (db_runs w)
           (ckpts w ++ [step_0 self w c0; step_1 self w None])
           (mlists w ++ [ms0; ms0 ++ [assistant_msg w [] None]])
           (runs w) (4 + clock_reads w) (2 + uuid_draws w),
   Ok (S (length (ckpts w)))).
Proof.
  intros ->. unfold _create_step_1_checkpoint.
  erewrite bind_Ok by apply make_msg_assistant.
  destruct w as [th tcl dr ck ml rn k u]; simpl in *.
  unfold_ops. rewrite lookup_snoc. unfold_ops. rewrite lookup_snoc. unfold_ops.
  rewrite length_app. simpl. rewrite Nat.add_1_r.
  change (ml ++ [ms0] ++ [ms0]) with (ml ++ [ms0; ms0]).
  rewrite <- (app_assoc ml [ms0] [ms0]). simpl.
  rewrite lookup_snoc2_1. simpl. rewrite insert_snoc2_1.
  rewrite <- (app_assoc ck). simpl. rewrite length_app. simpl.
  rewrite Nat.add_1_r. unfold step_1, assistant_msg. simpl.
  by destruct (run_id self).
Qed.

Lemma initial_setup_events_eq w r :
  runs w !! run_data self = Some r →
  initial_setup_events self patient (mkSt w 1 []) =
  (mkSt w 3
     [ Keepalive;
       sse (py "metadata") (PMetadata (run_id self) (thread_id self)) (Some 1);
       sse (py "data") (PPatch [mkPatchOp (py "add") (py "/runs/-") (VRun r)])
           (Some 2) ],
   Ok tt).
Proof.
  intros Hr. unfold initial_setup_events. unfold_gen. rewrite Hr. reflexivity.
Qed.

Lemma create_and_send_checkpoints_eq w c ms l fs :
  ckpts w !! latest_checkpoint self = Some c →
  mlists w !! values_messages c = Some ms →
  threads_checkpoint_list w !! thread_id self = Some l →
  create_and_send_checkpoints self patient (mkSt w 3 fs) =
  (mkSt (world_streaming self w c ms l []) 5
     (fs ++
      [ sse (py "data")
          (PPatch [mkPatchOp (py "add") (py "/checkpoints/-")
             (VCheckpoint (mkCheckpointJson (step_0 self w c) (ms ++ [user_msg self w])))])
          (Some 3);
        sse (py "data")
          (PPatch [mkPatchOp (py "add") (py "/checkpoints/-")
             (VCheckpoint (mkCheckpointJson (step_1 self w None)
                ((ms ++ [user_msg self w]) ++ [assistant_msg w [] None])))])
          (Some 4) ]),
   Ok (S (length (ckpts w)))).
Proof.
  intros Hc Hms Hl. unfold create_and_send_checkpoints.
  erewrite bind_Ok by (apply lift_eq; simpl; by apply create_step_0_eq).
  erewrite bind_Ok by (apply lift_eq; unfold_ops; by rewrite Hl).
  erewrite bind_Ok; cycle 1.
  { unfold_gen. rewrite lookup_snoc. unfold_gen. rewrite lookup_snoc. reflexivity. }
  erewrite bind_Ok by reflexivity.
  erewrite bind_Ok; cycle 1.
  { apply lift_eq. simpl. by apply create_step_1_eq. }
  erewrite bind_Ok; cycle 1.
  { apply lift_eq. unfold_ops. rewrite lookup_insert_eq. unfold_ops.
    rewrite insert_insert_eq. reflexivity. }
  erewrite bind_Ok; cycle 1.
  { unfold_gen. rewrite lookup_snoc2_1. unfold_gen. rewrite lookup_snoc2_1.
    reflexivity. }
  erewrite bind_Ok by reflexivity.
  unfold_gen. unfold world_streaming. rewrite <- (app_assoc fs). reflexivity.
Qed.

Lemma set_latest_content_eq w c ms l content final_text :
  set_latest_content self final_text (world_streaming self w c ms l content) =
  (world_streaming self w c ms l final_text, Ok tt).
Proof.
  unfold set_latest_content, world_streaming. unfold_ops.
  rewrite lookup_insert_eq. unfold_ops. rewrite lookup_snoc2_1. unfold_ops.
  rewrite lookup_snoc2_1.
  destruct ((ms ++ [user_msg self w]) ++ [assistant_msg w content None]) eqn:E.
  { by destruct ms. }
  rewrite <- E. unfold_ops. rewrite set_last_snoc, insert_snoc2_1. reflexivity.
Qed.

Lemma stream_tokens_eq w c ms l path words remaining :
  ∀ full content e fs,
  stream_tokens self patient path words remaining full
    (mkSt (world_streaming self w c ms l content) e fs) =
  (mkSt (world_streaming self w c ms l
           (match remaining with
            | [] => content
            | _ => join_empty (full ++ map (chunk_of words) remaining)
            end))
        (length remaining + e)
        (fs ++ token_frames path e (map (chunk_of words) remaining)),
   Ok tt).
Proof.
  induction remaining as [|word remaining IH]; intros full content e fs.
  - simpl. by rewrite app_nil_r.
  - cbn [stream_tokens].
    erewrite bind_Ok by reflexivity.
    erewrite bind_Ok by reflexivity.
    erewrite bind_Ok by (apply lift_eq; apply set_latest_content_eq).
    rewrite IH. cbn [length map token_frames world event_id emitted].
    f_equal. f_equal.
    + f_equal. destruct remaining; [done|]. by rewrite <- app_assoc.
    + lia.
    + by rewrite <- app_assoc.
Qed.

Lemma stream_the_tokens_eq w c ms l fs :
  stream_the_tokens self patient (S (length (ckpts w)))
    (mkSt (world_streaming self w c ms l []) 5 fs) =
  (mkSt (world_streaming self w c ms l (final_content self))
        (5 + length (chunks_of (words_of (text self))))
        (fs ++ token_frames (msg_content_path self w ms) 5
                 (chunks_of (words_of (text self)))),
   Ok (words_of (text self))).
Proof.
  unfold stream_the_tokens.
  erewrite bind_Ok; cycle 1.
  { apply lift_eq. unfold world_streaming. unfold_ops.
    rewrite lookup_snoc2_1. unfold_ops. rewrite lookup_snoc2_1. reflexivity. }
  cbn [cj_messages].
  erewrite bind_Ok by apply stream_tokens_eq.
  unfold mret, ST_ret, final_content, msg_content_path, chunks_of.
  rewrite length_map, (length_app (ms ++ _)). cbn [length app].
  pose proof (words_of_nonempty (text self)).
  destruct (words_of (text self)); [done|].
  cbn [world event_id emitted]. f_equal. f_equal. lia.
Qed.

Lemma finalize_run_and_checkpoint_eq w c ms l r fs e :
  runs w !! run_data self = Some r →
  finalize_run_and_checkpoint self patient (words_of (text self))
    (mkSt (world_streaming self w c ms l (final_content self)) e fs) =
  (mkSt (world_final self w c ms l r) (3 + e)
        (fs ++ frames_after_tokens self w ms r e),
   Ok tt).
Proof.
  intros Hr. pose proof (lookup_lt_Some _ _ _ Hr) as Hlt.
  unfold finalize_run_and_checkpoint.
  erewrite bind_Ok; cycle 1.
  { apply lift_eq. unfold world_streaming. unfold_ops.
    rewrite lookup_insert_eq. reflexivity. }
  erewrite bind_Ok; cycle 1.
  { apply lift_eq. unfold _finalize_data, world_streaming. unfold_ops.
    rewrite Hr. unfold_ops. rewrite lookup_snoc2_1. unfold_ops.
    rewrite insert_snoc2_1, lookup_snoc2_1.
    destruct ((ms ++ [user_msg self w]) ++
              [assistant_msg w (final_content self) None]) eqn:E.
    { by destruct ms. }
    rewrite <- E. unfold_ops. rewrite set_last_snoc, insert_snoc2_1.
    reflexivity. }
  cbn [world event_id emitted].
  erewrite bind_Ok; cycle 1.
  { unfold_gen. rewrite list_lookup_insert_eq by done. reflexivity. }
  erewrite bind_Ok by reflexivity.
  erewrite bind_Ok; cycle 1.
  { unfold_gen. rewrite lookup_snoc2_1. unfold_gen. rewrite lookup_snoc2_1.
    reflexivity. }
  erewrite bind_Ok by reflexivity.
  erewrite bind_Ok; cycle 1.
  { unfold_gen. rewrite lookup_snoc2_1. unfold_gen. rewrite lookup_snoc2_1.
    reflexivity. }
  unfold_gen. unfold world_final, frames_after_tokens, final_checkpoint_json.
  rewrite <- !(app_assoc fs). reflexivity.
Qed.

(** The run whose consumer takes every frame, in full. *)
Lemma run_stream_patient w c ms l r :
  ckpts w !! latest_checkpoint self = Some c →
  mlists w !! values_messages c = Some ms →
  threads_checkpoint_list w !! thread_id self = Some l →
  runs w !! run_data self = Some r →
  run_stream self patient w =
  (mkSt (world_final self w c ms l r)
        (8 + length (chunks_of (words_of (text self))))
        (frames_of_run self w c ms r),
   Ok tt).
Proof.
  intros Hc Hms Hl Hr.
  unfold run_stream, stream_response, try_except, stream_body,
    stream_until_finalization.
  erewrite bind_Ok; cycle 1.
  { erewrite bind_Ok by (by apply initial_setup_events_eq).
    erewrite bind_Ok by (by apply create_and_send_checkpoints_eq).
    apply stream_the_tokens_eq. }
  erewrite finalize_run_and_checkpoint_eq by done.
  unfold frames_of_run, frames_before_tokens.
  rewrite <- !app_assoc. repeat f_equal.
Qed.

End Undisturbed.

(** ** What the consumer of an undisturbed run sees *)

Lemma token_chunks_token_frames path i chunks :
  token_chunks (token_frames path i chunks) = chunks.
Proof.
  revert i. induction chunks as [|chunk chunks IH]; intros i; [done|].
  unfold token_chunks in *. simpl. by rewrite IH.
Qed.

Lemma token_chunks_frames_of_run `{Env} self w c ms r :
  token_chunks (frames_of_run self w c ms r) = chunks_of (words_of (text self)).
Proof.
  unfold frames_of_run, token_chunks. rewrite !omap_app.
  fold (token_chunks (token_frames (msg_content_path self w ms) 5
                        (chunks_of (words_of (text self))))).
  rewrite token_chunks_token_frames. simpl. by rewrite app_nil_r.
Qed.

Lemma token_frames_events path i chunks :
  Forall (λ f, frame_event f = Some (py "data")) (token_frames path i chunks).
Proof.
  revert i. induction chunks as [|chunk chunks IH]; intros i; simpl.
  - constructor.
  - constructor; [done|apply IH].
Qed.

Lemma frames_of_run_no_error `{Env} self w c ms r :
  Forall (λ f, frame_event f ≠ Some (py "error")) (frames_of_run self w c ms r).
Proof.
  unfold frames_of_run. rewrite !Forall_app. split; [|split].
  - repeat constructor; simpl; discriminate.
  - eapply Forall_impl; [apply token_frames_events|].
    intros f ->. discriminate.
  - repeat constructor; simpl; discriminate.
Qed.

Section Claims_on_undisturbed_runs.

Context `{Env}.
Variables (self : EchoStreamer) (w : World).
Variables (c : Checkpoint) (ms : list Msg) (l : list loc) (r : Run).

(** The streamer was constructed for a thread of the store, from its
    latest checkpoint and a run dict of the store. *)
Hypothesis Hthread :
  threads_checkpoint_list w !! thread_id self = Some (latest_checkpoint self :: l).
Hypothesis Hlatest : ckpts w !! latest_checkpoint self = Some c.
Hypothesis Hmessages : mlists w !! values_messages c = Some ms.
Hypothesis Hrun : runs w !! run_data self = Some r.

Lemma undisturbed :
  run_stream self patient w =
  (mkSt (world_final self w c ms (latest_checkpoint self :: l) r)
        (8 + length (chunks_of (words_of (text self))))
        (frames_of_run self w c ms r),
   Ok tt).
Proof. by apply run_stream_patient. Qed.

Lemma undisturbed_chunks :
  token_chunks (emitted (run_stream self patient w).1) =
  chunks_of (words_of (text self)).
Proof. rewrite undisturbed. apply token_chunks_frames_of_run. Qed.

Lemma undisturbed_status :
  status_of (world (run_stream self patient w).1) (run_data self) =
  Some (py "success").
Proof.
  rewrite undisturbed. unfold status_of, world_final. simpl.
  rewrite list_lookup_insert_eq by (by eapply lookup_lt_Some). done.
Qed.

Lemma undisturbed_latest_messages :
  latest_messages (world (run_stream self patient w).1) (thread_id self) =
  Some (ms ++ [user_msg self w;
               assistant_msg w (final_content self) (Some (final_usage self))]).
Proof.
  rewrite undisturbed. unfold latest_messages, world_final. simpl.
  rewrite lookup_insert_eq. simpl. rewrite lookup_snoc2_1. simpl.
  rewrite lookup_snoc2_1. by rewrite <- app_assoc.
Qed.

(** Claim C1, as amended. For an input text with at least one word, the
    run streamer emits one token chunk per whitespace-delimited word;
    when no earlier word is equal to the last one, each chunk is the word
    followed by a single space, except the final word, which gets none,
    and the concatenation of the chunks is the words joined by single
    spaces: the input text exactly when the text is its words separated
    by single spaces. *)
Theorem token_chunks_of_words :
  split (text self) ≠ [] →
  let chunks := token_chunks (emitted (run_stream self patient w).1) in
  let words := split (text self) in
  length chunks = length words ∧
  (last_word_fresh words →
     chunks = map (λ word, word ++ py " ") (removelast words) ++ [last_word words] ∧
     join_empty chunks = join_space words ∧
     (text self = join_space words → join_empty chunks = text self)).
Proof.
  intros Hwords chunks words. subst chunks words.
  rewrite undisturbed_chunks, words_of_split by done.
  split; [apply chunks_of_length|]. intros Hfresh.
  rewrite chunks_of_join by done. split; [by apply chunks_of_fresh|].
  split; [done|]. by intros <-.
Qed.

(** Claim C3, as amended. After a stream whose consumer took every
    frame, over a thread whose latest checkpoint had the messages [ms]:
    the run's status is "success"; the new latest checkpoint has the
    messages [ms] followed by one user message and one assistant message;
    the assistant's content is the concatenation of the streamed chunks,
    which is the placeholder for the empty text, the text itself for a
    text of whitespace, and the words joined by single spaces when no
    earlier word is equal to the last one (so the full input text when
    that text is single-spaced); its usage has [completion_tokens] the
    number of chunks streamed, [prompt_tokens] 5 and [total_tokens] their
    sum. *)
Theorem successful_stream :
  let s := (run_stream self patient w).1 in
  let chunks := token_chunks (emitted s) in
  (run_stream self patient w).2 = Ok tt ∧
  latest_messages w (thread_id self) = Some ms ∧
  status_of (world s) (run_data self) = Some (py "success") ∧
  ∃ user assistant usage,
    latest_messages (world s) (thread_id self) = Some (ms ++ [user; assistant]) ∧
    length (ms ++ [user; assistant]) = length ms + 2 ∧
    msg_role user = py "user" ∧ msg_content user = text self ∧
    msg_role assistant = py "assistant" ∧
    msg_content assistant = join_empty chunks ∧
    (text self = [] → msg_content assistant = PLACEHOLDER) ∧
    (text self ≠ [] → forallb isspace (text self) = true →
       msg_content assistant = text self) ∧
    (split (text self) ≠ [] → last_word_fresh (split (text self)) →
       msg_content assistant = join_space (split (text self)) ∧
       (text self = join_space (split (text self)) →
          msg_content assistant = text self)) ∧
    msg_response_metadata assistant = Some usage ∧
    completion_tokens usage = Z.of_nat (length chunks) ∧
    prompt_tokens usage = 5%Z ∧
    total_tokens usage = (prompt_tokens usage + completion_tokens usage)%Z.
Proof.
  intros s chunks. subst s chunks.
  rewrite undisturbed_status, undisturbed_latest_messages, undisturbed_chunks.
  split; [by rewrite undisturbed|]. split.
  { unfold latest_messages. rewrite Hthread. simpl. rewrite Hlatest. simpl. done. }
  split; [done|].
  eexists _, _, _. split; [reflexivity|].
  split; [rewrite length_app; simpl; lia|].
  do 4 (split; [done|]). split; [|split; [|split]].
  - intros Ht. simpl. unfold final_content. rewrite Ht. reflexivity.
  - intros Hne Hws. simpl. unfold final_content.
    rewrite words_of_whitespace, chunks_of_singleton by done.
    unfold join_empty. simpl. by rewrite app_nil_r.
  - intros Hwords Hfresh. simpl. unfold final_content.
    rewrite words_of_split, chunks_of_join by done.
    split; [done|]. by intros <-.
  - simpl. rewrite chunks_of_length. done.
Qed.

(** Claim C8. For the empty input text the stream runs to its end without
    an error: exactly one token chunk is emitted, the placeholder
    "I didn't catch that!", no frame is an [error] event and the run ends
    with status "success". *)
Theorem empty_text_placeholder :
  text self = [] →
  let s := (run_stream self patient w).1 in
  token_chunks (emitted s) = [py "I didn't catch that!"] ∧
  (run_stream self patient w).2 = Ok tt ∧
  Forall (λ f, frame_event f ≠ Some (py "error")) (emitted s) ∧
  status_of (world s) (run_data self) = Some (py "success").
Proof.
  intros Htext s. subst s.
  rewrite undisturbed_status, undisturbed_chunks, Htext.
  split; [reflexivity|]. rewrite undisturbed. simpl.
  split; [done|]. split; [apply frames_of_run_no_error|done].
Qed.

(** Claim C10. For an input text that is not empty and consists of
    whitespace only, the streamer emits exactly one token chunk, and it
    is the input text itself. *)
Theorem whitespace_text_raw :
  text self ≠ [] →
  forallb isspace (text self) = true →
  token_chunks (emitted (run_stream self patient w).1) = [text self] ∧
  split (text self) = [] ∧
  text self ≠ PLACEHOLDER.
Proof.
  intros Hne Hws.
  rewrite undisturbed_chunks, words_of_whitespace, chunks_of_singleton by done.
  split; [done|]. split; [by apply split_whitespace|].
  intros Heq. rewrite Heq in Hws. discriminate.
Qed.

End Claims_on_undisturbed_runs.

(** ** Instances and counterexamples for the undisturbed run *)

Lemma token_chunks_of_words_witness :
  split (py "hello world") ≠ [] ∧
  last_word_fresh (split (py "hello world")) ∧
  let chunks :=
    token_chunks (emitted (run_stream (H:=example_env)
      (example_streamer (py "hello world")) patient example_world_run).1) in
  chunks = [py "hello "; py "world"] ∧ join_empty chunks = py "hello world".
Proof.
  assert (Hwords : split (py "hello world") ≠ []) by (vm_compute; discriminate).
  assert (Hfresh : last_word_fresh (split (py "hello world"))).
  { intros [|[|i]] word Hi Hw; vm_compute in Hi, Hw; [|lia..].
    injection Hw as <-. vm_compute. discriminate. }
  split; [done|]. split; [done|].
  edestruct (token_chunks_of_words (H:=example_env)
               (example_streamer (py "hello world")) example_world_run
               example_genesis [] [] example_run) as [_ Hchunks];
    [vm_compute; reflexivity..|exact Hwords|].
  destruct (Hchunks Hfresh) as (Hc & _ & Hj).
  split; [exact Hc|]. apply Hj. vm_compute. reflexivity.
Defined.

(** The claim C1 as stated fails: for the text "a  b", with two spaces,
    the chunks are "a " and "b", and their concatenation is not the
    text. *)
Lemma token_chunks_not_the_text :
  let text := py "a  b" in
  let response :=
    (stream_run (H:=example_env) example_thread text (JObj []) patient
       example_world).2 in
  text ≠ [] ∧
  token_chunks (response_frames response) = [py "a "; py "b"] ∧
  join_empty (token_chunks (response_frames response)) ≠ text.
Proof. vm_compute. repeat split; discriminate. Qed.

Lemma successful_stream_witness :
  let self := example_streamer (py "hello world") in
  let s := (run_stream (H:=example_env) self patient example_world_run).1 in
  latest_messages example_world_run example_thread = Some [] ∧
  status_of (world s) 0 = Some (py "success") ∧
  ∃ user assistant usage,
    latest_messages (world s) example_thread = Some [user; assistant] ∧
    msg_content assistant = py "hello world" ∧
    msg_response_metadata assistant = Some usage ∧
    completion_tokens usage = 2%Z.
Proof.
  intros self s.
  assert (Hwords : split (text self) ≠ []) by (vm_compute; discriminate).
  assert (Hfresh : last_word_fresh (split (text self))).
  { intros [|[|i]] word Hi Hw; vm_compute in Hi, Hw; [|lia..].
    injection Hw as <-. vm_compute. discriminate. }
  edestruct (successful_stream (H:=example_env) self example_world_run
               example_genesis [] [] example_run)
    as (_ & Hbefore & Hstatus & user & assistant & usage & Hafter & _ & _ & _ &
        _ & _ & _ & _ & Hcontent & Husage & Hcompletion & _);
    [vm_compute; reflexivity..|].
  split; [exact Hbefore|]. split; [exact Hstatus|].
  exists user, assistant, usage. split; [exact Hafter|].
  split; [apply (Hcontent Hwords Hfresh); vm_compute; reflexivity|].
  split; [exact Husage|].
  rewrite Hcompletion. vm_compute. reflexivity.
Defined.

(** The claim C3 as stated fails: after the run over the text "a  b",
    with two spaces, the content of the assistant message is "a b". *)
Lemma assistant_content_not_the_text :
  let text := py "a  b" in
  let w :=
    (stream_run (H:=example_env) example_thread text (JObj []) patient
       example_world).1 in
  status_of w 0 = Some (py "success") ∧
  (msg_content <$> latest_message w example_thread) = Some (py "a b") ∧
  py "a b" ≠ text.
Proof. vm_compute. repeat split; discriminate. Qed.

Lemma empty_text_placeholder_witness :
  let s := (run_stream (H:=example_env) (example_streamer []) patient
              example_world_run).1 in
  token_chunks (emitted s) = [py "I didn't catch that!"] ∧
  status_of (world s) 0 = Some (py "success").
Proof.
  intros s.
  edestruct (empty_text_placeholder (H:=example_env) (example_streamer [])
               example_world_run example_genesis [] [] example_run)
    as (Hchunks & _ & _ & Hstatus); [vm_compute; reflexivity..|].
  split; [exact Hchunks|exact Hstatus].
Defined.

Lemma whitespace_text_raw_witness :
  let text := [32; 9; 32]%N in
  text ≠ [] ∧ forallb isspace text = true ∧
  token_chunks (emitted (run_stream (H:=example_env) (example_streamer text)
                           patient example_world_run).1) = [text].
Proof.
  intros text.
  assert (Hne : text ≠ []) by (vm_compute; discriminate).
  assert (Hws : forallb isspace text = true) by (vm_compute; reflexivity).
  split; [exact Hne|]. split; [exact Hws|].
  edestruct (whitespace_text_raw (H:=example_env) (example_streamer text)
               example_world_run example_genesis [] [] example_run)
    as (Hchunks & _ & _); [vm_compute; reflexivity..|exact Hne|exact Hws|].
  exact Hchunks.
Defined.

(** ** Finalization *)

Lemma finalize_data_eq `{Env} self w l c ms m r n :
  runs w !! run_data self = Some r →
  ckpts w !! l = Some c →
  mlists w !! values_messages c = Some (ms ++ [m]) →
  _finalize_data self (Some l) n w =
  (mkWorld (threads w) (threads_checkpoint_list w) (db_runs w)
     (<[l := with_updated_at (now_iso_at (S (clock_reads w))) c]> (ckpts w))
     (<[values_messages c :=
          ms ++ [with_response_metadata (mkUsage 5 n (5 + n)) m]]> (mlists w))
     (<[run_data self :=
          with_status (py "success") (now_iso_at (clock_reads w)) r]> (runs w))
     (2 + clock_reads w) (uuid_draws w),
   Ok tt).
Proof.
  intros Hrun Hcheckpoint Hmessages.
  unfold _finalize_data. unfold_ops. rewrite Hrun. unfold_ops.
  rewrite Hcheckpoint. unfold_ops. rewrite Hmessages.
  destruct (ms ++ [m]) eqn:E; [by destruct ms|]. rewrite <- E.
  unfold_ops. by rewrite set_last_snoc.
Qed.

Section Finalization.

Context `{Env}.
Variables (self : EchoStreamer) (w : World).
Variables (l : loc) (c : Checkpoint) (ms : list Msg) (m : Msg) (r : Run).

(** The run dict and the checkpoint are in the store, and the checkpoint
    has a last message. *)
Hypothesis Hrun : runs w !! run_data self = Some r.
Hypothesis Hcheckpoint : ckpts w !! l = Some c.
Hypothesis Hmessages : mlists w !! values_messages c = Some (ms ++ [m]).

(** Claim C5, as amended. [_finalize_data] has no test of the run's
    status: every call returns normally, sets the status to "success",
    and overwrites the run's timestamp with the clock reading of that
    call, the checkpoint's timestamp likewise, and the usage of the last
    message with that call's word count. After two calls the status is
    the one the first call set, and the timestamps and the usage are
    those of the second call. *)
Theorem finalize_data_overwrites n1 n2 :
  let k := clock_reads w in
  let first := _finalize_data self (Some l) n1 w in
  let second := _finalize_data self (Some l) n2 first.1 in
  first.2 = Ok tt ∧ second.2 = Ok tt ∧
  runs first.1 !! run_data self =
    Some (with_status (py "success") (now_iso_at k) r) ∧
  runs second.1 !! run_data self =
    Some (with_status (py "success") (now_iso_at (2 + k)) r) ∧
  status_of first.1 (run_data self) = status_of second.1 (run_data self) ∧
  ckpts second.1 !! l = Some (with_updated_at (now_iso_at (3 + k)) c) ∧
  mlists second.1 !! values_messages c =
    Some (ms ++ [with_response_metadata (mkUsage 5 n2 (5 + n2)) m]).
Proof.
  intros k first second. subst first second k.
  pose proof (lookup_lt_Some _ _ _ Hrun) as Hr.
  pose proof (lookup_lt_Some _ _ _ Hcheckpoint) as Hc.
  pose proof (lookup_lt_Some _ _ _ Hmessages) as Hm.
  rewrite (finalize_data_eq self w l c ms m r n1) by done. cbn [fst snd].
  erewrite (finalize_data_eq self _ l _ ms _ _ n2);
    [|by apply list_lookup_insert_eq..].
  unfold status_of. cbn [fst snd runs ckpts mlists clock_reads].
  rewrite !list_insert_insert_eq.
  rewrite !list_lookup_insert_eq by done.
  done.
Qed.

End Finalization.

Lemma finalize_data_overwrites_witness :
  let self := example_streamer [] in
  let first := _finalize_data (H:=example_env) self (Some 0) 2 example_world_message in
  let second := _finalize_data (H:=example_env) self (Some 0) 3 first.1 in
  status_of first.1 0 = status_of second.1 0 ∧
  (run_updated_at <$> runs second.1 !! 0) = Some (py "2025-01-01T00:00:02") ∧
  mlists second.1 !! 0 =
    Some [with_response_metadata (mkUsage 5 3 8) example_message].
Proof.
  intros self first second.
  destruct (finalize_data_overwrites (H:=example_env) self example_world_message
              0 example_genesis [] example_message example_run
              eq_refl eq_refl eq_refl 2 3)
    as (_ & _ & _ & Hrun & Hstatus & _ & Hmessages).
  split; [exact Hstatus|]. split; [|exact Hmessages].
  etrans; [exact (f_equal (fmap run_updated_at) Hrun)|reflexivity].
Defined.

(** The claim C5 as stated fails: on the store a finished stream left,
    where the run is already "success", one more call of
    [_finalize_data], with another word count, changes the run's
    timestamp and the usage of the last message. *)
Lemma finalize_again_is_not_a_noop :
  let w := (stream_run (H:=example_env) example_thread (py "hello world")
              (JObj []) patient example_world).1 in
  let self := mkEchoStreamer example_thread (py "run") 0 (py "hello world") 0 in
  let w' := (_finalize_data (H:=example_env) self (Some 2) 7 w).1 in
  status_of w 0 = Some (py "success") ∧
  (run_updated_at <$> runs w !! 0) ≠ (run_updated_at <$> runs w' !! 0) ∧
  (msg_response_metadata <$> latest_message w example_thread)
    = Some (Some (mkUsage 5 2 7)) ∧
  (msg_response_metadata <$> latest_message w' example_thread)
    = Some (Some (mkUsage 5 7 12)).
Proof. vm_compute. repeat split; discriminate. Qed.

(** ** The checkpoint builder and its callers *)

Lemma make_checkpoint_eq `{Env} checkpoint_id parent thread_id run_id step messages w :
  ∃ ck,
    make_checkpoint checkpoint_id parent thread_id run_id step messages w =
      (mkWorld (threads w) (threads_checkpoint_list w) (db_runs w)
               (ckpts w ++ [ck]) (mlists w) (runs w) (S (clock_reads w))
               (uuid_draws w),
       Ok (length (ckpts w))) ∧
    values_messages ck = messages ∧
    ckpt_created_at ck = now_iso_at (clock_reads w).
Proof. eexists. split; [reflexivity|]. done. Qed.

Section Builder.

Context `{Env}.
Variables (self : EchoStreamer) (w : World) (c : Checkpoint) (ms : list Msg).

(** The streamer's latest checkpoint and its list of messages are in the
    store. *)
Hypothesis Hlatest : ckpts w !! latest_checkpoint self = Some c.
Hypothesis Hmessages : mlists w !! values_messages c = Some ms.

(** Claim C6, as amended. [make_checkpoint] stores the list it is given:
    the [values.messages] of the checkpoint it returns is the caller's
    list object, and no list is allocated. The copy is taken by the
    streamer before it calls the builder: the checkpoint that
    [_create_step_0_checkpoint] returns has a list object of its own,
    which is not the list of the latest checkpoint; that list is left as
    it was, and whatever is written to it afterwards, the step-0
    checkpoint keeps the messages it was built with. *)
Theorem builder_shares_streamer_copies :
  (∀ checkpoint_id parent thread_id run_id step messages w0,
     let built := make_checkpoint checkpoint_id parent thread_id run_id step
                    messages w0 in
     ∃ checkpoint ck,
       built.2 = Ok checkpoint ∧
       ckpts built.1 !! checkpoint = Some ck ∧
       values_messages ck = messages ∧
       mlists built.1 = mlists w0) ∧
  (let built := _create_step_0_checkpoint self w in
   ∃ step_0_ckpt ck,
     built.2 = Ok step_0_ckpt ∧
     ckpts built.1 !! step_0_ckpt = Some ck ∧
     values_messages ck ≠ values_messages c ∧
     mlists built.1 !! values_messages c = Some ms ∧
     ∀ ms',
       (dump_checkpoint step_0_ckpt
          (put_mlist (values_messages c) ms' built.1).1).2 =
       Ok (mkCheckpointJson ck (ms ++ [user_msg self w]))).
Proof.
  pose proof (lookup_lt_Some _ _ _ Hmessages) as Hlt.
  split.
  - intros checkpoint_id parent thread_id run_id step messages w0 built.
    destruct (make_checkpoint_eq checkpoint_id parent thread_id run_id step
                messages w0) as (ck & Heq & Hvm & _).
    subst built. rewrite Heq. exists (length (ckpts w0)), ck. simpl.
    by rewrite lookup_snoc.
  - intros built. subst built.
    rewrite (create_step_0_eq self w c ms) by done. cbn [fst snd].
    exists (length (ckpts w)), (step_0 self w c). cbn [ckpts mlists].
    split; [done|]. split; [apply lookup_snoc|].
    split; [simpl; lia|]. split; [by rewrite lookup_app_l|].
    intros ms'. unfold_ops. rewrite lookup_snoc. unfold_ops.
    rewrite insert_app_l by done.
    rewrite (list_lookup_middle _ [] _ (length (mlists w)))
      by (by rewrite length_insert).
    done.
Qed.

End Builder.

Lemma builder_shares_streamer_copies_witness :
  let self := example_streamer (py "hi") in
  let built := _create_step_0_checkpoint (H:=example_env) self example_world_message in
  ∃ step_0_ckpt ck,
    built.2 = Ok step_0_ckpt ∧
    values_messages ck ≠ values_messages example_genesis ∧
    (dump_checkpoint step_0_ckpt (put_mlist 0 [] built.1).1).2 =
    Ok (mkCheckpointJson ck
          ([example_message] ++
           [user_msg (H:=example_env) self example_world_message])).
Proof.
  intros self built.
  destruct (builder_shares_streamer_copies (H:=example_env) self
              example_world_message example_genesis [example_message]
              eq_refl eq_refl)
    as (_ & step_0_ckpt & ck & Hbuilt & _ & Hfresh & _ & Hkeeps).
  exists step_0_ckpt, ck. split; [exact Hbuilt|]. split; [exact Hfresh|].
  exact (Hkeeps []).
Defined.

(** The claim C6 as stated fails: a caller that appends to its list after
    [make_checkpoint] returned finds the message in the checkpoint. *)
Lemma builder_does_not_copy :
  ∃ before after,
    (build_then_append (H:=example_env) example_message empty_world).2 =
      Ok (before, after) ∧
    cj_messages before = [] ∧
    cj_messages after = [example_message] ∧
    cj_checkpoint before = cj_checkpoint after.
Proof. eexists _, _. vm_compute. repeat split. Qed.

(** ** Rules for triples *)

Lemma triple_ret {S A} (P : S → Prop) (I : S → Prop) (a : A) :
  triple P (mret a) I (λ a' s, a' = a ∧ P s).
Proof. intros s HP. simpl. done. Qed.

Lemma triple_bind {S A B} (P : S → Prop) (I : S → Prop) (Q : A → S → Prop)
    (R : B → S → Prop) (m : ST S A) (f : A → ST S B) :
  triple P m I Q → (∀ a, triple (Q a) (f a) I R) → triple P (m ≫= f) I R.
Proof.
  intros Hm Hf s HP. specialize (Hm s HP).
  unfold mbind, ST_bind. destruct (m s) as [s' [a| |]]; simpl in *; [|done..].
  apply (Hf a s' Hm).
Qed.

Lemma triple_weaken {S A} (P P' I I' : S → Prop) (Q Q' : A → S → Prop) m :
  triple P m I Q →
  (∀ s, P' s → P s) → (∀ s, I s → I' s) → (∀ a s, Q a s → Q' a s) →
  triple P' m I' Q'.
Proof.
  intros Hm HP HI HQ s Hs. specialize (Hm s (HP s Hs)).
  destruct (m s).2; auto.
Qed.

Lemma triple_try {S A} (P I I' : S → Prop) (Q : A → S → Prop) body handler :
  triple P body I' Q → (∀ e, triple I' (handler e) I Q) →
  (∀ s, I' s → I s) →
  triple P (try_except body handler) I Q.
Proof.
  intros Hb Hh Hstuck s HP. specialize (Hb s HP). unfold try_except.
  destruct (body s) as [s' [a|e|]]; simpl in *; [done| |by apply Hstuck].
  apply (Hh e s' Hb).
Qed.

(** A storage operation inside the generator leaves [event_id] and the
    frames alone. *)
Lemma lift_frames {A} (m : ST World A) s :
  event_id (lift m s).1 = event_id s ∧ emitted (lift m s).1 = emitted s.
Proof. unfold lift. by destruct (m (world s)). Qed.

Lemma triple_lift_frames {A} (J : nat → list Frame → Prop) (m : ST World A) :
  triple (λ s, J (event_id s) (emitted s)) (lift m)
         (λ s, J (event_id s) (emitted s))
         (λ _ s, J (event_id s) (emitted s)).
Proof.
  intros s HJ. destruct (lift_frames m s) as [He Hf].
  destruct (lift m s).2; by rewrite He, Hf.
Qed.

(** ** Numbering of the frames, for any consumer *)

Lemma numbered_snoc fs f :
  numbered fs → frame_id f = Some (S (length fs)) → numbered (fs ++ [f]).
Proof.
  unfold numbered. intros Hfs Hf.
  rewrite map_app, length_app, Nat.add_1_r, seq_S, map_app, Hfs. simpl.
  by rewrite Hf.
Qed.

Section Numbering.

Context `{Env}.
Variable self : EchoStreamer.
Variable consumer : nat → signal.
Variable ok : Frame → Prop.
Hypothesis ok_keepalive : ok Keepalive.
Hypothesis ok_metadata : ∀ i p, ok (Sse i (py "metadata") p).
Hypothesis ok_data : ∀ i p, ok (Sse i (py "data") p).

Lemma yield_first :
  triple (λ s, emitted s = [] ∧ event_id s = 1) (yield consumer Keepalive)
         (sends ok) (λ _, sends ok).
Proof.
  intros s [He Hi]. unfold yield.
  assert (sends ok (mkSt (world s) (event_id s) (emitted s ++ [Keepalive]))).
  { exists []. simpl. rewrite He, Hi. repeat split. by constructor. }
  by destruct (consumer _).
Qed.

Lemma yield_pending frame :
  triple (pending ok frame) (yield consumer frame) (sends ok) (λ _, sends ok).
Proof.
  intros s (fs & He & Hn & Hi & Hok & Hid & Hf). unfold yield.
  assert (sends ok (mkSt (world s) (event_id s) (emitted s ++ [frame]))).
  { exists (fs ++ [frame]). simpl. rewrite He, Hi. split; [done|].
    split; [by apply numbered_snoc|]. split.
    - rewrite length_app. simpl. lia.
    - rewrite <- He. apply Forall_app. split; [done|by constructor]. }
  by destruct (consumer _).
Qed.

(** A frame built by [sse(event, data, id_=self._next_id())] after some
    reading of the store. *)
Lemma sse_pending {A} (pre : ST World A) (event : str) (data : A → Payload) :
  (∀ i p, ok (Sse i event p)) →
  triple (sends ok)
         (a ← lift pre; i ← _next_id; mret (sse event (data a) (Some i)))
         (sends ok) (pending ok).
Proof.
  intros Hok s (fs & He & Hn & Hi & Hfs).
  unfold mbind, ST_bind, lift, _next_id, mret, ST_ret.
  destruct (pre (world s)) as [w' [a| |]]; simpl.
  - exists fs. simpl. rewrite Hi. do 5 (split; [done|]). apply Hok.
  - by exists fs.
  - by exists fs.
Qed.

Lemma sends_lift {A} (m : ST World A) :
  triple (sends ok) (lift m) (sends ok) (λ _, sends ok).
Proof.
  intros s Hs. destruct (lift_frames m s) as [He Hf].
  assert (sends ok (lift m s).1).
  { destruct Hs as (fs & ? & ? & ? & ?). exists fs. by rewrite He, Hf. }
  by destruct (lift m s).2.
Qed.

Lemma sse_metadata_pending :
  triple (sends ok) (_sse_metadata self) (sends ok) (pending ok).
Proof.
  intros s (fs & He & Hn & Hi & Hfs). simpl.
  exists fs. simpl. rewrite Hi. do 5 (split; [done|]). apply ok_metadata.
Qed.

Lemma sse_token_pending path chunk :
  triple (sends ok) (_sse_token path chunk) (sends ok) (pending ok).
Proof.
  intros s (fs & He & Hn & Hi & Hfs). simpl.
  exists fs. simpl. rewrite Hi. do 5 (split; [done|]). apply ok_data.
Qed.

Lemma sse_run_start_pending :
  triple (sends ok) (_sse_run_start self) (sends ok) (pending ok).
Proof. apply (sse_pending (get_run (run_data self))). apply ok_data. Qed.

Lemma sse_checkpoint_pending checkpoint :
  triple (sends ok) (_sse_checkpoint checkpoint) (sends ok) (pending ok).
Proof. apply (sse_pending (dump_checkpoint checkpoint)). apply ok_data. Qed.

Lemma sse_run_end_pending :
  triple (sends ok) (_sse_run_end self) (sends ok) (pending ok).
Proof. apply (sse_pending (get_run (run_data self))). apply ok_data. Qed.

Lemma sse_checkpoint_end_pending checkpoint :
  triple (sends ok) (_sse_checkpoint_end checkpoint) (sends ok) (pending ok).
Proof. apply (sse_pending (dump_optional checkpoint)). apply ok_data. Qed.

(** One frame built and sent. *)
Lemma send_frame {A} (build : ST St Frame) (rest : ST St A) (Q : A → St → Prop) :
  triple (sends ok) build (sends ok) (pending ok) →
  triple (sends ok) rest (sends ok) Q →
  triple (sends ok) (frame ← build; yield consumer frame;; rest) (sends ok) Q.
Proof.
  intros Hbuild Hrest. eapply triple_bind; [exact Hbuild|]. intros frame.
  eapply triple_bind; [apply yield_pending|]. intros ?. exact Hrest.
Qed.

Lemma sends_ret {A} (a : A) :
  triple (sends ok) (mret a) (sends ok) (λ _, sends ok).
Proof. by intros s Hs. Qed.

Lemma initial_setup_events_sends :
  triple (λ s, emitted s = [] ∧ event_id s = 1)
         (initial_setup_events self consumer) (sends ok) (λ _, sends ok).
Proof.
  unfold initial_setup_events.
  eapply triple_bind; [apply yield_first|]. intros ?.
  apply send_frame; [apply sse_metadata_pending|].
  eapply triple_bind; [apply sse_run_start_pending|]. intros frame.
  apply yield_pending.
Qed.

Lemma create_and_send_checkpoints_sends :
  triple (sends ok) (create_and_send_checkpoints self consumer)
         (sends ok) (λ _, sends ok).
Proof.
  unfold create_and_send_checkpoints.
  eapply triple_bind; [apply sends_lift|]. intros step_0_ckpt.
  eapply triple_bind; [apply sends_lift|]. intros ?.
  apply send_frame; [apply sse_checkpoint_pending|].
  eapply triple_bind; [apply sends_lift|]. intros step_1_ckpt.
  eapply triple_bind; [apply sends_lift|]. intros ?.
  apply send_frame; [apply sse_checkpoint_pending|].
  apply sends_ret.
Qed.

Lemma stream_tokens_sends path words remaining full :
  triple (sends ok) (stream_tokens self consumer path words remaining full)
         (sends ok) (λ _, sends ok).
Proof.
  revert full. induction remaining as [|word remaining IH]; intros full.
  - apply sends_ret.
  - cbn [stream_tokens]. apply send_frame; [apply sse_token_pending|].
    eapply triple_bind; [apply sends_lift|]. intros ?. apply IH.
Qed.

Lemma stream_until_finalization_sends :
  triple (λ s, emitted s = [] ∧ event_id s = 1)
         (stream_until_finalization self consumer) (sends ok) (λ _, sends ok).
Proof.
  unfold stream_until_finalization.
  eapply triple_bind; [apply initial_setup_events_sends|]. intros ?.
  eapply triple_bind; [apply create_and_send_checkpoints_sends|].
  intros step_1_ckpt. unfold stream_the_tokens.
  eapply triple_bind; [apply sends_lift|]. intros step_1.
  eapply triple_bind; [apply stream_tokens_sends|]. intros ?.
  apply sends_ret.
Qed.

End Numbering.

Lemma numbered_lookup fs i f :
  numbered fs → fs !! i = Some f → frame_id f = Some (S i).
Proof.
  unfold numbered. intros Hn Hf.
  assert (Hi : map frame_id fs !! i = Some (frame_id f))
    by (by rewrite list_lookup_fmap, Hf).
  rewrite Hn, list_lookup_fmap in Hi.
  destruct (seq 1 (length fs) !! i) as [k|] eqn:Hk; [|done].
  apply lookup_seq in Hk as [-> _]. simpl in Hi. congruence.
Qed.

Section Numbering_to_the_end.

Context `{Env}.
Variable self : EchoStreamer.
Variable consumer : nat → signal.

Let any : Frame → Prop := λ _, True.

Lemma finalize_run_and_checkpoint_sends words :
  triple (sends any) (finalize_run_and_checkpoint self consumer words)
         (sends any) (λ _, sends any).
Proof.
  unfold finalize_run_and_checkpoint.
  eapply triple_bind; [apply sends_lift|]. intros final_checkpoint.
  eapply triple_bind; [apply sends_lift|]. intros ?.
  apply send_frame; [by apply sse_run_end_pending|].
  apply send_frame; [by apply sse_checkpoint_end_pending|].
  eapply triple_bind.
  - apply (sse_pending any (dump_optional final_checkpoint) (py "stream_end")
             (λ c, PStreamEnd (run_id self) c)). done.
  - intros frame. apply yield_pending.
Qed.

Lemma stream_body_sends :
  triple (λ s, emitted s = [] ∧ event_id s = 1) (stream_body self consumer)
         (sends any) (λ _, sends any).
Proof.
  unfold stream_body.
  eapply triple_bind; [by apply stream_until_finalization_sends|].
  intros words. apply finalize_run_and_checkpoint_sends.
Qed.

Lemma stream_handler_numbered e :
  triple (sends any) (stream_handler self consumer e)
         (λ s, well_numbered (emitted s)) (λ _ s, well_numbered (emitted s)).
Proof.
  intros s (fs & He & Hn & Hi & _).
  destruct e as [|message|]; simpl; [by exists fs| |by exists fs].
  unfold mbind, ST_bind, gets, yield, modify. simpl.
  set (error := sse (py "error") _ _).
  assert (Herror : numbered (fs ++ [error]))
    by (apply numbered_snoc; [done|]; subst error; simpl; by rewrite Hi).
  destruct (consumer (length (emitted s))); simpl.
  - set (stream_end := sse (py "stream_end") _ _).
    assert (well_numbered ((emitted s ++ [error]) ++ [stream_end])).
    { exists ((fs ++ [error]) ++ [stream_end]). rewrite He. split; [done|].
      apply numbered_snoc; [done|]. subst stream_end. simpl.
      rewrite Hi, length_app. simpl. f_equal. lia. }
    by destruct (consumer _).
  - exists (fs ++ [error]). by rewrite He.
Qed.

(** Claim C4. Within one stream, however the consumer reacts and
    wherever a fault arises, the first frame is the keepalive, which has
    no id, and the frames after it carry the ids 1, 2, 3, ... in order,
    without a gap; this covers the streams that end normally and those
    that end with the [error] and [stream_end] frames. *)
Theorem event_ids_consecutive w :
  ∃ fs,
    emitted (run_stream self consumer w).1 = Keepalive :: fs ∧
    frame_id Keepalive = None ∧
    ∀ i f, fs !! i = Some f → frame_id f = Some (S i).
Proof.
  assert (Hn : well_numbered (emitted (run_stream self consumer w).1)).
  { assert (Hbody : triple (λ s, emitted s = [] ∧ event_id s = 1)
                      (stream_body self consumer) (sends any)
                      (λ _ s, well_numbered (emitted s))).
    { eapply triple_weaken; [apply stream_body_sends|done|done|].
      intros ? s (fs & ? & ? & _). by exists fs. }
    pose proof (triple_try _ _ _ _ _ _ Hbody stream_handler_numbered) as Ht.
    unfold run_stream, stream_response.
    lapply Ht.
    - intros Htriple. specialize (Htriple (mkSt w 1 []) (conj eq_refl eq_refl)).
      by destruct (try_except _ _ _).2.
    - intros s (fs & He & Hn & _). by exists fs. }
  destruct Hn as (fs & He & Hn). exists fs. split; [done|]. split; [done|].
  intros i f. by apply numbered_lookup.
Qed.

End Numbering_to_the_end.

(** The ids on a path that ends normally and on one where a fault is
    thrown at the first token frame. *)
Example ids_on_both_paths :
  map frame_id (emitted (run_stream (H:=example_env) (example_streamer (py "a b"))
                           patient example_world_run).1) =
    [None; Some 1; Some 2; Some 3; Some 4; Some 5; Some 6; Some 7; Some 8; Some 9] ∧
  map frame_id (emitted (run_stream (H:=example_env) (example_streamer (py "a b"))
                           (throws_at 5 (Exception (py "boom")))
                           example_world_run).1) =
    [None; Some 1; Some 2; Some 3; Some 4; Some 5; Some 6; Some 7].
Proof. vm_compute. done. Qed.

(** ** What the generator leaves alone *)

Lemma keeps_bind {S A B X} (f : S → X) (m : ST S A) (k : A → ST S B) :
  keeps f m → (∀ a, keeps f (k a)) → keeps f (m ≫= k).
Proof.
  intros Hm Hk s. specialize (Hm s). unfold mbind, ST_bind.
  destruct (m s) as [s' [a| |]]; simpl in *; [|done..].
  by rewrite Hk.
Qed.

Lemma keeps_ret {S A X} (f : S → X) (a : A) : keeps f (mret a).
Proof. by intros s. Qed.

Lemma keeps_lift {A X} (f : World → X) (m : ST World A) :
  keeps f m → keeps (λ s, f (world s)) (lift m).
Proof. intros Hm s. specialize (Hm (world s)). unfold lift. by destruct (m _). Qed.

Ltac keeps_world :=
  intros w; unfold_ops; repeat case_match; simplify_eq/=; done.

Section Kept.

Context `{Env}.
Variable self : EchoStreamer.
Variable consumer : nat → signal.

Lemma yield_keeps_world frame : keeps world (yield consumer frame).
Proof. intros s. unfold yield. by destruct (consumer _). Qed.

Lemma next_id_keeps_world : keeps world _next_id.
Proof. by intros s. Qed.

Lemma get_run_keeps l : keeps (λ w, w) (get_run l).
Proof. keeps_world. Qed.

Lemma dump_checkpoint_keeps l : keeps (λ w, w) (dump_checkpoint l).
Proof. keeps_world. Qed.

Lemma create_step_0_keeps_runs : keeps runs (_create_step_0_checkpoint self).
Proof. unfold _create_step_0_checkpoint, make_msg. keeps_world. Qed.

Lemma create_step_1_keeps_runs l : keeps runs (_create_step_1_checkpoint self l).
Proof. unfold _create_step_1_checkpoint, make_msg. keeps_world. Qed.

Lemma add_checkpoint_keeps_runs t l : keeps runs (add_checkpoint t l).
Proof. keeps_world. Qed.

Lemma set_latest_content_keeps_runs final_text :
  keeps runs (set_latest_content self final_text).
Proof. unfold set_latest_content. keeps_world. Qed.

Ltac keeps_gen :=
  intros s; unfold_gen; repeat case_match; simplify_eq/=; done.

Let the_runs : St → list Run := λ s, runs (world s).

Lemma sse_metadata_keeps_runs : keeps the_runs (_sse_metadata self).
Proof. keeps_gen. Qed.

Lemma sse_run_start_keeps_runs : keeps the_runs (_sse_run_start self).
Proof. keeps_gen. Qed.

Lemma sse_checkpoint_keeps_runs l : keeps the_runs (_sse_checkpoint l).
Proof. keeps_gen. Qed.

Lemma sse_token_keeps_runs path chunk : keeps the_runs (_sse_token path chunk).
Proof. keeps_gen. Qed.

Lemma yield_keeps_runs frame : keeps the_runs (yield consumer frame).
Proof. intros s. unfold the_runs. by rewrite yield_keeps_world. Qed.

Lemma stream_tokens_keeps_runs path words remaining full :
  keeps the_runs (stream_tokens self consumer path words remaining full).
Proof.
  revert full. induction remaining as [|word remaining IH]; intros full.
  - apply keeps_ret.
  - cbn [stream_tokens].
    apply keeps_bind; [apply sse_token_keeps_runs|]. intros frame.
    apply keeps_bind; [apply yield_keeps_runs|]. intros ?.
    apply keeps_bind; [|intros ?; apply IH].
    apply (keeps_lift runs), set_latest_content_keeps_runs.
Qed.

(** Until the finalization the generator does not write to a run dict,
    whatever the consumer does. *)
Lemma stream_until_finalization_keeps_runs :
  keeps the_runs (stream_until_finalization self consumer).
Proof.
  unfold stream_until_finalization.
  apply keeps_bind; [|intros ?; apply keeps_bind; [|intros step_1_ckpt]].
  - unfold initial_setup_events.
    apply keeps_bind; [apply yield_keeps_runs|]. intros ?.
    apply keeps_bind; [apply sse_metadata_keeps_runs|]. intros ?.
    apply keeps_bind; [apply yield_keeps_runs|]. intros ?.
    apply keeps_bind; [apply sse_run_start_keeps_runs|]. intros ?.
    apply yield_keeps_runs.
  - unfold create_and_send_checkpoints.
    apply keeps_bind;
      [apply (keeps_lift runs), create_step_0_keeps_runs|]. intros ?.
    apply keeps_bind;
      [apply (keeps_lift runs), add_checkpoint_keeps_runs|]. intros ?.
    apply keeps_bind; [apply sse_checkpoint_keeps_runs|]. intros ?.
    apply keeps_bind; [apply yield_keeps_runs|]. intros ?.
    apply keeps_bind;
      [apply (keeps_lift runs), create_step_1_keeps_runs|]. intros ?.
    apply keeps_bind;
      [apply (keeps_lift runs), add_checkpoint_keeps_runs|]. intros ?.
    apply keeps_bind; [apply sse_checkpoint_keeps_runs|]. intros ?.
    apply keeps_bind; [apply yield_keeps_runs|]. intros ?.
    apply keeps_ret.
  - unfold stream_the_tokens.
    apply keeps_bind.
    { apply (keeps_lift runs). intros w. by rewrite dump_checkpoint_keeps. }
    intros ?. apply keeps_bind; [apply stream_tokens_keeps_runs|]. intros ?.
    apply keeps_ret.
Qed.

End Kept.

(** ** Faults and disconnects *)

Lemma calm_keepalive : calm Keepalive.
Proof. split; discriminate. Qed.

Lemma calm_metadata i p : calm (Sse i (py "metadata") p).
Proof. split; discriminate. Qed.

Lemma calm_data i p : calm (Sse i (py "data") p).
Proof. split; discriminate. Qed.

(** Whatever the consumer does, the frames sent before the finalization
    are neither [error] nor [stream_end] frames, and the run dicts are
    as they were. *)
Lemma before_finalization `{Env} self consumer w :
  let s := (stream_until_finalization self consumer (mkSt w 1 [])).1 in
  runs (world s) = runs w ∧ Forall calm (emitted s).
Proof.
  intros s. subst s. split.
  - apply (stream_until_finalization_keeps_runs self consumer (mkSt w 1 [])).
  - pose proof (stream_until_finalization_sends self consumer calm
                  calm_keepalive calm_metadata calm_data (mkSt w 1 [])
                  (conj eq_refl eq_refl)) as Hs.
    destruct (stream_until_finalization _ _ _).2;
      by destruct Hs as (? & _ & _ & _ & ?).
Qed.

Section Fault.

Context `{Env}.
Variables (self : EchoStreamer) (consumer : nat → signal) (w : World).
Variables (s' : St) (message : str).

(** A fault, an [Exception] other than [BrokenPipeError] with text
    [message], leaves the [try] block in the state [s'], and the consumer
    takes the frame that reports it. *)
Hypothesis Hfault :
  stream_body self consumer (mkSt w 1 []) = (s', Raise (Exception message)).
Hypothesis Hresumes : consumer (length (emitted s')) = Next.

(** Claim C7. When a fault other than a client disconnect leaves the
    [try] block, at whatever point, the streamer emits exactly two
    further frames: an [error] event with payload [{run_id, message}]
    and a [stream_end] event with payload [{run_id}], numbered on from
    the frames before; it writes nothing to the store, so the run is left
    with the status it had at the fault, and when the fault arose before
    the finalization the run dict is the one the stream began with. *)
Theorem fault_is_reported :
  let final := (run_stream self consumer w).1 in
  emitted final =
    emitted s' ++
    [ sse (py "error") (PError (run_id self) message) (Some (event_id s'));
      sse (py "stream_end") (PStreamEnd (run_id self) None)
          (Some (S (event_id s'))) ] ∧
  world final = world s' ∧
  (stream_until_finalization self consumer (mkSt w 1 []) =
     (s', Raise (Exception message)) →
   runs (world final) = runs w).
Proof.
  intros final.
  assert (Hfinal :
    emitted final =
      emitted s' ++
      [ sse (py "error") (PError (run_id self) message) (Some (event_id s'));
        sse (py "stream_end") (PStreamEnd (run_id self) None)
            (Some (S (event_id s'))) ] ∧
    world final = world s').
  { subst final. unfold run_stream, stream_response, try_except.
    rewrite Hfault. simpl. unfold mbind, ST_bind, gets, yield, modify. simpl.
    rewrite Hresumes. simpl. rewrite <- app_assoc.
    by case_match. }
  destruct Hfinal as [Hframes Hworld]. split; [exact Hframes|].
  split; [exact Hworld|]. intros Hearly. rewrite Hworld.
  pose proof (before_finalization self consumer w) as [Hruns _].
  by rewrite Hearly in Hruns.
Qed.

End Fault.

Section Disconnect.

Context `{Env}.
Variables (self : EchoStreamer) (consumer : nat → signal) (w : World).
Variable s' : St.

(** The consumer has closed the channel: a [BrokenPipeError] leaves the
    [try] block in the state [s']. *)
Hypothesis Hdisconnect :
  stream_body self consumer (mkSt w 1 []) = (s', Raise BrokenPipeError).

(** Claim C9, as amended. When a [BrokenPipeError] leaves the [try]
    block the generator returns at once: no frame is emitted after the
    one the consumer refused and nothing is written to the store, so the
    run is not finalized by the disconnect. When the disconnect arises
    before the finalization, the run dict is the one the stream began
    with (its status stays "running") and no [error] or [stream_end]
    frame has been produced. *)
Theorem disconnect_ends_silently :
  run_stream self consumer w = (s', Ok tt) ∧
  (stream_until_finalization self consumer (mkSt w 1 []) =
     (s', Raise BrokenPipeError) →
   runs (world s') = runs w ∧ Forall calm (emitted s')).
Proof.
  split.
  - unfold run_stream, stream_response, try_except. by rewrite Hdisconnect.
  - intros Hearly. pose proof (before_finalization self consumer w) as Hb.
    by rewrite Hearly in Hb.
Qed.

End Disconnect.

Lemma fault_is_reported_witness :
  let self := example_streamer (py "hello world") in
  let consumer := throws_at 5 (Exception (py "boom")) in
  let final := (run_stream (H:=example_env) self consumer example_world_run).1 in
  drop 6 (emitted final) =
    [ sse (py "error") (PError (py "run") (py "boom")) (Some 6);
      sse (py "stream_end") (PStreamEnd (py "run") None) (Some 7) ] ∧
  status_of (world final) 0 = Some (py "running").
Proof.
  intros self consumer final.
  pose (s' := (stream_body (H:=example_env) self consumer
                 (mkSt example_world_run 1 [])).1).
  destruct (fault_is_reported (H:=example_env) self consumer example_world_run
              s' (py "boom"))
    as (Hframes & _ & Hruns); [vm_compute; reflexivity..|].
  split.
  - fold final in Hframes. rewrite Hframes. vm_compute. reflexivity.
  - unfold status_of. fold final in Hruns. rewrite Hruns; [reflexivity|].
    vm_compute. reflexivity.
Defined.

Lemma disconnect_ends_silently_witness :
  let self := example_streamer (py "hello world") in
  let consumer := throws_at 5 BrokenPipeError in
  ∃ s',
    run_stream (H:=example_env) self consumer example_world_run = (s', Ok tt) ∧
    length (emitted s') = 6 ∧
    Forall calm (emitted s') ∧
    status_of (world s') 0 = Some (py "running").
Proof.
  intros self consumer.
  pose (s' := (stream_body (H:=example_env) self consumer
                 (mkSt example_world_run 1 [])).1).
  destruct (disconnect_ends_silently (H:=example_env) self consumer
              example_world_run s')
    as (Hfinal & Hearly); [vm_compute; reflexivity|].
  destruct Hearly as [Hruns Hcalm]; [vm_compute; reflexivity|].
  exists s'. split; [exact Hfinal|]. split; [vm_compute; reflexivity|].
  split; [exact Hcalm|].
  unfold status_of. rewrite Hruns. reflexivity.
Defined.

(** The claim C9 as stated fails: when the consumer closes the channel at
    the "replace run" frame, the stream ends there, without an [error]
    or [stream_end] frame, and the run's status is "success". *)
Lemma disconnect_after_finalization :
  let result :=
    stream_run (H:=example_env) example_thread (py "hi") (JObj [])
      (throws_at 6 BrokenPipeError) example_world in
  (∃ frames, result.2 = Ok (Streaming frames (Ok tt)) ∧ length frames = 7 ∧
             Forall (λ f, frame_event f ≠ Some (py "error") ∧
                          frame_event f ≠ Some (py "stream_end")) frames) ∧
  status_of result.1 0 = Some (py "success") ∧
  status_of result.1 0 ≠ Some (py "running").
Proof.
  vm_compute. split; [|split; [reflexivity|discriminate]].
  eexists. split; [reflexivity|]. split; [reflexivity|].
  repeat constructor; discriminate.
Qed.

(** ** The checkpoint chain *)

Lemma same_links_refl h : same_links h h.
Proof. intros i ck Hi. by exists ck. Qed.

Lemma same_links_trans h1 h2 h3 :
  same_links h1 h2 → same_links h2 h3 → same_links h1 h3.
Proof.
  intros H12 H23 i ck Hi.
  destruct (H12 i ck Hi) as (ck2 & H2 & Hid2 & Hp2).
  destruct (H23 i ck2 H2) as (ck3 & H3 & Hid3 & Hp3).
  exists ck3. split; [done|]. split; congruence.
Qed.

Lemma same_links_app h h' : same_links h (h ++ h').
Proof. intros i ck Hi. exists ck. split; [by apply lookup_app_l_Some|done]. Qed.

Lemma same_links_updated_at h l c now :
  h !! l = Some c → same_links h (<[l := with_updated_at now c]> h).
Proof.
  intros Hl i ck Hi. destruct (decide (i = l)) as [->|Hne].
  - exists (with_updated_at now c).
    rewrite list_lookup_insert_eq by (by eapply lookup_lt_Some).
    by simplify_eq.
  - exists ck. by rewrite list_lookup_insert_ne.
Qed.

Lemma settled_refl w : settled w w.
Proof. split; [done|apply same_links_refl]. Qed.

Lemma settled_trans w1 w2 w3 : settled w1 w2 → settled w2 w3 → settled w1 w3.
Proof.
  intros [Ht12 Hl12] [Ht23 Hl23]. split; [congruence|].
  by eapply same_links_trans.
Qed.

Lemma chain_in_same_links h h' l :
  same_links h h' → chain_in h l → chain_in h' l.
Proof.
  intros Hhh'. induction 1 as [g ck Hg Hp Hid|c ck t p l Hc Hp Hid Hparent _ IH].
  - destruct (Hhh' g ck Hg) as (ck' & Hg' & Hid' & Hp').
    apply (chain_genesis h' g ck'); [done|congruence|by rewrite Hid'].
  - destruct (Hhh' c ck Hc) as (ck' & Hc' & Hid' & Hp').
    destruct Hparent as (c0 & ck0 & Hin & Hc0 & Hid0).
    destruct (Hhh' c0 ck0 Hc0) as (ck0' & Hc0' & Hid0' & _).
    apply (chain_step h' c ck' t p l);
      [done|congruence|by rewrite Hid'| |done].
    exists c0, ck0'. split; [done|]. split; [done|congruence].
Qed.

Lemma chained_settled w w' : chained w → settled w w' → chained w'.
Proof.
  intros Hw [Ht Hl] t l Htl. rewrite Ht in Htl.
  eapply chain_in_same_links; eauto.
Qed.

Lemma chain_in_head h l : chain_in h l → ∃ c ck, head l = Some c ∧ h !! c = Some ck ∧ checkpoint_id ck ≠ [].
Proof. destruct 1; eauto. Qed.

(** A chain by references is a chain of checkpoints. *)
Lemma chain_in_chain h l :
  chain_in h l → ∃ cs, mapM (λ c, h !! c) l = Some cs ∧ chain cs.
Proof.
  induction 1 as [g ck Hg Hp Hid|c ck t p l Hc Hp Hid Hparent Hl IH].
  - exists [ck]. split; [by rewrite mapM_Some; repeat constructor|].
    split; [|split].
    + rewrite filter_cons_True by (unfold is_root; by rewrite Hp). done.
    + by exists ck.
    + intros [|i] c t p Hi Hpc; simplify_eq/=.
  - destruct IH as (cs & Hcs & Hroots & (g & Hlast & Hg) & Hback).
    exists (ck :: cs). split.
    { apply mapM_Some. constructor; [done|]. by apply mapM_Some. }
    split; [|split].
    + rewrite filter_cons_False by (unfold is_root; by rewrite Hp). done.
    + exists g. split; [|done]. destruct cs; [done|]. done.
    + intros [|i] c1 t1 p1 Hi Hpc; simplify_eq/=.
      * destruct Hparent as (c' & ck' & Hin & Hc' & Hid').
        apply list_elem_of_lookup in Hin as [j Hj].
        apply mapM_Some in Hcs.
        destruct (Forall2_lookup_l _ _ _ _ _ Hcs Hj) as (ck'' & Hj' & Heq).
        exists (S j), ck''. split; [lia|]. split; [done|]. congruence.
      * destruct (Hback i c1 t1 p1 Hi Hpc) as (j & c' & Hij & Hj & Hid').
        exists (S j), c'. split; [lia|]. done.
Qed.

Lemma within_bind {S A B} (R : S → S → Prop) (m : ST S A) (k : A → ST S B) :
  (∀ s1 s2 s3, R s1 s2 → R s2 s3 → R s1 s3) →
  within R m → (∀ a, within R (k a)) → within R (m ≫= k).
Proof.
  intros Htrans Hm Hk s. specialize (Hm s). unfold mbind, ST_bind.
  destruct (m s) as [s' [a| |]]; simpl in *; [|done..].
  eapply Htrans; [exact Hm|apply Hk].
Qed.

Lemma within_keeps {S A} (R : S → S → Prop) (m : ST S A) :
  (∀ s, R s s) → keeps (λ s, s) m → within R m.
Proof. intros Hrefl Hm s. by rewrite Hm. Qed.

Ltac settled_world :=
  intros w; unfold_ops; repeat case_match; simplify_eq/=;
  (split; [done|]);
  eauto using same_links_refl, same_links_app, same_links_updated_at.

Section Settled.

Context `{Env}.
Variable self : EchoStreamer.
Variable consumer : nat → signal.

Lemma create_step_0_settled : within settled (_create_step_0_checkpoint self).
Proof. unfold _create_step_0_checkpoint, make_msg. settled_world. Qed.

Lemma create_step_1_settled l : within settled (_create_step_1_checkpoint self l).
Proof. unfold _create_step_1_checkpoint, make_msg. settled_world. Qed.

Lemma set_latest_content_settled final_text :
  within settled (set_latest_content self final_text).
Proof. unfold set_latest_content. settled_world. Qed.

Lemma finalize_data_settled final_checkpoint n :
  within settled (_finalize_data self final_checkpoint n).
Proof. unfold _finalize_data. settled_world. Qed.

Lemma get_latest_checkpoint_keeps t : keeps (λ w, w) (get_latest_checkpoint t).
Proof. keeps_world. Qed.

Lemma dump_optional_keeps l : keeps (λ w, w) (dump_optional l).
Proof. keeps_world. Qed.

Let settled_st : St → St → Prop := λ s s', settled (world s) (world s').

Lemma settled_st_trans s1 s2 s3 :
  settled_st s1 s2 → settled_st s2 s3 → settled_st s1 s3.
Proof. apply settled_trans. Qed.

Lemma lift_settled {A} (m : ST World A) :
  within settled m → within settled_st (lift m).
Proof.
  intros Hm s. specialize (Hm (world s)). unfold settled_st, lift.
  by destruct (m _).
Qed.

Lemma lift_keeps_settled {A} (m : ST World A) :
  keeps (λ w, w) m → within settled_st (lift m).
Proof.
  intros Hm. apply lift_settled. intros w. rewrite Hm. apply settled_refl.
Qed.

Lemma keeps_world_settled {A} (m : ST St A) :
  keeps world m → within settled_st m.
Proof. intros Hm s. unfold settled_st. rewrite Hm. apply settled_refl. Qed.

Lemma sse_keeps_world {A} (pre : ST World A) (mk : A → nat → Frame) :
  keeps (λ w, w) pre →
  keeps world (a ← lift pre; i ← _next_id; mret (mk a i)).
Proof.
  intros Hpre s. specialize (Hpre (world s)).
  unfold mbind, ST_bind, lift, _next_id, mret, ST_ret.
  by destruct (pre (world s)) as [w' [a| |]].
Qed.

Lemma sse_metadata_keeps_world : keeps world (_sse_metadata self).
Proof. by intros s. Qed.

Lemma sse_token_keeps_world path chunk : keeps world (_sse_token path chunk).
Proof. by intros s. Qed.

Lemma sse_run_start_keeps_world : keeps world (_sse_run_start self).
Proof. apply (sse_keeps_world (get_run _) (λ r i, _)), get_run_keeps. Qed.

Lemma sse_run_end_keeps_world : keeps world (_sse_run_end self).
Proof. apply (sse_keeps_world (get_run _) (λ r i, _)), get_run_keeps. Qed.

Lemma sse_checkpoint_keeps_world l : keeps world (_sse_checkpoint l).
Proof.
  apply (sse_keeps_world (dump_checkpoint _) (λ r i, _)), dump_checkpoint_keeps.
Qed.

Lemma sse_checkpoint_end_keeps_world l : keeps world (_sse_checkpoint_end l).
Proof.
  apply (sse_keeps_world (dump_optional _) (λ r i, _)), dump_optional_keeps.
Qed.

Lemma sse_stream_end_keeps_world l : keeps world (_sse_stream_end self l).
Proof.
  apply (sse_keeps_world (dump_optional _) (λ r i, _)), dump_optional_keeps.
Qed.

Lemma initial_setup_events_keeps_world :
  keeps world (initial_setup_events self consumer).
Proof.
  unfold initial_setup_events.
  apply keeps_bind; [apply yield_keeps_world|]. intros ?.
  apply keeps_bind; [apply sse_metadata_keeps_world|]. intros ?.
  apply keeps_bind; [apply yield_keeps_world|]. intros ?.
  apply keeps_bind; [apply sse_run_start_keeps_world|]. intros ?.
  apply yield_keeps_world.
Qed.

Lemma stream_handler_keeps_world e :
  keeps world (stream_handler self consumer e).
Proof.
  destruct e as [|message|]; [by intros s| |by intros s].
  intros s. simpl. unfold mbind, ST_bind, gets, yield, modify. simpl.
  repeat case_match; simplify_eq/=; done.
Qed.

Lemma stream_tokens_settled path words remaining full :
  within settled_st (stream_tokens self consumer path words remaining full).
Proof.
  revert full. induction remaining as [|word remaining IH]; intros full.
  - intros s. apply settled_refl.
  - cbn [stream_tokens].
    apply within_bind; [apply settled_st_trans| |intros ?].
    { apply keeps_world_settled, sse_token_keeps_world. }
    apply within_bind; [apply settled_st_trans| |intros ?].
    { apply keeps_world_settled, yield_keeps_world. }
    apply within_bind; [apply settled_st_trans| |intros ?; apply IH].
    apply lift_settled, set_latest_content_settled.
Qed.

Lemma stream_the_tokens_settled step_1_ckpt :
  within settled_st (stream_the_tokens self consumer step_1_ckpt).
Proof.
  unfold stream_the_tokens.
  apply within_bind; [apply settled_st_trans| |intros ?].
  { apply lift_keeps_settled, dump_checkpoint_keeps. }
  apply within_bind; [apply settled_st_trans| |intros ?].
  { apply stream_tokens_settled. }
  intros s. apply settled_refl.
Qed.

Lemma finalize_run_and_checkpoint_settled words :
  within settled_st (finalize_run_and_checkpoint self consumer words).
Proof.
  unfold finalize_run_and_checkpoint.
  apply within_bind; [apply settled_st_trans| |intros final_checkpoint].
  { apply lift_keeps_settled, get_latest_checkpoint_keeps. }
  apply within_bind; [apply settled_st_trans| |intros ?].
  { apply lift_settled, finalize_data_settled. }
  apply within_bind; [apply settled_st_trans| |intros ?].
  { apply keeps_world_settled, sse_run_end_keeps_world. }
  apply within_bind; [apply settled_st_trans| |intros ?].
  { apply keeps_world_settled, yield_keeps_world. }
  apply within_bind; [apply settled_st_trans| |intros ?].
  { apply keeps_world_settled, sse_checkpoint_end_keeps_world. }
  apply within_bind; [apply settled_st_trans| |intros ?].
  { apply keeps_world_settled, yield_keeps_world. }
  apply within_bind; [apply settled_st_trans| |intros ?].
  { apply keeps_world_settled, sse_stream_end_keeps_world. }
  apply keeps_world_settled, yield_keeps_world.
Qed.

End Settled.

Lemma bind_yield `{Env} {A} consumer frame (k : () → ST St A) s :
  (yield consumer frame ≫= k) s =
  match consumer (length (emitted s)) with
  | Next => k tt (mkSt (world s) (event_id s) (emitted s ++ [frame]))
  | Throw e => (mkSt (world s) (event_id s) (emitted s ++ [frame]), Raise e)
  end.
Proof. unfold mbind, ST_bind, yield. by destruct (consumer _). Qed.

Lemma step_id_nonempty (run_id suffix : str) :
  suffix ≠ [] → run_id ++ suffix ≠ [].
Proof. intros Hs Happ. by apply app_eq_nil in Happ as [_ ?]. Qed.

Section Run_chains.

Context `{Env}.
Variable self : EchoStreamer.
Variable consumer : nat → signal.
Variables (w : World) (l : list loc) (c : Checkpoint).

(** The store has chains, and the streamer was constructed from the list
    [l] of its thread: its latest checkpoint is the head of [l]. *)
Hypothesis Hchained : chained w.
Hypothesis Hthread : threads_checkpoint_list w !! thread_id self = Some l.
Hypothesis Hhead : head l = Some (latest_checkpoint self).
Hypothesis Hlatest : ckpts w !! latest_checkpoint self = Some c.

Lemma latest_id_nonempty : checkpoint_id c ≠ [].
Proof.
  destruct (chain_in_head _ _ (Hchained _ _ Hthread)) as (c' & ck & Hh & Hc & Hid).
  congruence.
Qed.

Lemma step_0_parent :
  parent_checkpoint (step_0 self w c) = Some (thread_id self, checkpoint_id c).
Proof.
  pose proof latest_id_nonempty. simpl. by destruct (checkpoint_id c).
Qed.

Lemma run_effect_settled w1 w2 :
  run_effect (thread_id self) w w1 l → settled w1 w2 →
  run_effect (thread_id self) w w2 l.
Proof.
  intros Hrun [Ht Hl].
  assert (Hs0 : ∀ c0, step_0_linked (thread_id self) w w1 l c0 →
                      step_0_linked (thread_id self) w w2 l c0).
  { intros c0 (ck0 & latest & ck & Hc0 & Hhd & Hck & Hp).
    destruct (Hl c0 ck0 Hc0) as (ck0' & Hc0' & _ & Hp').
    exists ck0', latest, ck. split; [done|]. split; [done|]. split; [done|].
    congruence. }
  destruct Hrun as [Hsame|[(c0 & Htl & H0)|(c1 & c0 & Htl & H0 & H1)]].
  - left. by rewrite Ht.
  - right. left. exists c0. rewrite Ht. auto.
  - right. right. exists c1, c0. rewrite Ht. split; [done|]. split; [auto|].
    destruct H1 as (ck0 & ck1 & Hc0 & Hc1 & Hp).
    destruct (Hl c0 ck0 Hc0) as (ck0' & Hc0' & Hid0 & _).
    destruct (Hl c1 ck1 Hc1) as (ck1' & Hc1' & _ & Hp1).
    exists ck0', ck1'. split; [done|]. split; [done|]. congruence.
Qed.

Lemma after_settled w' :
  settled w w' → chained w' ∧ run_effect (thread_id self) w w' l.
Proof.
  intros Hs. split; [by eapply chained_settled|].
  left. destruct Hs as [-> _]. done.
Qed.

Lemma after_step_0 ms :
  chained (world_step_0 self w c ms l) ∧
  run_effect (thread_id self) w (world_step_0 self w c ms l) l.
Proof.
  assert (Hl : chain_in (ckpts w ++ [step_0 self w c]) l).
  { eapply chain_in_same_links; [apply same_links_app|by eapply Hchained]. }
  split.
  - intros t l'. unfold world_step_0. simpl.
    destruct (decide (t = thread_id self)) as [->|Hne].
    + rewrite lookup_insert_eq. intros [= <-].
      eapply chain_step; [apply lookup_snoc|apply step_0_parent| | |done].
      * by apply step_id_nonempty.
      * exists (latest_checkpoint self), c.
        split; [by apply head_Some_elem_of|].
        split; [by apply lookup_app_l_Some|done].
    + rewrite lookup_insert_ne by done. intros Ht.
      eapply chain_in_same_links; [apply same_links_app|by eapply Hchained].
  - right. left. exists (length (ckpts w)). unfold world_step_0. simpl.
    rewrite lookup_insert_eq. split; [done|].
    exists (step_0 self w c), (latest_checkpoint self), c.
    split; [apply lookup_snoc|]. split; [done|]. split; [done|].
    apply step_0_parent.
Qed.

Lemma after_step_1 ms content :
  chained (world_streaming self w c ms l content) ∧
  run_effect (thread_id self) w (world_streaming self w c ms l content) l.
Proof.
  assert (Hl : chain_in (ckpts w ++ [step_0 self w c; step_1 self w None]) l).
  { eapply chain_in_same_links; [apply same_links_app|by eapply Hchained]. }
  assert (H0 : chain_in (ckpts w ++ [step_0 self w c; step_1 self w None])
                 (length (ckpts w) :: l)).
  { eapply chain_step; [apply lookup_snoc2_0|apply step_0_parent| | |done].
    - by apply step_id_nonempty.
    - exists (latest_checkpoint self), c.
      split; [by apply head_Some_elem_of|].
      split; [by apply lookup_app_l_Some|done]. }
  split.
  - intros t l'. unfold world_streaming. simpl.
    destruct (decide (t = thread_id self)) as [->|Hne].
    + rewrite lookup_insert_eq. intros [= <-].
      eapply chain_step; [apply lookup_snoc2_1|reflexivity| | |done].
      * by apply step_id_nonempty.
      * exists (length (ckpts w)), (step_0 self w c).
        split; [by left|]. split; [apply lookup_snoc2_0|done].
    + rewrite lookup_insert_ne by done. intros Ht.
      eapply chain_in_same_links; [apply same_links_app|by eapply Hchained].
  - right. right. exists (S (length (ckpts w))), (length (ckpts w)).
    unfold world_streaming. simpl. rewrite lookup_insert_eq. split; [done|].
    split.
    + exists (step_0 self w c), (latest_checkpoint self), c.
      split; [apply lookup_snoc2_0|]. split; [done|]. split; [done|].
      apply step_0_parent.
    + exists (step_0 self w c), (step_1 self w None).
      split; [apply lookup_snoc2_0|]. split; [apply lookup_snoc2_1|done].
Qed.

End Run_chains.

Section Run_chains_2.

Context `{Env}.
Variable self : EchoStreamer.
Variable consumer : nat → signal.

Let settled_st : St → St → Prop := λ s s', settled (world s) (world s').

(** What follows a computation that settles keeps it settled. *)
Lemma bind_settled {A B} (m : ST St A) (k : A → ST St B) s :
  (∀ a, within settled_st (k a)) →
  settled (world (m s).1) (world ((m ≫= k) s).1).
Proof.
  intros Hk. unfold mbind, ST_bind.
  destruct (m s) as [s' [a| |]]; simpl; [apply Hk|apply settled_refl..].
Qed.

Lemma bind_cases {S A B} (m : ST S A) (k : A → ST S B) s :
  (m ≫= k) s =
  match m s with
  | (s', Ok a) => k a s'
  | (s', Raise e) => (s', Raise e)
  | (s', Stuck) => (s', Stuck)
  end.
Proof. reflexivity. Qed.

Lemma stream_response_world s :
  world (stream_response self consumer s).1 = world (stream_body self consumer s).1.
Proof.
  unfold stream_response, try_except.
  destruct (stream_body self consumer s) as [s' [a|e|]]; simpl; [done| |done].
  apply stream_handler_keeps_world.
Qed.

(** The stores in which the registration of the two checkpoints can
    end. *)
Lemma create_and_send_checkpoints_cases s c l :
  ckpts (world s) !! latest_checkpoint self = Some c →
  threads_checkpoint_list (world s) !! thread_id self = Some l →
  let w' := world (create_and_send_checkpoints self consumer s).1 in
  settled (world s) w' ∨
  ∃ ms, w' = world_step_0 self (world s) c ms l ∨
        w' = world_streaming self (world s) c ms l [].
Proof.
  intros Hc Hl w'. subst w'. destruct s as [w e fs]. simpl in *.
  destruct (mlists w !! values_messages c) as [ms|] eqn:Hms.
  - right. exists ms. unfold create_and_send_checkpoints.
    erewrite bind_Ok by (apply lift_eq; simpl; by apply create_step_0_eq).
    erewrite bind_Ok by (apply lift_eq; unfold_ops; by rewrite Hl).
    erewrite bind_Ok; cycle 1.
    { unfold_gen. rewrite lookup_snoc. unfold_gen. rewrite lookup_snoc.
      reflexivity. }
    rewrite bind_yield. cbn [emitted world event_id].
    destruct (consumer (length fs)); [|by left].
    erewrite bind_Ok; cycle 1.
    { apply lift_eq. simpl. by apply create_step_1_eq. }
    erewrite bind_Ok; cycle 1.
    { apply lift_eq. unfold_ops. rewrite lookup_insert_eq. unfold_ops.
      rewrite insert_insert_eq. reflexivity. }
    erewrite bind_Ok; cycle 1.
    { unfold_gen. rewrite lookup_snoc2_1. unfold_gen. rewrite lookup_snoc2_1.
      reflexivity. }
    rewrite bind_yield. cbn [emitted world event_id].
    right. by destruct (consumer _).
  - left. unfold create_and_send_checkpoints.
    erewrite bind_Stuck; [|apply lift_eq].
    + simpl. apply (create_step_0_settled self w).
    + unfold _create_step_0_checkpoint, make_msg. unfold_ops.
      rewrite Hc. unfold_ops. rewrite Hms. reflexivity.
Qed.

Lemma create_and_send_checkpoints_no_thread s :
  threads_checkpoint_list (world s) !! thread_id self = None →
  settled (world s) (world (create_and_send_checkpoints self consumer s).1).
Proof.
  intros Hnone. unfold create_and_send_checkpoints.
  pose proof (create_step_0_settled self (world s)) as Hs0.
  unfold mbind at 1, ST_bind at 1, lift at 1.
  destruct (_create_step_0_checkpoint self (world s)) as [w1 [c0| |]];
    simpl in *; [|done..].
  erewrite bind_Raise; cycle 1.
  { apply lift_eq. unfold_ops. destruct Hs0 as [-> _]. by rewrite Hnone. }
  exact Hs0.
Qed.

Lemma rest_settled step_1_ckpt :
  within settled_st
    (words ← stream_the_tokens self consumer step_1_ckpt;
     finalize_run_and_checkpoint self consumer words).
Proof.
  apply within_bind; [intros ???; apply settled_trans| |intros words].
  - apply stream_the_tokens_settled.
  - apply finalize_run_and_checkpoint_settled.
Qed.

(** The [try] block as the setup, the two checkpoints, and the rest. *)
Lemma stream_body_split s :
  stream_body self consumer s =
  (initial_setup_events self consumer ≫= λ _,
   create_and_send_checkpoints self consumer ≫= λ step_1_ckpt,
   words ← stream_the_tokens self consumer step_1_ckpt;
   finalize_run_and_checkpoint self consumer words) s.
Proof.
  unfold stream_body, stream_until_finalization, mbind, ST_bind.
  destruct (initial_setup_events self consumer s) as [s1 [[]| |]]; [|done..].
  destruct (create_and_send_checkpoints self consumer s1) as [s2 [a| |]];
    [|done..].
  by destruct (stream_the_tokens self consumer a s2) as [s3 [words| |]].
Qed.

(** Whatever the consumer does, a run over a store with chains leaves a
    store with chains, and its thread with one of the three lists of
    [run_effect]. *)
Lemma run_stream_chains w l c :
  chained w →
  threads_checkpoint_list w !! thread_id self = Some l →
  head l = Some (latest_checkpoint self) →
  ckpts w !! latest_checkpoint self = Some c →
  let w' := world (run_stream self consumer w).1 in
  chained w' ∧ run_effect (thread_id self) w w' l.
Proof.
  intros Hchained Hl Hhead Hc w'. subst w'.
  unfold run_stream. rewrite stream_response_world, stream_body_split.
  pose proof (initial_setup_events_keeps_world self consumer (mkSt w 1 [])) as H1.
  rewrite bind_cases.
  destruct (initial_setup_events self consumer (mkSt w 1 [])) as [s1 [[]| |]];
    simpl in H1; cbn [fst];
    [|rewrite H1; by apply after_settled, settled_refl..].
  pose proof (bind_settled (create_and_send_checkpoints self consumer) _ s1
                rest_settled) as Hrest.
  rewrite <- H1 in Hc, Hl.
  destruct (create_and_send_checkpoints_cases s1 c l Hc Hl)
    as [Hs|(ms & [Hw|Hw])]; rewrite H1 in *.
  - apply after_settled; [done..|]. by eapply settled_trans.
  - rewrite Hw in Hrest.
    destruct (after_step_0 self w l c Hchained Hl Hhead Hc ms) as [Hch Hrun].
    split; [by eapply chained_settled|by eapply run_effect_settled].
  - rewrite Hw in Hrest.
    destruct (after_step_1 self w l c Hchained Hl Hhead Hc ms []) as [Hch Hrun].
    split; [by eapply chained_settled|by eapply run_effect_settled].
Qed.

End Run_chains_2.

Lemma str_of_uuid_nonempty u : str_of_uuid u ≠ [].
Proof.
  unfold str_of_uuid. intros Happ.
  apply app_eq_nil in Happ as [_ Happ]. discriminate.
Qed.

Lemma chained_empty : chained empty_world.
Proof.
  intros t l Hl. unfold empty_world in Hl.
  cbn [threads_checkpoint_list] in Hl. by rewrite lookup_empty in Hl.
Qed.

Lemma create_thread_eq `{Env} payload w :
  create_thread payload w =
  (mkWorld (<[new_thread_id w := new_thread payload w]> (threads w))
           (<[new_thread_id w := [length (ckpts w)]]> (threads_checkpoint_list w))
           (db_runs w) (ckpts w ++ [genesis w]) (mlists w ++ [[]]) (runs w)
           (2 + clock_reads w) (2 + uuid_draws w),
   Ok (new_thread payload w)).
Proof. reflexivity. Qed.

Lemma create_thread_chained `{Env} payload w :
  chained w → chained (create_thread payload w).1.
Proof.
  intros Hw t l. rewrite create_thread_eq.
  cbn [fst threads_checkpoint_list ckpts].
  destruct (decide (t = new_thread_id w)) as [->|Hne].
  - rewrite lookup_insert_eq. intros [= <-].
    eapply chain_genesis; [apply lookup_snoc|done|].
    apply str_of_uuid_nonempty.
  - rewrite lookup_insert_ne by done. intros Hl.
    eapply chain_in_same_links; [apply same_links_app|by eapply Hw].
Qed.

Section Stream_run_chains.

Context `{Env}.
Variables (thread_id user_text : str) (metadata : Json).
Variable consumer : nat → signal.
Variable w : World.

Lemma stream_run_unknown_thread :
  threads_checkpoint_list w !! thread_id = None →
  stream_run thread_id user_text metadata consumer w = (w, Ok Http404).
Proof. intros Hnone. unfold stream_run. unfold_ops. by rewrite Hnone. Qed.

Lemma stream_run_eq latest rest :
  threads_checkpoint_list w !! thread_id = Some (latest :: rest) →
  stream_run thread_id user_text metadata consumer w =
  consume (streamer_of thread_id user_text w latest) consumer
          (world_run thread_id metadata w).
Proof.
  intros Hl. unfold stream_run, add_run. unfold_ops. rewrite Hl. unfold_ops.
  rewrite lookup_snoc. reflexivity.
Qed.

Lemma stream_run_chains l :
  chained w →
  threads_checkpoint_list w !! thread_id = Some l →
  let w' := (stream_run thread_id user_text metadata consumer w).1 in
  chained w' ∧ run_effect thread_id w w' l.
Proof.
  intros Hw Hl w'. subst w'.
  destruct (chain_in_head _ _ (Hw _ _ Hl)) as (latest & c & Hhead & Hc & _).
  destruct l as [|c0 rest]; simplify_eq/=.
  rewrite (stream_run_eq latest rest) by done. unfold consume.
  set (self := streamer_of thread_id user_text w latest).
  set (w1 := world_run thread_id metadata w).
  assert (Hw1 : chained w1).
  { eapply chained_settled; [exact Hw|]. split; [done|apply same_links_refl]. }
  destruct (run_stream_chains self consumer w1 (latest :: rest) c Hw1 Hl
              eq_refl Hc) as [Hch Hrun].
  destruct (run_stream self consumer w1) as [s r]. cbn [fst snd] in *.
  split; [done|]. exact Hrun.
Qed.

End Stream_run_chains.

Lemma reachable_chained `{Env} w : reachable w → chained w.
Proof.
  induction 1 as [|w payload _ IH|w thread_id user_text metadata consumer _ IH].
  - apply chained_empty.
  - by apply create_thread_chained.
  - destruct (threads_checkpoint_list w !! thread_id) as [l|] eqn:Hl.
    + by apply (stream_run_chains thread_id user_text metadata consumer w l).
    + by rewrite stream_run_unknown_thread.
Qed.

Lemma chained_chains w : chained w → chains w.
Proof. intros Hw t l Hl. apply chain_in_chain. by eapply Hw. Qed.

(** Claim C2. In every state the process reaches, the list of checkpoints
    of every thread is a chain: exactly one checkpoint has no parent, it
    is the oldest (the genesis made when the thread was created), and the
    parent id of any other checkpoint is the id of a checkpoint
    registered before it. Every streaming run, however its consumer
    reacts, leaves chains, and adds to the list of its thread nothing, or
    a step-0 checkpoint whose parent is the checkpoint that was latest,
    or that and a step-1 checkpoint whose parent is the step-0
    checkpoint. *)
Theorem checkpoint_chain `{Env} w :
  reachable w →
  chains w ∧
  ∀ thread_id user_text metadata consumer l,
    threads_checkpoint_list w !! thread_id = Some l →
    let w' := (stream_run thread_id user_text metadata consumer w).1 in
    chains w' ∧ run_effect thread_id w w' l.
Proof.
  intros Hreach. pose proof (reachable_chained w Hreach) as Hw.
  split; [by apply chained_chains|].
  intros thread_id user_text metadata consumer l Hl w'.
  destruct (stream_run_chains thread_id user_text metadata consumer w l Hw Hl)
    as [Hch Hrun].
  split; [by apply chained_chains|exact Hrun].
Qed.

Lemma checkpoint_chain_witness :
  reachable (H:=example_env) example_world ∧
  chains example_world ∧
  let w' := (stream_run (H:=example_env) example_thread (py "hi") (JObj [])
               patient example_world).1 in
  chains w' ∧ run_effect example_thread example_world w' [0].
Proof.
  assert (Hreach : reachable (H:=example_env) example_world)
    by apply (reach_create_thread empty_world [] reach_empty).
  assert (Hl : threads_checkpoint_list example_world !! example_thread = Some [0])
    by (vm_compute; reflexivity).
  destruct (checkpoint_chain (H:=example_env) example_world Hreach)
    as [Hchains Hrun].
  split; [exact Hreach|]. split; [exact Hchains|].
  exact (Hrun example_thread (py "hi") (JObj []) patient [0] Hl).
Defined.

(** The chain of the example thread after one run: two checkpoints on top
    of the genesis, each with the id of the one below as parent id. *)
Example chain_after_one_run :
  let w' := (stream_run (H:=example_env) example_thread (py "hi") (JObj [])
               patient example_world).1 in
  threads_checkpoint_list w' !! example_thread = Some [2; 1; 0] ∧
  (map (λ ck, (checkpoint_id ck, snd <$> parent_checkpoint ck)) (ckpts w')) =
    [ (str_of_uuid 1, None);
      (str_of_uuid 2 ++ py ":step_0", Some (str_of_uuid 1));
      (str_of_uuid 2 ++ py ":step_1", Some (str_of_uuid 2 ++ py ":step_0")) ].
Proof. vm_compute. done. Qed.

(** ** Stores whose references are all there *)

Lemma wired_grow w ck' ms' :
  wired w → values_messages ck' ≤ length (mlists w) →
  Forall (λ ck, values_messages ck < length (mlists w ++ [ms']))
         (ckpts w ++ [ck']).
Proof.
  intros Hw Hck. rewrite length_app, Forall_app. simpl. split.
  - eapply Forall_impl; [exact Hw|]. intros ck Hlt. simpl in Hlt. lia.
  - constructor; [lia|constructor].
Qed.

Ltac wired_world :=
  intros w Hw; unfold wired in *; unfold_ops; repeat case_match;
  simplify_eq/=; rewrite ?length_insert, ?length_app; simpl;
  try exact Hw;
  repeat match goal with
  | |- Forall _ (_ ++ _) => apply Forall_app; split
  | |- Forall _ (<[_:=_]> _) => apply Forall_insert
  | |- Forall _ [_] => constructor; [|constructor]
  | H : Forall _ ?l |- Forall _ ?l =>
      eapply Forall_impl; [exact H|]; intros ? ?; simpl in *; lia
  | H : ?l !! _ = Some ?ck, Hw : Forall _ ?l |- _ < _ =>
      let Hi := fresh in
      pose proof (Forall_lookup_1 _ _ _ _ Hw H) as Hi; simpl in *; lia
  | |- _ < _ => simpl; lia
  end.

Section Wired.

Context `{Env}.
Variable self : EchoStreamer.
Variable consumer : nat → signal.

Let grows : World → World → Prop := λ w w', wired w → wired w'.
Let grows_st : St → St → Prop := λ s s', grows (world s) (world s').

Lemma grows_trans w1 w2 w3 : grows w1 w2 → grows w2 w3 → grows w1 w3.
Proof. unfold grows. auto. Qed.

Lemma create_step_0_wired : within grows (_create_step_0_checkpoint self).
Proof. unfold _create_step_0_checkpoint, make_msg. wired_world. Qed.

Lemma create_step_1_wired l : within grows (_create_step_1_checkpoint self l).
Proof. unfold _create_step_1_checkpoint, make_msg. wired_world. Qed.

Lemma add_checkpoint_wired t l : within grows (add_checkpoint t l).
Proof. wired_world. Qed.

Lemma set_latest_content_wired final_text :
  within grows (set_latest_content self final_text).
Proof. unfold set_latest_content. wired_world. Qed.

Lemma finalize_data_wired final_checkpoint n :
  within grows (_finalize_data self final_checkpoint n).
Proof. unfold _finalize_data. wired_world. Qed.

End Wired.

(** ** Relations the whole generator respects

    A reflexive and transitive relation on stores that the five writing
    operations of the streamer respect (the registration of a checkpoint
    being for the streamer's own thread) is respected by the generator,
    whatever the consumer does. *)

Section Respects.

Context `{Env}.
Variable self : EchoStreamer.
Variable consumer : nat → signal.
Variable R : World → World → Prop.
Hypothesis R_refl : ∀ w, R w w.
Hypothesis R_trans : ∀ w1 w2 w3, R w1 w2 → R w2 w3 → R w1 w3.
Hypothesis R_step_0 : within R (_create_step_0_checkpoint self).
Hypothesis R_step_1 : ∀ l, within R (_create_step_1_checkpoint self l).
Hypothesis R_add : ∀ l, within R (add_checkpoint (thread_id self) l).
Hypothesis R_content : ∀ final_text, within R (set_latest_content self final_text).
Hypothesis R_finalize : ∀ c n, within R (_finalize_data self c n).

Let R_st : St → St → Prop := λ s s', R (world s) (world s').

Lemma R_st_trans s1 s2 s3 : R_st s1 s2 → R_st s2 s3 → R_st s1 s3.
Proof. apply R_trans. Qed.

Lemma respects_lift {A} (m : ST World A) : within R m → within R_st (lift m).
Proof.
  intros Hm s. specialize (Hm (world s)). unfold R_st, lift. by destruct (m _).
Qed.

Lemma respects_keeps {A} (m : ST St A) : keeps world m → within R_st m.
Proof. intros Hm s. unfold R_st. rewrite Hm. apply R_refl. Qed.

Lemma respects_send {A} (build : ST St Frame) (rest : ST St A) :
  keeps world build → within R_st rest →
  within R_st (frame ← build; yield consumer frame;; rest).
Proof.
  intros Hbuild Hrest.
  apply within_bind; [apply R_st_trans|by apply respects_keeps|intros frame].
  apply within_bind; [apply R_st_trans| |by intros ?].
  apply respects_keeps, yield_keeps_world.
Qed.

Lemma respects_ret {A} (a : A) : within R_st (mret a).
Proof. intros s. apply R_refl. Qed.

Lemma stream_tokens_respects path words remaining full :
  within R_st (stream_tokens self consumer path words remaining full).
Proof.
  revert full. induction remaining as [|word remaining IH]; intros full.
  - apply respects_ret.
  - cbn [stream_tokens]. apply respects_send; [apply sse_token_keeps_world|].
    apply within_bind; [apply R_st_trans| |intros ?; apply IH].
    apply respects_lift, R_content.
Qed.

Lemma stream_body_respects : within R_st (stream_body self consumer).
Proof.
  unfold stream_body, stream_until_finalization.
  apply within_bind; [apply R_st_trans| |intros words].
  - apply within_bind; [apply R_st_trans| |intros ?].
    { apply respects_keeps, initial_setup_events_keeps_world. }
    apply within_bind; [apply R_st_trans| |intros step_1_ckpt].
    + unfold create_and_send_checkpoints.
      apply within_bind; [apply R_st_trans| |intros step_0_ckpt].
      { apply respects_lift, R_step_0. }
      apply within_bind; [apply R_st_trans| |intros ?].
      { apply respects_lift, R_add. }
      apply respects_send; [apply sse_checkpoint_keeps_world|].
      apply within_bind; [apply R_st_trans| |intros step_1_ckpt].
      { apply respects_lift, R_step_1. }
      apply within_bind; [apply R_st_trans| |intros ?].
      { apply respects_lift, R_add. }
      apply respects_send; [apply sse_checkpoint_keeps_world|].
      apply respects_ret.
    + unfold stream_the_tokens.
      apply within_bind; [apply R_st_trans| |intros ?].
      { apply respects_lift. intros w. rewrite dump_checkpoint_keeps.
        apply R_refl. }
      apply within_bind; [apply R_st_trans| |intros ?].
      { apply stream_tokens_respects. }
      apply respects_ret.
  - unfold finalize_run_and_checkpoint.
    apply within_bind; [apply R_st_trans| |intros final_checkpoint].
    { apply respects_lift. intros w. rewrite get_latest_checkpoint_keeps.
      apply R_refl. }
    apply within_bind; [apply R_st_trans| |intros ?].
    { apply respects_lift, R_finalize. }
    apply respects_send; [apply sse_run_end_keeps_world|].
    apply respects_send; [apply sse_checkpoint_end_keeps_world|].
    apply within_bind; [apply R_st_trans| |intros ?].
    { apply respects_keeps, sse_stream_end_keeps_world. }
    apply respects_keeps, yield_keeps_world.
Qed.

Lemma run_stream_respects w : R w (world (run_stream self consumer w).1).
Proof.
  unfold run_stream. rewrite stream_response_world.
  apply (stream_body_respects (mkSt w 1 [])).
Qed.

End Respects.

Lemma run_stream_wired `{Env} self consumer w :
  wired w → wired (world (run_stream self consumer w).1).
Proof.
  apply (run_stream_respects self consumer (λ w w', wired w → wired w')).
  - auto.
  - auto.
  - apply create_step_0_wired.
  - apply create_step_1_wired.
  - apply add_checkpoint_wired.
  - apply set_latest_content_wired.
  - apply finalize_data_wired.
Qed.

Lemma reachable_wired `{Env} w : reachable w → wired w.
Proof.
  induction 1 as [|w payload _ IH|w thread_id user_text metadata consumer Hr IH].
  - constructor.
  - rewrite create_thread_eq. apply (wired_grow w (genesis w) []); [done|].
    simpl. lia.
  - pose proof (reachable_chained w Hr) as Hch.
    destruct (threads_checkpoint_list w !! thread_id) as [l|] eqn:Hl.
    + destruct (chain_in_head _ _ (Hch _ _ Hl)) as (latest & c & Hh & _).
      destruct l as [|c0 rest]; simplify_eq/=.
      rewrite (stream_run_eq _ _ _ _ _ latest rest) by done. unfold consume.
      pose proof (run_stream_wired (streamer_of thread_id user_text w latest)
                    consumer (world_run thread_id metadata w) IH) as Hw.
      by destruct (run_stream _ _ _).
    + by rewrite stream_run_unknown_thread.
Qed.

(** ** Streaming runs over reachable stores *)

Lemma last_frames_of_run `{Env} self w c ms r :
  last (frames_of_run self w c ms r) =
  Some (sse (py "stream_end")
            (PStreamEnd (run_id self) (Some (final_checkpoint_json self w ms)))
            (Some (7 + length (chunks_of (words_of (text self)))))).
Proof.
  unfold frames_of_run, frames_after_tokens.
  rewrite !app_assoc.
  match goal with
  | |- last (?l ++ [?a; ?b; ?c]) = _ =>
      change (l ++ [a; b; c]) with (l ++ [a; b] ++ [c]); rewrite app_assoc
  end.
  rewrite last_snoc. reflexivity.
Qed.

Lemma events_of_token_frames path i chunks :
  map frame_event (token_frames path i chunks) =
  replicate (length chunks) (Some (py "data")).
Proof.
  revert i. induction chunks as [|chunk chunks IH]; intros i; [done|].
  simpl. by rewrite IH.
Qed.

Section Known_thread.

Context `{Env}.
Variables (w : World) (thread_id user_text : str) (metadata : Json).
Variable l : list loc.

Hypothesis Hreach : reachable w.
Hypothesis Hthread : threads_checkpoint_list w !! thread_id = Some l.

(** In a reachable store the latest checkpoint of a thread and its
    messages are there. *)
Lemma latest_there :
  ∃ latest rest c ms,
    l = latest :: rest ∧ ckpts w !! latest = Some c ∧
    mlists w !! values_messages c = Some ms.
Proof.
  pose proof (reachable_chained w Hreach) as Hch.
  pose proof (reachable_wired w Hreach) as Hw.
  destruct (chain_in_head _ _ (Hch _ _ Hthread)) as (latest & c & Hh & Hc & _).
  destruct l as [|c0 rest]; simplify_eq/=.
  pose proof (Forall_lookup_1 _ _ _ _ Hw Hc) as Hlt. simpl in Hlt.
  apply lookup_lt_is_Some in Hlt as [ms Hms].
  by exists latest, rest, c, ms.
Qed.

(** In every state the process reaches, a streaming run over a known
    thread whose consumer takes every frame runs to its end: the response
    ends normally with the [stream_end] frame that carries the final
    checkpoint, the token chunks are those of the stripped text, the run
    is "success", and the two new checkpoints head the thread's list. *)
Theorem stream_run_succeeds :
  let result := stream_run thread_id user_text metadata patient w in
  ∃ frames final_checkpoint,
    result.2 = Ok (Streaming frames (Ok tt)) ∧
    last frames =
      Some (sse (py "stream_end")
                (PStreamEnd (str_of_uuid (uuid4_at (uuid_draws w)))
                            (Some final_checkpoint))
                (Some (length frames - 1))) ∧
    length frames = 8 + length (token_chunks frames) ∧
    token_chunks frames = chunks_of (words_of (strip user_text)) ∧
    status_of result.1 (length (runs w)) = Some (py "success") ∧
    threads_checkpoint_list result.1 !! thread_id =
      Some (S (length (ckpts w)) :: length (ckpts w) :: l).
Proof.
  intros result. subst result.
  destruct latest_there as (latest & rest & c & ms & -> & Hc & Hms).
  rewrite (stream_run_eq _ _ _ _ _ latest rest) by done. unfold consume.
  set (self := streamer_of thread_id user_text w latest).
  set (w1 := world_run thread_id metadata w).
  rewrite (run_stream_patient self w1 c ms (latest :: rest)
             (running_run thread_id metadata w)); [|done..|apply lookup_snoc].
  cbn [fst snd world emitted].
  exists (frames_of_run self w1 c ms (running_run thread_id metadata w)),
         (final_checkpoint_json self w1 ms).
  rewrite token_chunks_frames_of_run.
  assert (Hlen : length (frames_of_run self w1 c ms
                           (running_run thread_id metadata w)) =
                 8 + length (chunks_of (words_of (text self)))).
  { unfold frames_of_run. rewrite !length_app. simpl.
    assert (Ht : ∀ p i cs, length (token_frames p i cs) = length cs).
    { intros p i cs. revert i. induction cs; intros i; simpl; auto. }
    rewrite Ht. lia. }
  split; [done|]. split.
  { rewrite last_frames_of_run, Hlen. reflexivity. }
  split; [done|]. split; [done|]. split.
  - unfold status_of, world_final. simpl.
    rewrite list_lookup_insert_eq by (rewrite length_app; simpl; lia). done.
  - unfold world_final. simpl. by rewrite lookup_insert_eq.
Qed.

End Known_thread.

Lemma stream_run_succeeds_witness :
  let result :=
    stream_run (H:=example_env) example_thread (py " hello world ") (JObj [])
      patient example_world in
  ∃ frames,
    result.2 = Ok (Streaming frames (Ok tt)) ∧
    token_chunks frames = [py "hello "; py "world"] ∧
    status_of result.1 0 = Some (py "success") ∧
    threads_checkpoint_list result.1 !! example_thread = Some [2; 1; 0].
Proof.
  intros result.
  destruct (stream_run_succeeds (H:=example_env) example_world example_thread
              (py " hello world ") (JObj []) [0]
              (reach_create_thread empty_world [] reach_empty))
    as (frames & final & Hresult & _ & _ & Hchunks & Hstatus & Hlist);
    [vm_compute; reflexivity|].
  exists frames. split; [exact Hresult|]. split; [|split].
  - etrans; [exact Hchunks|]. vm_compute. reflexivity.
  - exact Hstatus.
  - exact Hlist.
Defined.

Lemma length_token_frames path i chunks :
  length (token_frames path i chunks) = length chunks.
Proof. revert i. induction chunks; intros i; simpl; auto. Qed.

Lemma strip_whitespace s : forallb isspace s = true → strip s = [].
Proof.
  intros Hs. unfold strip.
  assert (Hl : ∀ t, forallb isspace t = true → lstrip t = []).
  { induction t as [|c t IH]; simpl; [done|].
    intros [-> Ht]%andb_prop. auto. }
  by rewrite (Hl s Hs).
Qed.

Section Known_thread_2.

Context `{Env}.
Variables (w : World) (thread_id user_text : str) (metadata : Json).
Variable l : list loc.

Hypothesis Hreach : reachable w.
Hypothesis Hthread : threads_checkpoint_list w !! thread_id = Some l.

(** The run of [stream_run] over a known thread of a reachable store,
    its consumer taking every frame, in full. *)
Lemma stream_run_patient_eq :
  ∃ latest rest c ms,
    l = latest :: rest ∧ ckpts w !! latest = Some c ∧
    mlists w !! values_messages c = Some ms ∧
    let self := streamer_of thread_id user_text w latest in
    let w1 := world_run thread_id metadata w in
    let r := running_run thread_id metadata w in
    stream_run thread_id user_text metadata patient w =
    (world_final self w1 c ms l r, Ok (Streaming (frames_of_run self w1 c ms r) (Ok tt))).
Proof.
  destruct (latest_there w thread_id l Hreach Hthread)
    as (latest & rest & c & ms & -> & Hc & Hms).
  exists latest, rest, c, ms. do 3 (split; [done|]). intros self w1 r.
  rewrite (stream_run_eq _ _ _ _ _ latest rest) by done. unfold consume.
  by rewrite (run_stream_patient self w1 c ms (latest :: rest) r);
    [|done..|apply lookup_snoc].
Qed.

(** The events of the stream, in order: the keepalive, [metadata], the
    run, the two checkpoints, one [data] frame per word, the finished
    run, the finished checkpoint and [stream_end]; the first run frame
    shows the run "running" and the last one "success". *)
Theorem stream_run_events :
  let frames :=
    response_frames (stream_run thread_id user_text metadata patient w).2 in
  let n := length (words_of (strip user_text)) in
  map frame_event frames =
    [None; Some (py "metadata"); Some (py "data"); Some (py "data");
     Some (py "data")] ++
    replicate n (Some (py "data")) ++
    [Some (py "data"); Some (py "data"); Some (py "stream_end")] ∧
  (∃ r, frames !! 2 =
          Some (sse (py "data")
                  (PPatch [mkPatchOp (py "add") (py "/runs/-") (VRun r)]) (Some 2)) ∧
        run_status r = py "running") ∧
  (∃ r, frames !! (5 + n) =
          Some (sse (py "data")
                  (PPatch [mkPatchOp (py "replace") (py "/runs/0") (VRun r)])
                  (Some (5 + n))) ∧
        run_status r = py "success").
Proof.
  intros frames n. subst frames n.
  destruct stream_run_patient_eq as (latest & rest & c & ms & _ & _ & _ & Heq).
  cbn zeta in Heq. rewrite Heq. cbn [snd response_frames].
  set (self := streamer_of thread_id user_text w latest).
  unfold frames_of_run. rewrite !map_app, events_of_token_frames.
  rewrite chunks_of_length. split; [done|]. split.
  - eexists. split; [reflexivity|done].
  - eexists. split.
    + simpl. rewrite lookup_app_r;
        rewrite length_token_frames, chunks_of_length; [|done].
      rewrite Nat.sub_diag. reflexivity.
    + reflexivity.
Qed.

(** [stream_run] strips the text it extracted before it streams: a text
    of whitespace only, like the empty text, is answered with the one
    placeholder chunk, and the user message holds the empty text. *)
Theorem stream_run_blank_text :
  forallb isspace user_text = true →
  let result := stream_run thread_id user_text metadata patient w in
  token_chunks (response_frames result.2) = [PLACEHOLDER] ∧
  ∃ ms user assistant,
    latest_messages result.1 thread_id = Some (ms ++ [user; assistant]) ∧
    msg_content user = [] ∧ msg_content assistant = PLACEHOLDER.
Proof.
  intros Hblank result. subst result.
  destruct stream_run_patient_eq as (latest & rest & c & ms & -> & _ & _ & Heq).
  cbn zeta in Heq. rewrite Heq. cbn [fst snd response_frames].
  rewrite token_chunks_frames_of_run. simpl.
  rewrite strip_whitespace by done. split; [reflexivity|].
  eexists ms, _, _. split.
  - unfold latest_messages, world_final. simpl.
    rewrite lookup_insert_eq. simpl. rewrite lookup_snoc2_1. simpl.
    rewrite lookup_snoc2_1. by rewrite <- app_assoc.
  - simpl. split; [by apply strip_whitespace|].
    unfold final_content. simpl. by rewrite strip_whitespace.
Qed.

(** The run dict the streamer finalizes is the one [add_run] stored: the
    id sent in the [metadata] frame finds, in [db.runs], the run with
    status "success". *)
Theorem stream_run_stored_run :
  let result := stream_run thread_id user_text metadata patient w in
  ∃ run_id run_data r,
    response_frames result.2 !! 1 =
      Some (sse (py "metadata") (PMetadata run_id thread_id) (Some 1)) ∧
    db_runs result.1 !! run_id = Some run_data ∧
    runs result.1 !! run_data = Some r ∧
    run_run_id r = run_id ∧ run_thread_id r = thread_id ∧
    run_status r = py "success" ∧ run_metadata r = metadata.
Proof.
  intros result. subst result.
  destruct stream_run_patient_eq as (latest & rest & c & ms & -> & _ & _ & Heq).
  cbn zeta in Heq. rewrite Heq. cbn [fst snd response_frames].
  exists (str_of_uuid (uuid4_at (uuid_draws w))), (length (runs w)).
  eexists. split; [reflexivity|]. unfold world_final. simpl.
  rewrite lookup_insert_eq. split; [done|].
  rewrite list_lookup_insert_eq by (rewrite length_app; simpl; lia). done.
Qed.

End Known_thread_2.

Lemma example_reachable : reachable (H:=example_env) example_world.
Proof. apply (reach_create_thread empty_world [] reach_empty). Defined.

Lemma example_thread_list :
  threads_checkpoint_list example_world !! example_thread = Some [0].
Proof. vm_compute. reflexivity. Defined.

Lemma stream_run_events_witness :
  let frames :=
    response_frames (stream_run (H:=example_env) example_thread (py "a b c")
                       (JObj []) patient example_world).2 in
  map frame_event frames =
    [None; Some (py "metadata"); Some (py "data"); Some (py "data");
     Some (py "data"); Some (py "data"); Some (py "data"); Some (py "data");
     Some (py "data"); Some (py "data"); Some (py "stream_end")].
Proof.
  intros frames.
  destruct (stream_run_events (H:=example_env) example_world example_thread
              (py "a b c") (JObj []) [0] example_reachable example_thread_list)
    as (Hevents & _ & _).
  etrans; [exact Hevents|]. vm_compute. reflexivity.
Defined.

Lemma stream_run_blank_text_witness :
  let text := [32; 9; 32]%N in
  forallb isspace text = true ∧
  token_chunks (response_frames
    (stream_run (H:=example_env) example_thread text (JObj []) patient
       example_world).2) = [py "I didn't catch that!"].
Proof.
  intros text.
  assert (Hblank : forallb isspace text = true) by (vm_compute; reflexivity).
  split; [exact Hblank|].
  destruct (stream_run_blank_text (H:=example_env) example_world example_thread
              text (JObj []) [0] example_reachable example_thread_list Hblank)
    as (Hchunks & _).
  exact Hchunks.
Defined.

Lemma stream_run_stored_run_witness :
  let result :=
    stream_run (H:=example_env) example_thread (py "hi") (JObj []) patient
      example_world in
  ∃ run_id run_data r,
    db_runs result.1 !! run_id = Some run_data ∧
    runs result.1 !! run_data = Some r ∧
    run_run_id r = run_id ∧ run_status r = py "success".
Proof.
  intros result.
  destruct (stream_run_stored_run (H:=example_env) example_world example_thread
              (py "hi") (JObj []) [0] example_reachable example_thread_list)
    as (run_id & run_data & r & _ & Hdb & Hr & Hid & _ & Hstatus & _).
  exists run_id, run_data, r. split; [exact Hdb|]. split; [exact Hr|].
  split; [exact Hid|exact Hstatus].
Defined.

(** ** Threads: creation and unknown ids *)

(** [create_thread] makes a thread that [get_thread] finds, with an
    empty conversation and status "idle", and gives it one checkpoint,
    the genesis: no parent, step -1, no messages. The lists of the other
    threads are left as they were. *)
Theorem create_thread_genesis `{Env} payload w :
  let created := create_thread payload w in
  ∃ t c g,
    created.2 = Ok t ∧
    (get_thread (thread_thread_id t) created.1).2 = Ok (Some t) ∧
    thread_status t = py "idle" ∧ thread_values_messages t = [] ∧
    threads_checkpoint_list created.1 !! thread_thread_id t = Some [c] ∧
    (get_latest_checkpoint (thread_thread_id t) created.1).2 = Ok (Some c) ∧
    (get_history_count (thread_thread_id t) created.1).2 = Ok 1%Z ∧
    (dump_checkpoint c created.1).2 = Ok (mkCheckpointJson g []) ∧
    parent_checkpoint g = None ∧ meta_step g = (-1)%Z ∧
    checkpoint_id g ≠ [] ∧
    ∀ t', t' ≠ thread_thread_id t →
      threads_checkpoint_list created.1 !! t' = threads_checkpoint_list w !! t'.
Proof.
  intros created. subst created. rewrite create_thread_eq. cbn [fst snd].
  exists (new_thread payload w), (length (ckpts w)), (genesis w).
  split; [done|]. unfold_ops.
  rewrite !lookup_insert_eq. do 6 (split; [done|]).
  rewrite !lookup_snoc. simpl. rewrite lookup_snoc.
  do 3 (split; [done|]). split; [apply str_of_uuid_nonempty|].
  intros t' Hne. by rewrite lookup_insert_ne.
Qed.

Section Unknown_thread.

Context `{Env}.
Variables (w : World) (thread_id : str).

(** The store has no thread [thread_id]; [create_thread] registers a
    thread in both dictionaries. *)
Hypothesis Hthreads : threads w !! thread_id = None.
Hypothesis Hlists : threads_checkpoint_list w !! thread_id = None.

(** A request for a thread the store does not know is answered with 404
    by the streaming run, by the run that does not stream and by the
    history, and the store is left exactly as it was: no run is added and
    neither the clock nor [uuid4] is read. *)
Theorem unknown_thread_404 user_text metadata consumer py_str payload offset limit :
  stream_run thread_id user_text metadata consumer w = (w, Ok Http404) ∧
  create_run_endpoint py_str thread_id payload w = (w, Ok RunHttp404) ∧
  thread_history thread_id offset limit w = (w, Ok HistoryHttp404) ∧
  (get_history_count thread_id w).2 = Ok 0%Z.
Proof.
  unfold stream_run, create_run_endpoint, thread_history, get_history,
    get_history_count, get_thread.
  unfold_ops. by rewrite Hthreads, Hlists.
Qed.

End Unknown_thread.

Lemma unknown_thread_404_witness :
  stream_run (H:=example_env) (py "nobody") (py "hi") (JObj []) patient
    example_world = (example_world, Ok Http404) ∧
  thread_history (py "nobody") None None example_world =
    (example_world, Ok HistoryHttp404).
Proof.
  destruct (unknown_thread_404 (H:=example_env) example_world (py "nobody")
              eq_refl eq_refl (py "hi") (JObj []) patient (λ _, []) [] None None)
    as (Hstream & _ & Hhistory & _).
  split; [exact Hstream|exact Hhistory].
Defined.

(** ** Runs that are cut short *)

Section Cut_short.

Context `{Env}.
Variable self : EchoStreamer.
Variable consumer : nat → signal.
Variables (w : World) (c : Checkpoint) (ms : list Msg) (r : Run).

Hypothesis Hlatest : ckpts w !! latest_checkpoint self = Some c.
Hypothesis Hmessages : mlists w !! values_messages c = Some ms.
Hypothesis Hrun : runs w !! run_data self = Some r.

Lemma initial_setup_events_taken :
  consumer 0 = Next → consumer 1 = Next → consumer 2 = Next →
  initial_setup_events self consumer (mkSt w 1 []) =
  (mkSt w 3
     [ Keepalive;
       sse (py "metadata") (PMetadata (run_id self) (thread_id self)) (Some 1);
       sse (py "data") (PPatch [mkPatchOp (py "add") (py "/runs/-") (VRun r)])
           (Some 2) ],
   Ok tt).
Proof.
  intros H0 H1 H2. unfold initial_setup_events.
  rewrite bind_yield. cbn [emitted length]. rewrite H0.
  erewrite bind_Ok by reflexivity.
  rewrite bind_yield. cbn [emitted length app]. rewrite H1.
  erewrite bind_Ok; cycle 1.
  { unfold_gen. rewrite Hrun. reflexivity. }
  unfold yield. cbn [emitted length app]. by rewrite H2.
Qed.

Lemma create_and_send_checkpoints_taken l fs :
  threads_checkpoint_list w !! thread_id self = Some l →
  consumer (length fs) = Next → consumer (S (length fs)) = Next →
  create_and_send_checkpoints self consumer (mkSt w 3 fs) =
  (mkSt (world_streaming self w c ms l []) 5
     (fs ++
      [ sse (py "data")
          (PPatch [mkPatchOp (py "add") (py "/checkpoints/-")
             (VCheckpoint (mkCheckpointJson (step_0 self w c) (ms ++ [user_msg self w])))])
          (Some 3);
        sse (py "data")
          (PPatch [mkPatchOp (py "add") (py "/checkpoints/-")
             (VCheckpoint (mkCheckpointJson (step_1 self w None)
                ((ms ++ [user_msg self w]) ++ [assistant_msg w [] None])))])
          (Some 4) ]),
   Ok (S (length (ckpts w)))).
Proof.
  intros Hl H0 H1. unfold create_and_send_checkpoints.
  erewrite bind_Ok by (apply lift_eq; simpl; by apply create_step_0_eq).
  erewrite bind_Ok by (apply lift_eq; unfold_ops; by rewrite Hl).
  erewrite bind_Ok; cycle 1.
  { unfold_gen. rewrite lookup_snoc. unfold_gen. rewrite lookup_snoc. reflexivity. }
  rewrite bind_yield. cbn [emitted world event_id]. rewrite H0.
  erewrite bind_Ok; cycle 1.
  { apply lift_eq. simpl. by apply create_step_1_eq. }
  erewrite bind_Ok; cycle 1.
  { apply lift_eq. unfold_ops. rewrite lookup_insert_eq. unfold_ops.
    rewrite insert_insert_eq. reflexivity. }
  erewrite bind_Ok; cycle 1.
  { unfold_gen. rewrite lookup_snoc2_1. unfold_gen. rewrite lookup_snoc2_1.
    reflexivity. }
  rewrite bind_yield. cbn [emitted world event_id].
  rewrite length_app. cbn [length]. rewrite Nat.add_1_r, H1.
  unfold mret, ST_ret, world_streaming. rewrite <- (app_assoc fs). reflexivity.
Qed.

(** The loop over the words when the consumer takes the frames of the
    first [k] of them and throws [e] at the next frame. *)
Lemma stream_tokens_cut l path words e :
  ∀ k remaining full content i fs,
  k < length remaining →
  (∀ j, j < k → consumer (length fs + j) = Next) →
  consumer (length fs + k) = Throw e →
  stream_tokens self consumer path words remaining full
    (mkSt (world_streaming self w c ms l content) i fs) =
  (mkSt (world_streaming self w c ms l
           (match k with
            | 0 => content
            | _ => join_empty (full ++ take k (map (chunk_of words) remaining))
            end))
        (S k + i)
        (fs ++ token_frames path i (take (S k) (map (chunk_of words) remaining))),
   Raise e).
Proof.
  induction k as [|k IH]; intros remaining full content i fs Hk Hnext Hthrow;
    destruct remaining as [|word remaining]; simpl in Hk; try lia.
  - cbn [stream_tokens]. erewrite bind_Ok by reflexivity.
    rewrite bind_yield. cbn [emitted world event_id].
    rewrite Nat.add_0_r in Hthrow. rewrite Hthrow. reflexivity.
  - cbn [stream_tokens]. erewrite bind_Ok by reflexivity.
    rewrite bind_yield. cbn [emitted world event_id].
    rewrite <- (Nat.add_0_r (length fs)), (Hnext 0) by lia.
    erewrite bind_Ok by (apply lift_eq; apply set_latest_content_eq).
    cbn [world event_id emitted].
    rewrite (IH remaining); [| lia | |].
    + cbn [map take token_frames]. f_equal. f_equal.
      * f_equal. destruct k; [done|]. by rewrite <- app_assoc.
      * lia.
      * by rewrite <- app_assoc.
    + intros j Hj. rewrite length_app. cbn [length].
      replace (length fs + 1 + j) with (length fs + S j) by lia.
      apply Hnext. lia.
    + rewrite length_app. cbn [length].
      by replace (length fs + 1 + k) with (length fs + S k) by lia.
Qed.

End Cut_short.

Section Client_leaves.

Context `{Env}.
Variable self : EchoStreamer.
Variable consumer : nat → signal.
Variables (w : World) (c : Checkpoint) (ms : list Msg) (l : list loc) (r : Run).

Hypothesis Hthread : threads_checkpoint_list w !! thread_id self = Some l.
Hypothesis Hlatest : ckpts w !! latest_checkpoint self = Some c.
Hypothesis Hmessages : mlists w !! values_messages c = Some ms.
Hypothesis Hrun : runs w !! run_data self = Some r.

(** The consumer takes the five frames before the tokens and the first
    [k] token frames, and throws [e] into the generator at the next token
    frame. *)
Variables (k : nat) (e : exn).
Hypothesis Hk : k < length (words_of (text self)).
Hypothesis Htaken : ∀ j, j < 5 + k → consumer j = Next.
Hypothesis Hthrows : consumer (5 + k) = Throw e.

Lemma stream_body_cut :
  stream_body self consumer (mkSt w 1 []) =
  (mkSt (world_streaming self w c ms l
           (join_empty (take k (chunks_of (words_of (text self))))))
        (6 + k)
        (frames_before_tokens self w c ms r ++
         token_frames (msg_content_path self w ms) 5
           (take (S k) (chunks_of (words_of (text self))))),
   Raise e).
Proof.
  unfold stream_body, stream_until_finalization.
  erewrite bind_Raise; [reflexivity|].
  erewrite bind_Ok by (apply initial_setup_events_taken; [done|apply Htaken; lia..]).
  erewrite bind_Ok;
    [|eapply (create_and_send_checkpoints_taken self consumer w c ms);
      [done..|apply Htaken; simpl; lia|apply Htaken; simpl; lia]].
  unfold stream_the_tokens.
  erewrite bind_Ok; cycle 1.
  { apply lift_eq. unfold world_streaming. unfold_ops.
    rewrite lookup_snoc2_1. unfold_ops. rewrite lookup_snoc2_1. reflexivity. }
  cbn [cj_messages].
  erewrite bind_Raise; cycle 1.
  { apply (stream_tokens_cut self consumer w c ms l _ _ e k);
      [done|intros j Hj; apply Htaken; simpl; lia|exact Hthrows]. }
  unfold msg_content_path, chunks_of, frames_before_tokens.
  rewrite (length_app (ms ++ _)). cbn [length app].
  cbn [world event_id emitted]. f_equal. f_equal.
  - f_equal. by destruct k.
  - lia.
Qed.

(** A client that goes away during the tokens. The generator ends
    without a further frame. The store keeps both checkpoints of the run,
    the run dict as it was (its status is not finalized), and in the
    assistant message the chunks of the frames the client took, without
    the chunk of the frame it refused; the message carries no usage. *)
Theorem client_leaves_mid_stream :
  e = BrokenPipeError →
  let chunks := chunks_of (words_of (text self)) in
  let final := (run_stream self consumer w).1 in
  (run_stream self consumer w).2 = Ok tt ∧
  emitted final =
    frames_before_tokens self w c ms r ++
    token_frames (msg_content_path self w ms) 5 (take (S k) chunks) ∧
  token_chunks (emitted final) = take (S k) chunks ∧
  latest_messages (world final) (thread_id self) =
    Some (ms ++ [user_msg self w;
                 assistant_msg w (join_empty (take k chunks)) None]) ∧
  runs (world final) = runs w ∧
  threads_checkpoint_list (world final) !! thread_id self =
    Some (S (length (ckpts w)) :: length (ckpts w) :: l).
Proof.
  intros He chunks final. subst final.
  unfold run_stream, stream_response, try_except. rewrite stream_body_cut, He.
  cbn [fst snd stream_handler mret ST_ret emitted world].
  split; [done|]. split; [done|]. split.
  { unfold token_chunks. rewrite omap_app.
    change (omap token_chunk (token_frames ?p ?i ?cs)) with
      (token_chunks (token_frames p i cs)).
    by rewrite token_chunks_token_frames. }
  split.
  { unfold latest_messages, world_streaming. simpl.
    rewrite lookup_insert_eq. simpl. rewrite lookup_snoc2_1. simpl.
    rewrite lookup_snoc2_1. by rewrite <- app_assoc. }
  split; [done|].
  unfold world_streaming. simpl. by rewrite lookup_insert_eq.
Qed.

End Client_leaves.

Lemma client_leaves_mid_stream_witness :
  let self := example_streamer (py "one two three") in
  let final :=
    (run_stream (H:=example_env) self (throws_at 6 BrokenPipeError)
       example_world_run).1 in
  token_chunks (emitted final) = [py "one "; py "two "] ∧
  (msg_content <$> latest_message (world final) example_thread) = Some (py "one ") ∧
  status_of (world final) 0 = Some (py "running").
Proof.
  intros self final.
  edestruct (λ Ht Hc Hm Hr,
               client_leaves_mid_stream (H:=example_env) self
                 (throws_at 6 BrokenPipeError) example_world_run example_genesis
                 [] [0] example_run Ht Hc Hm Hr 1 BrokenPipeError)
    as (_ & _ & Hchunks & Hlatest & Hruns & _).
  1-4: vm_compute; reflexivity.
  { vm_compute. lia. }
  { intros j Hj. unfold throws_at. case_decide; [lia|reflexivity]. }
  { reflexivity. }
  { reflexivity. }
  split; [etrans; [exact Hchunks|vm_compute; reflexivity]|].
  split.
  - etrans; [exact (f_equal (λ o, msg_content <$> (o ≫= last)) Hlatest)|].
    vm_compute. reflexivity.
  - etrans; [exact (f_equal (λ rs, run_status <$> rs !! 0) Hruns)|].
    vm_compute. reflexivity.
Defined.

Section Unregistered_thread.

Context `{Env}.
Variable self : EchoStreamer.
Variable consumer : nat → signal.
Variables (w : World) (c : Checkpoint) (ms : list Msg) (r : Run).

(** The streamer holds a checkpoint and a run dict of the store, but the
    store has no checkpoint list for its thread id. *)
Hypothesis Hnone : threads_checkpoint_list w !! thread_id self = None.
Hypothesis Hlatest : ckpts w !! latest_checkpoint self = Some c.
Hypothesis Hmessages : mlists w !! values_messages c = Some ms.
Hypothesis Hrun : runs w !! run_data self = Some r.
Hypothesis Htaken : ∀ j, j < 5 → consumer j = Next.

(** For a thread id the store has no checkpoint list for, the
    [KeyError] of [add_checkpoint] is reported in the stream: after the
    keepalive, metadata and run frames come an [error] frame whose
    message is the [repr] of the thread id and a [stream_end] frame
    without checkpoint, numbered 3 and 4. No checkpoint list is touched
    and the run dict is left as it was. *)
Theorem unregistered_thread_reported :
  let final := (run_stream self consumer w).1 in
  (run_stream self consumer w).2 = Ok tt ∧
  emitted final =
    [ Keepalive;
      sse (py "metadata") (PMetadata (run_id self) (thread_id self)) (Some 1);
      sse (py "data") (PPatch [mkPatchOp (py "add") (py "/runs/-") (VRun r)])
          (Some 2);
      sse (py "error") (PError (run_id self) (repr (thread_id self))) (Some 3);
      sse (py "stream_end") (PStreamEnd (run_id self) None) (Some 4) ] ∧
  threads_checkpoint_list (world final) = threads_checkpoint_list w ∧
  threads (world final) = threads w ∧
  runs (world final) = runs w.
Proof.
  assert (Hbody :
    stream_body self consumer (mkSt w 1 []) =
    (mkSt (mkWorld (threads w) (threads_checkpoint_list w) (db_runs w)
             (ckpts w ++ [step_0 self w c]) (mlists w ++ [ms ++ [user_msg self w]])
             (runs w) (2 + clock_reads w) (1 + uuid_draws w))
          3
          [ Keepalive;
            sse (py "metadata") (PMetadata (run_id self) (thread_id self)) (Some 1);
            sse (py "data") (PPatch [mkPatchOp (py "add") (py "/runs/-") (VRun r)])
                (Some 2) ],
     Raise (Exception (repr (thread_id self))))).
  { unfold stream_body, stream_until_finalization.
    erewrite bind_Raise; [reflexivity|].
    erewrite bind_Ok
      by (eapply initial_setup_events_taken; [done|apply Htaken; lia..]).
    erewrite bind_Raise; [reflexivity|].
    unfold create_and_send_checkpoints.
    erewrite bind_Ok by (apply lift_eq; simpl; by apply create_step_0_eq).
    erewrite bind_Raise; [reflexivity|].
    apply lift_eq. unfold_ops. by rewrite Hnone. }
  intros final. subst final.
  unfold run_stream, stream_response, try_except. rewrite Hbody.
  cbn [stream_handler]. unfold mbind, ST_bind, gets, yield, modify.
  cbn [emitted world event_id length app].
  rewrite (Htaken 3) by lia. cbn [emitted world event_id length app].
  rewrite (Htaken 4) by lia. done.
Qed.

End Unregistered_thread.

Lemma unregistered_thread_reported_witness :
  let self := mkEchoStreamer (py "nobody") (py "run") 0 (py "hi") 0 in
  let final := (run_stream (H:=example_env) self patient example_world_run).1 in
  omap frame_event (emitted final) =
    [py "metadata"; py "data"; py "error"; py "stream_end"] ∧
  threads_checkpoint_list (world final) = threads_checkpoint_list example_world_run.
Proof.
  intros self final.
  edestruct (unregistered_thread_reported (H:=example_env) self patient
               example_world_run example_genesis [] example_run)
    as (_ & Hframes & Hlists & _).
  1-4: vm_compute; reflexivity.
  { reflexivity. }
  split; [|exact Hlists].
  etrans; [exact (f_equal (omap frame_event) Hframes)|].
  vm_compute. reflexivity.
Defined.

(** ** The last word, repeated *)

Lemma length_chunks_of_any (x : str) ws :
  length (concat (map (λ word, if decide (word ≠ x) then word ++ py " " else word) ws))
  + length (filter (λ word, word = x) ws) =
  length (concat ws) + length ws.
Proof.
  induction ws as [|word ws IH]; [done|].
  cbn [map concat]. rewrite !length_app. destruct (decide (word = x)) as [->|Hne].
  - rewrite filter_cons_True by done. rewrite decide_False by (intros Hx; by apply Hx).
    simpl. lia.
  - rewrite filter_cons_False by done. rewrite decide_True by done.
    rewrite length_app. simpl. lia.
Qed.

Lemma length_join_space ws :
  ws ≠ [] → length (join_space ws) + 1 = length (concat ws) + length ws.
Proof.
  induction ws as [|word ws IH]; [done|]. intros _.
  destruct ws as [|word' ws].
  - simpl. rewrite app_nil_r. lia.
  - change (join_space (word :: word' :: ws))
      with (word ++ py " " ++ join_space (word' :: ws)).
    cbn [concat]. rewrite !length_app. cbn [concat] in IH.
    rewrite length_app in IH. specialize (IH ltac:(done)).
    change (length (py " ")) with 1. cbn [length] in *. lia.
Qed.

Lemma last_word_there ws : ws ≠ [] → last_word ws ∈ ws.
Proof.
  induction ws as [|word ws IH]; [done|]. intros _.
  destruct ws as [|word' ws]; [left|].
  right. by apply IH.
Qed.

Lemma two_occurrences (x : str) ws i :
  S i < length ws → ws !! i = Some x → last_word ws = x →
  2 ≤ length (filter (λ word, word = x) ws).
Proof.
  revert i. induction ws as [|word ws IH]; intros i Hi Hx Hlast; [simpl in Hi; lia|].
  assert (Hlast' : last_word ws = x).
  { unfold last_word in *. destruct ws; [simpl in Hi; lia|done]. }
  destruct i as [|i].
  - simpl in Hx. injection Hx as ->. rewrite filter_cons_True by done.
    cbn [length]. apply le_n_S.
    assert (Hin : x ∈ ws).
    { rewrite <- Hlast'. apply last_word_there. intros ->. simpl in Hi. lia. }
    destruct (filter (λ word, word = x) ws) eqn:Hf; [|simpl; lia].
    assert (Hin' : x ∈ filter (λ word, word = x) ws)
      by (by apply list_elem_of_filter).
    rewrite Hf in Hin'. by apply not_elem_of_nil in Hin'.
  - simpl in Hi, Hx. specialize (IH i ltac:(lia) Hx Hlast').
    destruct (decide (word = x)).
    + rewrite filter_cons_True by done. simpl. lia.
    + by rewrite filter_cons_False.
Qed.

Lemma repeated_last_word_short words i :
  S i < length words → words !! i = Some (last_word words) →
  chunks_of words !! i = Some (last_word words) ∧
  length (join_empty (chunks_of words)) < length (join_space words).
Proof.
  intros Hi Hx. split.
  - unfold chunks_of. rewrite list_lookup_fmap, Hx. simpl. unfold chunk_of.
    by rewrite decide_False by (intros Hne; by apply Hne).
  - pose proof (length_chunks_of_any (last_word words) words) as H1.
    pose proof (length_join_space words) as H2.
    pose proof (two_occurrences _ words i Hi Hx eq_refl) as H3.
    unfold join_empty, chunks_of, chunk_of.
    assert (words ≠ []) by (intros ->; simpl in Hi; lia).
    specialize (H2 ltac:(done)). lia.
Qed.

Section Repeated_last_word.

Context `{Env}.
Variables (w : World) (thread_id user_text : str) (metadata : Json).
Variable l : list loc.

Hypothesis Hreach : reachable w.
Hypothesis Hthread : threads_checkpoint_list w !! thread_id = Some l.

(** The loop compares each word with the last word by value
    ([word != words[-1]]): a word before the last one that is equal to
    it is streamed without its space, so the text streamed and stored is
    shorter than the words joined by single spaces. *)
Theorem repeated_last_word_loses_space i :
  let words := words_of (strip user_text) in
  S i < length words → words !! i = Some (last_word words) →
  let result := stream_run thread_id user_text metadata patient w in
  let chunks := token_chunks (response_frames result.2) in
  chunks !! i = Some (last_word words) ∧
  (msg_content <$> latest_message result.1 thread_id) = Some (join_empty chunks) ∧
  length (join_empty chunks) < length (join_space words).
Proof.
  intros words Hi Hx result chunks. subst result chunks.
  destruct (stream_run_patient_eq w thread_id user_text metadata l Hreach Hthread)
    as (latest & rest & c & ms & -> & _ & _ & Heq).
  cbn zeta in Heq. rewrite Heq. cbn [fst snd response_frames].
  rewrite token_chunks_frames_of_run. cbn [text streamer_of].
  destruct (repeated_last_word_short words i Hi Hx) as [Hchunk Hshort].
  split; [exact Hchunk|]. split; [|exact Hshort].
  unfold latest_message, latest_messages, world_final. simpl.
  rewrite lookup_insert_eq. simpl. rewrite lookup_snoc2_1. simpl.
  rewrite lookup_snoc2_1. simpl. rewrite last_snoc. reflexivity.
Qed.

End Repeated_last_word.

Lemma repeated_last_word_loses_space_witness :
  let result :=
    stream_run (H:=example_env) example_thread (py "a b a") (JObj []) patient
      example_world in
  token_chunks (response_frames result.2) !! 0 = Some (py "a") ∧
  length (join_empty (token_chunks (response_frames result.2))) < 5.
Proof.
  intros result.
  edestruct (repeated_last_word_loses_space (H:=example_env) example_world
               example_thread (py "a b a") (JObj []) [0] example_reachable
               example_thread_list 0)
    as (Hchunk & _ & Hshort).
  { vm_compute. lia. }
  { vm_compute. reflexivity. }
  split; [exact Hchunk|exact Hshort].
Defined.

(** ** The history of a thread *)

Lemma py_slice_page {A} (l : list A) (offset limit : Z) :
  (0 ≤ offset)%Z → (0 ≤ limit)%Z →
  py_slice l offset (offset + limit) =
  take (Z.to_nat limit) (drop (Z.to_nat offset) l).
Proof.
  intros Ho Hn. unfold py_slice, slice_index.
  destruct (Z.ltb_spec offset 0); [lia|].
  destruct (Z.ltb_spec (offset + limit) 0); [lia|].
  destruct (decide (Z.of_nat (length l) ≤ offset)%Z) as [Hout|Hin].
  - rewrite (Z.min_r offset) by lia. rewrite !drop_ge by lia. by rewrite !take_nil.
  - rewrite (Z.min_l offset) by lia.
    destruct (decide (offset + limit ≤ Z.of_nat (length l))%Z).
    + rewrite Z.min_l by lia. f_equal. lia.
    + rewrite Z.min_r by lia. rewrite !take_ge; [done|rewrite length_drop; lia..].
Qed.

Lemma dump_all_eq `{Env} w page :
  Forall (λ c, ∃ ck ms, ckpts w !! c = Some ck ∧
                        mlists w !! values_messages ck = Some ms) page →
  ∃ js, dump_all page w = (w, Ok js) ∧
        Forall2 (λ c j, (dump_checkpoint c w).2 = Ok j) page js.
Proof.
  induction 1 as [|c page (ck & ms & Hck & Hms) _ (js & Hjs & Hall)].
  - exists []. by split.
  - assert (Hc : dump_checkpoint c w = (w, Ok (mkCheckpointJson ck ms))).
    { unfold_ops. rewrite Hck. unfold_ops. by rewrite Hms. }
    exists (mkCheckpointJson ck ms :: js). split.
    + cbn [dump_all]. erewrite bind_Ok by exact Hc.
      erewrite bind_Ok by exact Hjs. reflexivity.
    + constructor; [by rewrite Hc|done].
Qed.

Lemma chain_in_there h l c : chain_in h l → c ∈ l → is_Some (h !! c).
Proof.
  induction 1 as [g ck Hg _ _|c' ck t p l Hc _ _ _ _ IH]; intros Hin.
  - apply list_elem_of_singleton in Hin as ->. by exists ck.
  - apply elem_of_cons in Hin as [->|Hin]; [by exists ck|by apply IH].
Qed.

Section History.

Context `{Env}.
Variables (w : World) (thread_id : str) (l : list loc).

Hypothesis Hreach : reachable w.
Hypothesis Hthread : threads_checkpoint_list w !! thread_id = Some l.

Lemma history_there :
  Forall (λ c, ∃ ck ms, ckpts w !! c = Some ck ∧
                        mlists w !! values_messages ck = Some ms) l.
Proof.
  pose proof (reachable_chained w Hreach _ _ Hthread) as Hch.
  pose proof (reachable_wired w Hreach) as Hw.
  apply Forall_forall. intros c Hin.
  destruct (chain_in_there _ _ c Hch Hin) as [ck Hck].
  pose proof (Forall_lookup_1 _ _ _ _ Hw Hck) as Hlt. simpl in Hlt.
  apply lookup_lt_is_Some in Hlt as [ms Hms]. by exists ck, ms.
Qed.

Lemma thread_history_eq offset limit :
  let o := int_or offset 0 in
  let n := int_or limit 50 in
  (0 ≤ o)%Z → (0 ≤ n)%Z →
  ∃ page,
    thread_history thread_id offset limit w =
      (w, Ok (HistoryPage page o
                (if (o + n <? Z.of_nat (length l))%Z then Some (o + n)%Z else None))) ∧
    Forall2 (λ c j, (dump_checkpoint c w).2 = Ok j)
      (take (Z.to_nat n) (drop (Z.to_nat o) l)) page.
Proof.
  intros o n Ho Hn.
  set (refs := take (Z.to_nat n) (drop (Z.to_nat o) l)).
  assert (Hrefs : Forall (λ c, ∃ ck ms, ckpts w !! c = Some ck ∧
                     mlists w !! values_messages ck = Some ms) refs).
  { apply Forall_forall. intros c Hin.
    pose proof history_there as Hall.
    eapply (proj1 (Forall_forall _ _) Hall).
    subst refs. apply elem_of_take in Hin as (i & Hi & _).
    rewrite lookup_drop in Hi. by eapply list_elem_of_lookup_2. }
  destruct (dump_all_eq w refs Hrefs) as (js & Hjs & Hall).
  exists js. split; [|exact Hall].
  unfold thread_history. fold o n.
  erewrite bind_Ok; cycle 1.
  { unfold get_history. unfold_ops. rewrite Hthread. reflexivity. }
  cbn beta iota. rewrite py_slice_page by done.
  erewrite bind_Ok; cycle 1.
  { unfold get_history_count. unfold_ops. rewrite Hthread. reflexivity. }
  erewrite bind_Ok by exact Hjs. reflexivity.
Qed.

(** The history endpoint on a known thread, for an offset and a limit
    that are not negative once the defaults are in (an absent, null or
    zero limit is 50): the store is left as it is, the page is the
    checkpoints [offset .. offset + limit) of the thread, newest first,
    each as it is stored, and the header [x-next-offset] is given,
    as [offset + limit], exactly when checkpoints remain after the
    page. *)
Theorem thread_history_page offset limit :
  let o := int_or offset 0 in
  let n := int_or limit 50 in
  (0 ≤ o)%Z → (0 ≤ n)%Z →
  ∃ page next,
    thread_history thread_id offset limit w = (w, Ok (HistoryPage page o next)) ∧
    Forall2 (λ c j, (dump_checkpoint c w).2 = Ok j)
      (take (Z.to_nat n) (drop (Z.to_nat o) l)) page ∧
    length page = Nat.min (Z.to_nat n) (length l - Z.to_nat o) ∧
    (next = None → Z.to_nat o + length page = Nat.max (Z.to_nat o) (length l)) ∧
    (∀ o', next = Some o' →
       o' = (o + n)%Z ∧ length page = Z.to_nat n ∧ Z.to_nat o' < length l).
Proof.
  intros o n Ho Hn.
  destruct (thread_history_eq offset limit Ho Hn) as (js & Heq & Hall).
  fold o n in Heq, Hall.
  exists js, (if (o + n <? Z.of_nat (length l))%Z then Some (o + n)%Z else None).
  assert (Hlen : length js = Nat.min (Z.to_nat n) (length l - Z.to_nat o)).
  { rewrite <- (Forall2_length _ _ _ Hall).
    by rewrite length_take, length_drop. }
  split; [exact Heq|split; [exact Hall|split; [exact Hlen|split]]].
  - destruct (Z.ltb_spec (o + n) (Z.of_nat (length l))); [done|]. intros _. lia.
  - intros o'. destruct (Z.ltb_spec (o + n) (Z.of_nat (length l))); [|done].
    intros [= <-]. lia.
Qed.

(** Pages that follow each other join to one page, and the page of
    all the checkpoints is the list of the thread; an offset past the
    end gives an empty page, not an error. *)
Theorem get_history_pages (offset limit limit' : Z) :
  (0 ≤ offset)%Z → (0 ≤ limit)%Z → (0 ≤ limit')%Z →
  ∃ page page',
    (get_history thread_id offset limit w).2 = Ok (Some page) ∧
    (get_history thread_id (offset + limit) limit' w).2 = Ok (Some page') ∧
    (get_history thread_id offset (limit + limit') w).2 = Ok (Some (page ++ page')) ∧
    (get_history thread_id 0 (Z.of_nat (length l)) w).2 = Ok (Some l) ∧
    (Z.of_nat (length l) ≤ offset → page = [])%Z.
Proof.
  intros Ho Hn Hn'. unfold get_history. unfold_ops. rewrite Hthread.
  eexists _, _. split; [reflexivity|]. split; [reflexivity|].
  rewrite !py_slice_page by lia. split; [|split].
  - do 2 f_equal. rewrite !Z2Nat.inj_add by lia.
    rewrite <- take_take_drop. by rewrite drop_drop.
  - do 2 f_equal. rewrite Nat2Z.id. simpl. by rewrite take_ge.
  - intros Hout. rewrite drop_ge by lia. by rewrite take_nil.
Qed.

End History.

Lemma thread_history_page_witness :
  ∃ page,
    thread_history example_thread (Some 0%Z) (Some 0%Z) example_world =
      (example_world, Ok (HistoryPage page 0 None)) ∧
    length page = 1.
Proof.
  destruct (thread_history_page (H:=example_env) example_world example_thread [0]
              example_reachable example_thread_list (Some 0%Z) (Some 0%Z))
    as (page & next & Heq & _ & Hlen & _ & Hnext); [simpl; lia..|].
  exists page. split; [|exact Hlen].
  destruct next as [o'|]; [|exact Heq].
  destruct (Hnext o' eq_refl) as (-> & _ & Hlt). vm_compute in Hlt. lia.
Defined.

Lemma get_history_pages_witness :
  ∃ page page',
    (get_history example_thread 0 1 example_world).2 = Ok (Some page) ∧
    (get_history example_thread 1 1 example_world).2 = Ok (Some page') ∧
    page ++ page' = [0].
Proof.
  destruct (get_history_pages example_world example_thread [0]
              example_thread_list 0 1 1)
    as (page & page' & H1 & H2 & H12 & Hall & _); [lia..|].
  exists page, page'. split; [exact H1|]. split; [exact H2|].
  assert (Heq : Ok (Some (page ++ page')) = Ok (Some [0])).
  { etrans; [symmetry; exact H12|]. vm_compute. reflexivity. }
  by injection Heq.
Defined.

(** ** The run that does not stream *)

Lemma dict_get_set_eq k v d default : dict_get k (dict_set k v d) default = v.
Proof.
  induction d as [|[k' v'] d IH]; simpl.
  - by rewrite decide_True.
  - destruct (decide (k' = k)) as [->|Hne]; simpl.
    + by rewrite decide_True.
    + by rewrite decide_False.
Qed.

Lemma dict_get_set_ne k k' v d default :
  k ≠ k' → dict_get k' (dict_set k v d) default = dict_get k' d default.
Proof.
  intros Hne. induction d as [|[k0 v0] d IH]; simpl.
  - by rewrite decide_False.
  - destruct (decide (k0 = k)) as [->|Hne0]; simpl.
    + by rewrite !decide_False.
    + by rewrite IH.
Qed.

Lemma extract_user_text_set v payload :
  extract_user_text (dict_set (py "assistant_id") v payload) =
  extract_user_text payload.
Proof.
  unfold extract_user_text. by rewrite !dict_get_set_ne.
Qed.

Lemma resolve_assistant_id_eq `{Env} py_str payload :
  resolve_assistant_id py_str payload = str_of_uuid ASSISTANT_ID.
Proof. unfold resolve_assistant_id. by repeat case_match. Qed.

Lemma create_run_eq `{Env} thread_id payload user_text w t with_user :
  threads w !! thread_id = Some t →
  match user_text, thread_values_messages t with
  | [], _ => Ok false
  | _ :: _, [] => Ok true
  | _ :: _, _ :: _ => last_differs (thread_values_messages t) user_text
  end = Ok with_user →
  ∃ run,
    create_run thread_id payload user_text w =
    (mkWorld
       (<[thread_id :=
            mkThread (thread_thread_id t) (thread_created_at t)
              (now_iso_at (clock_reads w)) (thread_metadata t) (thread_config t)
              (thread_context t) (py "idle")
              ((if with_user
                then thread_values_messages t ++ [role_content (py "user") user_text]
                else thread_values_messages t) ++
               [role_content (py "assistant") user_text])]> (threads w))
       (threads_checkpoint_list w)
       (<[run_run_id run := length (runs w)]> (db_runs w))
       (ckpts w) (mlists w) (runs w ++ [run])
       (3 + clock_reads w) (1 + uuid_draws w),
     Ok run) ∧
    run_run_id run = str_of_uuid (uuid4_at (uuid_draws w)) ∧
    run_thread_id run = thread_id ∧
    run_assistant_id run = str_of_uuid ASSISTANT_ID ∧
    run_status run = py "success" ∧
    run_metadata run = dict_get (py "metadata") payload (JObj []) ∧
    run_kwargs run =
      JObj [(py "result",
             JObj [(py "output", JStr user_text);
                   (py "messages", JArr [role_content (py "assistant") user_text])])].
Proof.
  intros Hthread Hwith.
  exists {|
    run_run_id := str_of_uuid (uuid4_at (uuid_draws w));
    run_thread_id := thread_id;
    run_assistant_id := str_of_uuid ASSISTANT_ID;
    run_created_at := now_iso_at (S (clock_reads w));
    run_updated_at := now_iso_at (S (S (clock_reads w)));
    run_status := py "success";
    run_metadata := dict_get (py "metadata") payload (JObj []);
    run_kwargs :=
      JObj [(py "result",
             JObj [(py "output", JStr user_text);
                   (py "messages", JArr [role_content (py "assistant") user_text])])];
    run_multitask_strategy := py "enqueue"
  |}.
  split.
  - unfold create_run, get_thread.
    erewrite bind_Ok by (unfold gets; by rewrite Hthread).
    cbn beta iota.
    erewrite (bind_Ok _ _ w w with_user); cycle 1.
    { destruct user_text, (thread_values_messages t); simplify_eq/=; try done.
      by rewrite Hwith. }
    destruct w; reflexivity.
  - done.
Qed.

Lemma with_user_there (msgs : list Json) (user_text : str) :
  (∀ v, last msgs = Some v → ∃ m, v = JObj m) →
  ∃ with_user,
    match user_text, msgs with
    | [], _ => Ok false
    | _ :: _, [] => Ok true
    | _ :: _, _ :: _ => last_differs msgs user_text
    end = Ok with_user ∧
    (user_text = [] → with_user = false) ∧
    (user_text ≠ [] → msgs = [] → with_user = true) ∧
    (∀ m, user_text ≠ [] → last msgs = Some (JObj m) →
       with_user = negb (is_str (dict_get (py "content") m JNull) user_text)).
Proof.
  intros Hdict. destruct user_text as [|c user_text].
  { exists false. repeat split; try done. }
  destruct msgs as [|v msgs].
  { exists true. repeat split; try done. }
  destruct (last (v :: msgs)) as [v'|] eqn:Hlast; cycle 1.
  { by apply last_None in Hlast. }
  destruct (Hdict v' eq_refl) as [m ->].
  exists (negb (is_str (dict_get (py "content") m JNull) (c :: user_text))).
  unfold last_differs. rewrite Hlast. repeat split; try done.
  by intros m' _ [= ->].
Qed.

Section Echo_run.

Context `{Env}.
Variable py_str : Json → str.
Variables (w : World) (thread_id : str) (t : Thread).
Variable payload : list (str * Json).

(** The thread is known, and the last of its messages, if any, is a
    dict (as those are that [create_run] appends). *)
Hypothesis Hthread : threads w !! thread_id = Some t.
Hypothesis Hdict :
  ∀ v, last (thread_values_messages t) = Some v → ∃ m, v = JObj m.

Lemma create_run_endpoint_eq :
  let user_text := strip (extract_user_text payload) in
  let msgs := thread_values_messages t in
  ∃ with_user run,
    create_run_endpoint py_str thread_id payload w =
      (mkWorld
         (<[thread_id :=
              mkThread (thread_thread_id t) (thread_created_at t)
                (now_iso_at (clock_reads w)) (thread_metadata t) (thread_config t)
                (thread_context t) (py "idle")
                ((if with_user : bool
                  then msgs ++ [role_content (py "user") user_text]
                  else msgs) ++
                 [role_content (py "assistant") user_text])]> (threads w))
         (threads_checkpoint_list w)
         (<[run_run_id run := length (runs w)]> (db_runs w))
         (ckpts w) (mlists w) (runs w ++ [run])
         (3 + clock_reads w) (1 + uuid_draws w),
       Ok (RunJson run (py "/threads/" ++ thread_id ++ py "/runs/" ++
                        run_run_id run))) ∧
    run_status run = py "success" ∧
    run_metadata run = dict_get (py "metadata") payload (JObj []) ∧
    run_kwargs run =
      JObj [(py "result",
             JObj [(py "output", JStr user_text);
                   (py "messages", JArr [role_content (py "assistant") user_text])])] ∧
    (user_text = [] → with_user = false) ∧
    (user_text ≠ [] → msgs = [] → with_user = true) ∧
    (∀ m, user_text ≠ [] → last msgs = Some (JObj m) →
       with_user = negb (is_str (dict_get (py "content") m JNull) user_text)).
Proof.
  intros user_text msgs.
  destruct (with_user_there msgs user_text Hdict) as (with_user & Hwith & Hcases).
  destruct (create_run_eq thread_id
              (dict_set (py "assistant_id") (JStr (str_of_uuid ASSISTANT_ID)) payload)
              user_text w t with_user Hthread Hwith)
    as (run & Hrun & _ & _ & _ & Hstatus & Hmeta & Hkwargs).
  exists with_user, run. split; [|split; [exact Hstatus|split; [|split; [exact Hkwargs|exact Hcases]]]].
  - unfold create_run_endpoint, get_thread.
    erewrite bind_Ok by (unfold gets; by rewrite Hthread).
    cbn beta iota. rewrite resolve_assistant_id_eq, dict_get_set_eq.
    cbn [str_of_json]. rewrite decide_False by (intros Hne; by apply Hne).
    rewrite extract_user_text_set. fold user_text.
    unfold try_except. erewrite bind_Ok by exact Hrun. reflexivity.
  - rewrite Hmeta. by apply dict_get_set_ne.
Qed.

(** The non-streaming run on a known thread, whatever assistant or graph
    the payload names: it is answered with the run, "success", whose
    result echoes the stripped text, stored under its id; the thread
    gets the assistant message, preceded by the user message unless the
    text is empty or the thread's last message has the text as its
    content; no checkpoint is made, so the history of the thread does
    not show the run. *)
Theorem create_run_echoes :
  let user_text := strip (extract_user_text payload) in
  let msgs := thread_values_messages t in
  let user := role_content (py "user") user_text in
  let assistant := role_content (py "assistant") user_text in
  let result := create_run_endpoint py_str thread_id payload w in
  ∃ run t',
    result.2 = Ok (RunJson run (py "/threads/" ++ thread_id ++ py "/runs/" ++
                                run_run_id run)) ∧
    run_status run = py "success" ∧
    run_kwargs run =
      JObj [(py "result",
             JObj [(py "output", JStr user_text); (py "messages", JArr [assistant])])] ∧
    (∃ l, db_runs result.1 !! run_run_id run = Some l ∧ runs result.1 !! l = Some run) ∧
    threads result.1 !! thread_id = Some t' ∧
    thread_status t' = py "idle" ∧
    (user_text = [] → thread_values_messages t' = msgs ++ [assistant]) ∧
    (user_text ≠ [] → msgs = [] → thread_values_messages t' = [user; assistant]) ∧
    (∀ m, user_text ≠ [] → last msgs = Some (JObj m) →
       thread_values_messages t' =
         if is_str (dict_get (py "content") m JNull) user_text
         then msgs ++ [assistant] else msgs ++ [user; assistant]) ∧
    threads_checkpoint_list result.1 = threads_checkpoint_list w ∧
    ckpts result.1 = ckpts w ∧ mlists result.1 = mlists w.
Proof.
  intros user_text msgs user assistant result. subst result.
  destruct create_run_endpoint_eq
    as (with_user & run & -> & Hstatus & _ & Hkwargs & H0 & H1 & H2).
  fold user_text msgs in H0, H1, H2 |- *.
  exists run. eexists.
  cbn [fst snd threads db_runs runs threads_checkpoint_list ckpts mlists].
  split; [done|]. split; [done|]. split; [done|]. split.
  { exists (length (runs w)). rewrite lookup_insert_eq. split; [done|].
    apply lookup_snoc. }
  split; [apply lookup_insert_eq|]. cbn [thread_status thread_values_messages].
  split; [done|]. split; [by intros ->%H0|]. split.
  { intros Hne Hnil. rewrite (H1 Hne Hnil). by rewrite Hnil. }
  split; [|done].
  intros m Hne Hlast. rewrite (H2 m Hne Hlast).
  destruct (is_str _ _); simpl; [done|]. by rewrite <- app_assoc.
Qed.

End Echo_run.

Section Echo_run_twice.

Context `{Env}.
Variable py_str : Json → str.
Variables (w : World) (thread_id : str) (t : Thread).
Variables payload payload' : list (str * Json).

Hypothesis Hthread : threads w !! thread_id = Some t.
Hypothesis Hdict :
  ∀ v, last (thread_values_messages t) = Some v → ∃ m, v = JObj m.

(** The same text asked twice in a row: the second request adds the
    answer only, its user message is not recorded (the answer to the
    first request has the text as its content). *)
Theorem create_run_same_text_again :
  strip (extract_user_text payload') = strip (extract_user_text payload) →
  let user_text := strip (extract_user_text payload) in
  let w1 := (create_run_endpoint py_str thread_id payload w).1 in
  let w2 := (create_run_endpoint py_str thread_id payload' w1).1 in
  ∃ t1 t2,
    threads w1 !! thread_id = Some t1 ∧
    threads w2 !! thread_id = Some t2 ∧
    thread_values_messages t2 =
      thread_values_messages t1 ++ [role_content (py "assistant") user_text].
Proof.
  intros Hsame user_text w1 w2. subst w1 w2.
  destruct (create_run_endpoint_eq py_str w thread_id t payload Hthread Hdict)
    as (with_user & run & -> & _).
  fold user_text. cbn [fst].
  match goal with
  | |- context [create_run_endpoint _ _ _ (mkWorld (<[_ := ?t']> ?a) ?b ?c ?d ?e ?f ?g ?h)] =>
      set (t1 := t'); set (w1 := mkWorld (<[thread_id := t1]> a) b c d e f g h)
  end.
  assert (Hthread1 : threads w1 !! thread_id = Some t1) by apply lookup_insert_eq.
  assert (Hlast : last (thread_values_messages t1) =
                  Some (role_content (py "assistant") user_text)).
  { subst t1. cbn [thread_values_messages]. apply last_snoc. }
  assert (Hdict1 : ∀ v, last (thread_values_messages t1) = Some v → ∃ m, v = JObj m).
  { intros v Hv. rewrite Hlast in Hv. injection Hv as <-. by eexists. }
  destruct (create_run_endpoint_eq py_str w1 thread_id t1 payload' Hthread1 Hdict1)
    as (with_user' & run' & -> & _ & _ & _ & H0 & _ & H2).
  rewrite Hsame in H0, H2 |- *. fold user_text in H0, H2 |- *.
  exists t1. eexists. split; [done|]. split; [apply lookup_insert_eq|].
  cbn [thread_values_messages].
  assert (with_user' = false) as ->; [|done].
  destruct (decide (user_text = [])) as [Hnil|Hne]; [by apply H0|].
  rewrite (H2 _ Hne Hlast). simpl. by rewrite bool_decide_eq_true_2.
Qed.

End Echo_run_twice.

Lemma create_run_echoes_witness :
  let result :=
    create_run_endpoint (H:=example_env) (λ _, []) example_thread
      [(py "input", JStr (py " hi "))] example_world in
  ∃ run t',
    result.2 = Ok (RunJson run (py "/threads/" ++ example_thread ++ py "/runs/" ++
                                run_run_id run)) ∧
    threads result.1 !! example_thread = Some t' ∧
    thread_values_messages t' =
      [role_content (py "user") (py "hi"); role_content (py "assistant") (py "hi")] ∧
    threads_checkpoint_list result.1 = threads_checkpoint_list example_world.
Proof.
  intros result.
  edestruct (λ t Ht Hd,
               create_run_echoes (H:=example_env) (λ _, []) example_world
                 example_thread t [(py "input", JStr (py " hi "))] Ht Hd)
    as (run & t' & Hres & _ & _ & _ & Ht' & _ & _ & Hmsgs & _ & Hlists & _).
  { vm_compute. reflexivity. }
  { intros v Hv. vm_compute in Hv. discriminate. }
  exists run, t'. split; [exact Hres|]. split; [exact Ht'|].
  split; [|exact Hlists].
  apply Hmsgs; [vm_compute; discriminate|reflexivity].
Defined.

Lemma create_run_same_text_again_witness :
  let payload := [(py "input", JStr (py "hi"))] in
  let w1 :=
    (create_run_endpoint (H:=example_env) (λ _, []) example_thread payload
       example_world).1 in
  let w2 :=
    (create_run_endpoint (H:=example_env) (λ _, []) example_thread payload w1).1 in
  ∃ t2,
    threads w2 !! example_thread = Some t2 ∧
    thread_values_messages t2 =
      [role_content (py "user") (py "hi"); role_content (py "assistant") (py "hi");
       role_content (py "assistant") (py "hi")].
Proof.
  intros payload w1 w2.
  edestruct (λ t Ht Hd,
               create_run_same_text_again (H:=example_env) (λ _, []) example_world
                 example_thread t payload payload Ht Hd eq_refl)
    as (t1 & t2 & Ht1 & Ht2 & Hmsgs).
  { vm_compute. reflexivity. }
  { intros v Hv. vm_compute in Hv. discriminate. }
  exists t2. split; [exact Ht2|].
  etrans; [exact Hmsgs|].
  assert (Hsome : Some t1 = threads w1 !! example_thread) by (symmetry; exact Ht1).
  vm_compute in Hsome. injection Hsome as ->. vm_compute. reflexivity.
Defined.

(** ** The text of a request *)

Lemma user_content_app ms ms' :
  user_content (ms ++ ms') =
  match user_content ms with
  | Some cand => Some cand
  | None => user_content ms'
  end.
Proof.
  induction ms as [|v ms IH]; [done|].
  destruct v; simpl; try done.
  repeat case_match; done.
Qed.

Lemma user_content_silent ms :
  Forall (λ v, user_content [v] = None) ms → user_content (rev ms) = None.
Proof.
  induction 1 as [|v ms Hv _ IH]; [done|].
  simpl. by rewrite user_content_app, IH.
Qed.

(** Without a direct [input], the text of a request is that of the most
    recent message of role "user" or "human" that has a usable content:
    messages after it that give no text (those of other roles, those that
    are no dicts, those without usable content) are passed over, and
    messages before it are not looked at. *)
Theorem extract_user_text_latest_user payload before m after s :
  dict_get (py "input") payload JNull = JNull →
  dict_get (py "messages") payload JNull = JArr (before ++ JObj m :: after) →
  is_user (dict_get (py "role") m JNull) = true →
  _from_content (dict_get (py "content") m JNull) = Some s →
  Forall (λ v, user_content [v] = None) after →
  extract_user_text payload = s.
Proof.
  intros Hinput Hmessages Hrole Hcontent Hafter.
  unfold extract_user_text. rewrite Hinput, Hmessages.
  rewrite rev_app_distr. cbn [rev]. rewrite <- app_assoc, user_content_app.
  rewrite (user_content_silent after Hafter).
  cbn [app user_content]. by rewrite Hrole, Hcontent.
Qed.

Lemma extract_user_text_latest_user_witness :
  extract_user_text
    [(py "messages",
      JArr [role_content (py "user") (py "first");
            role_content (py "assistant") (py "first");
            role_content (py "human") (py "second");
            role_content (py "assistant") (py "second");
            JObj [(py "role", JStr (py "user")); (py "content", JNull)]])] =
  py "second".
Proof.
  apply (extract_user_text_latest_user _
           [role_content (py "user") (py "first");
            role_content (py "assistant") (py "first")]
           [(py "role", JStr (py "human")); (py "content", JStr (py "second"))]
           [role_content (py "assistant") (py "second");
            JObj [(py "role", JStr (py "user")); (py "content", JNull)]]).
  - reflexivity.
  - reflexivity.
  - reflexivity.
  - reflexivity.
  - repeat constructor.
Defined.

(** ** The text of a frame *)

Lemma splitlines_from_line cur open p rest :
  Forall (λ c, is_linebreak c = false) p →
  splitlines_from cur open (p ++ 10%N :: rest) =
  (cur ++ p) :: splitlines_from [] false rest.
Proof.
  intros Hp. revert cur open.
  induction Hp as [|c p Hc _ IH]; intros cur open.
  - simpl. by rewrite app_nil_r.
  - cbn [app splitlines_from]. rewrite Hc, IH. by rewrite <- app_assoc.
Qed.

Lemma splitlines_join_lines parts :
  parts ≠ [] →
  Forall (Forall (λ c, is_linebreak c = false)) parts →
  splitlines (join_lines parts ++ [10; 10]%N) = parts ++ [[]].
Proof.
  intros Hne Hparts. unfold splitlines.
  induction Hparts as [|p parts Hp Hparts IH]; [done|].
  destruct parts as [|p' parts].
  - cbn [join_lines app]. change [10; 10]%N with (10 :: [10])%N.
    by rewrite splitlines_from_line.
  - change (join_lines (p :: p' :: parts))
      with (p ++ [10%N] ++ join_lines (p' :: parts)).
    rewrite <- !app_assoc. cbn [app].
    rewrite splitlines_from_line by done. cbn [app]. f_equal.
    by apply IH.
Qed.

Lemma splitlines_from_break_free n :
  ∀ s cur open, length s ≤ n →
  Forall (λ c, is_linebreak c = false) cur →
  Forall (Forall (λ c, is_linebreak c = false)) (splitlines_from cur open s).
Proof.
  induction n as [|n IH]; intros s cur open Hlen Hcur.
  - destruct s; [|simpl in Hlen; lia]. simpl. destruct open; by repeat constructor.
  - destruct s as [|c s]; [simpl; destruct open; by repeat constructor|].
    simpl in Hlen. cbn [splitlines_from].
    destruct (is_linebreak c) eqn:Hc.
    + constructor; [done|].
      assert (Hs : Forall (Forall (λ c, is_linebreak c = false))
                     (splitlines_from [] false s)) by (apply IH; [lia|done]).
      destruct (decide (c = 13%N)) as [->|Hne].
      * destruct s as [|c' s]; [done|].
        destruct (decide (c' = 10%N)) as [->|Hne'].
        -- apply IH; [simpl in *; lia|done].
        -- replace (match c' with 10%N => splitlines_from [] false s | _ => splitlines_from [] false (c' :: s) end)
             with (splitlines_from [] false (c' :: s)); [done|].
           destruct c' as [|p]; [done|].
           do 4 (try destruct p as [p|p|]); try done.
      * replace (match c with 13%N => match s with 10%N :: s'' => splitlines_from [] false s'' | _ => splitlines_from [] false s end | _ => splitlines_from [] false s end)
          with (splitlines_from [] false s); [done|].
        destruct c as [|p]; [done|].
        do 4 (try destruct p as [p|p|]); try done.
    + apply IH; [lia|]. apply Forall_app. split; [done|]. by repeat constructor.
Qed.

Lemma splitlines_break_free s :
  Forall (Forall (λ c, is_linebreak c = false)) (splitlines s).
Proof. by apply (splitlines_from_break_free (length s)). Qed.

Lemma pretty_N_char_no_break x :
  is_linebreak (N_of_ascii (pretty_N_char x)) = false.
Proof.
  destruct x as [|p]; [done|].
  do 4 (try destruct p as [p|p|]); done.
Qed.

Lemma pretty_N_go_no_break x :
  ∀ s, Forall (λ a, is_linebreak (N_of_ascii a) = false) (list_ascii_of_string s) →
  Forall (λ a, is_linebreak (N_of_ascii a) = false)
    (list_ascii_of_string (pretty_N_go x s)).
Proof.
  induction (N.lt_wf_0 x) as [x _ IH]; intros s Hs.
  destruct (decide (x = 0%N)) as [->|Hne]; [by rewrite pretty_N_go_0|].
  rewrite pretty_N_go_step by lia.
  apply IH; [apply N.div_lt; lia|].
  cbn [list_ascii_of_string]. constructor; [apply pretty_N_char_no_break|done].
Qed.

Lemma str_of_int_no_break z : Forall (λ c, is_linebreak c = false) (str_of_int z).
Proof.
  unfold str_of_int, py. apply Forall_fmap. unfold compose.
  destruct z as [|p|p]; [by repeat constructor| |].
  - change (pretty (Z.pos p)) with (pretty (N.pos p)).
    unfold pretty, pretty_N. case_decide; [done|].
    apply pretty_N_go_no_break. constructor.
  - change (pretty (Z.neg p)) with (String "-"%char (pretty (N.pos p))).
    cbn [list_ascii_of_string]. constructor; [done|].
    unfold pretty, pretty_N. case_decide; [done|].
    apply pretty_N_go_no_break. constructor.
Qed.

(** The text of a frame, read line by line: the [id] line when an id is
    given, the [event] line, one [data] line for each line of the JSON
    text, and one empty line, the last. Each of the other lines begins
    with its field name, so the frame is closed by its empty line and by
    no line before. *)
Theorem sse_text_lines event json_data_str id_ :
  Forall (λ c, is_linebreak c = false) event →
  let lines := splitlines (sse_text event json_data_str id_) in
  lines =
    match id_ with
    | Some i => [py "id: " ++ str_of_int i]
    | None => []
    end ++
    [py "event: " ++ event] ++
    map (λ line, py "data: " ++ line) (splitlines json_data_str) ++ [[]] ∧
  (∀ i, lines !! i = Some [] ↔ S i = length lines).
Proof.
  intros Hevent lines.
  set (fields :=
    match id_ with
    | Some i => [py "id: " ++ str_of_int i]
    | None => []
    end ++
    [py "event: " ++ event] ++
    map (λ line, py "data: " ++ line) (splitlines json_data_str)).
  assert (Hlines : lines = fields ++ [[]]).
  { subst lines. unfold sse_text. fold fields.
    apply splitlines_join_lines.
    - subst fields. by destruct id_.
    - subst fields. apply Forall_app. split.
      + destruct id_ as [i|]; [|done]. apply Forall_singleton.
        apply Forall_app. split; [by repeat constructor|apply str_of_int_no_break].
      + apply Forall_app. split.
        * apply Forall_singleton.
          apply Forall_app. split; [by repeat constructor|done].
        * apply Forall_fmap. eapply Forall_impl; [apply splitlines_break_free|].
          intros line Hline.
          change (Forall (λ c, is_linebreak c = false) (py "data: " ++ line)).
          apply Forall_app. split; [by repeat constructor|done]. }
  assert (Hfields : Forall (λ line, line ≠ []) fields).
  { subst fields. apply Forall_app. split; [by destruct id_; repeat constructor|].
    apply Forall_app. split; [by repeat constructor|].
    apply Forall_fmap, Forall_forall. by intros line _. }
  split.
  { rewrite Hlines. subst fields. by rewrite <- !app_assoc. }
  intros i. rewrite Hlines, length_app. cbn [length]. split.
  - intros Hi. destruct (decide (i < length fields)) as [Hlt|Hge].
    + rewrite lookup_app_l in Hi by done.
      by pose proof (Forall_lookup_1 _ _ _ _ Hfields Hi).
    + apply lookup_lt_Some in Hi. rewrite length_app in Hi. simpl in Hi. lia.
  - intros Hi. assert (i = length fields) as -> by lia. apply lookup_snoc.
Qed.

Lemma sse_text_lines_witness :
  splitlines (sse_text (py "data") [123; 10; 32; 32; 49; 10; 125]%N (Some 3%Z)) =
  [py "id: 3"; py "event: data"; py "data: {"; py "data:   1"; py "data: }"; []].
Proof.
  destruct (sse_text_lines (py "data") [123; 10; 32; 32; 49; 10; 125]%N (Some 3%Z))
    as [Hlines _]; [by repeat constructor|].
  etrans; [exact Hlines|]. vm_compute. reflexivity.
Defined.

(** ** One run after another *)

Section Two_runs.

Context `{Env}.
Variables (w : World) (thread_id : str) (l : list loc).
Variables (text1 text2 : str) (metadata1 metadata2 : Json).

Hypothesis Hreach : reachable w.
Hypothesis Hthread : threads_checkpoint_list w !! thread_id = Some l.

(** Two streaming runs on a thread, one after the other, each consumed
    to its end: the second run starts from the messages the first one
    left, so the latest checkpoint holds the messages from before
    followed by the two exchanges in order, and the thread has four more
    checkpoints. *)
Theorem stream_run_twice :
  let w1 := (stream_run thread_id text1 metadata1 patient w).1 in
  let w2 := (stream_run thread_id text2 metadata2 patient w1).1 in
  ∃ ms u1 a1 u2 a2 c4 c3 c2 c1,
    latest_messages w thread_id = Some ms ∧
    latest_messages w1 thread_id = Some (ms ++ [u1; a1]) ∧
    latest_messages w2 thread_id = Some (ms ++ [u1; a1; u2; a2]) ∧
    map msg_role [u1; a1; u2; a2] =
      [py "user"; py "assistant"; py "user"; py "assistant"] ∧
    map msg_content [u1; a1; u2; a2] =
      [strip text1; join_empty (chunks_of (words_of (strip text1)));
       strip text2; join_empty (chunks_of (words_of (strip text2)))] ∧
    threads_checkpoint_list w2 !! thread_id = Some (c4 :: c3 :: c2 :: c1 :: l) ∧
    (get_history_count thread_id w2).2 = Ok (Z.of_nat (length l) + 4)%Z.
Proof.
  intros w1 w2.
  destruct (stream_run_patient_eq w thread_id text1 metadata1 l Hreach Hthread)
    as (latest & rest & c & ms & Hl & Hc & Hms & Heq1).
  cbn zeta in Heq1.
  assert (Hreach1 : reachable w1)
    by (subst w1; by apply reach_stream_run).
  set (self1 := streamer_of thread_id text1 w latest) in *.
  set (wr := world_run thread_id metadata1 w) in *.
  set (r1 := running_run thread_id metadata1 w) in *.
  assert (Hw1 : w1 = world_final self1 wr c ms l r1) by (subst w1; by rewrite Heq1).
  assert (Hthread1 : threads_checkpoint_list w1 !! thread_id =
                     Some (S (length (ckpts wr)) :: length (ckpts wr) :: l)).
  { rewrite Hw1. unfold world_final. cbn [threads_checkpoint_list].
    apply lookup_insert_eq. }
  destruct (stream_run_patient_eq w1 thread_id text2 metadata2 _ Hreach1 Hthread1)
    as (latest' & rest' & c' & ms' & Hl' & Hc' & Hms' & Heq2).
  cbn zeta in Heq2. injection Hl' as <- <-.
  assert (Hlatest1 : latest_messages w1 thread_id =
            Some (ms ++ [user_msg self1 wr;
                         assistant_msg wr (final_content self1)
                           (Some (final_usage self1))])).
  { rewrite Hw1. unfold latest_messages, world_final. simpl.
    rewrite lookup_insert_eq. simpl. rewrite lookup_snoc2_1. simpl.
    rewrite lookup_snoc2_1. by rewrite <- app_assoc. }
  assert (Hms1 : ms' = ms ++ [user_msg self1 wr;
                              assistant_msg wr (final_content self1)
                                (Some (final_usage self1))]).
  { unfold latest_messages in Hlatest1. rewrite Hthread1 in Hlatest1.
    simpl in Hlatest1. rewrite Hc' in Hlatest1. simpl in Hlatest1.
    rewrite Hms' in Hlatest1. by injection Hlatest1. }
  set (self2 := streamer_of thread_id text2 w1 (S (length (ckpts wr)))) in *.
  set (wr2 := world_run thread_id metadata2 w1) in *.
  exists ms, (user_msg self1 wr),
    (assistant_msg wr (final_content self1) (Some (final_usage self1))),
    (user_msg self2 wr2),
    (assistant_msg wr2 (final_content self2) (Some (final_usage self2))),
    (S (length (ckpts wr2))), (length (ckpts wr2)),
    (S (length (ckpts wr))), (length (ckpts wr)).
  split.
  { unfold latest_messages. rewrite Hthread, Hl. simpl. rewrite Hc. simpl.
    exact Hms. }
  split; [exact Hlatest1|].
  assert (Hlist2 : threads_checkpoint_list w2 !! thread_id =
            Some (S (length (ckpts wr2)) :: length (ckpts wr2) ::
                  S (length (ckpts wr)) :: length (ckpts wr) :: l)).
  { subst w2. rewrite Heq2. unfold world_final. cbn [fst threads_checkpoint_list].
    apply lookup_insert_eq. }
  split.
  { subst w2. rewrite Heq2. unfold latest_messages, world_final. simpl.
    rewrite lookup_insert_eq. simpl. rewrite lookup_snoc2_1. simpl.
    rewrite lookup_snoc2_1. rewrite Hms1. by rewrite <- !app_assoc. }
  split; [reflexivity|]. split; [reflexivity|]. split; [exact Hlist2|].
  unfold get_history_count. unfold_ops. rewrite Hlist2. cbn [snd length].
  f_equal. lia.
Qed.

End Two_runs.

Lemma stream_run_twice_witness :
  let w1 :=
    (stream_run (H:=example_env) example_thread (py "hello") (JObj []) patient
       example_world).1 in
  let w2 :=
    (stream_run (H:=example_env) example_thread (py "again") (JObj []) patient
       w1).1 in
  (map msg_content <$> latest_messages w2 example_thread) =
    Some [py "hello"; py "hello"; py "again"; py "again"] ∧
  (get_history_count example_thread w2).2 = Ok 5%Z.
Proof.
  intros w1 w2.
  destruct (stream_run_twice (H:=example_env) example_world example_thread [0]
              (py "hello") (py "again") (JObj []) (JObj [])
              example_reachable example_thread_list)
    as (ms & u1 & a1 & u2 & a2 & c4 & c3 & c2 & c1 &
        Hms & _ & Hlatest & _ & Hcontent & _ & Hcount).
  split; [|exact Hcount].
  assert (Hnil : Some ms = Some []).
  { etrans; [symmetry; exact Hms|]. vm_compute. reflexivity. }
  injection Hnil as ->.
  etrans; [exact (f_equal (fmap (map msg_content)) Hlatest)|].
  cbn [fmap option_fmap option_map app].
  etrans; [exact (f_equal Some Hcontent)|]. vm_compute. reflexivity.
Defined.

(** ** The history after a run *)

Section History_after_run.

Context `{Env}.
Variables (w : World) (thread_id user_text : str) (metadata : Json).
Variable l : list loc.

Hypothesis Hreach : reachable w.
Hypothesis Hthread : threads_checkpoint_list w !! thread_id = Some l.

(** After a streaming run consumed to its end, the history of the thread
    begins with the two checkpoints of the run, the newer first: the
    checkpoint the [stream_end] frame carried, of step 1, and its parent,
    of step 0, which holds the messages up to the user message. *)
Theorem history_shows_run :
  let result := stream_run thread_id user_text metadata patient w in
  ∃ final step_0 older next frames,
    result.2 = Ok (Streaming frames (Ok tt)) ∧
    (∃ run_id i,
       last frames =
         Some (sse (py "stream_end") (PStreamEnd run_id (Some final)) (Some i))) ∧
    thread_history thread_id None None result.1 =
      (result.1, Ok (HistoryPage (final :: step_0 :: older) 0 next)) ∧
    length older = Nat.min 48 (length l) ∧
    meta_step (cj_checkpoint final) = 1%Z ∧
    meta_step (cj_checkpoint step_0) = 0%Z ∧
    parent_checkpoint (cj_checkpoint final) =
      Some (thread_id, checkpoint_id (cj_checkpoint step_0)) ∧
    ∃ assistant, cj_messages final = cj_messages step_0 ++ [assistant] ∧
      msg_role assistant = py "assistant" ∧
      msg_content assistant = join_empty (chunks_of (words_of (strip user_text))).
Proof.
  intros result.
  destruct (stream_run_patient_eq w thread_id user_text metadata l Hreach Hthread)
    as (latest & rest & c & ms & Hl & Hc & Hms & Heq).
  cbn zeta in Heq.
  assert (Hreach1 : reachable result.1) by (subst result; by apply reach_stream_run).
  set (self := streamer_of thread_id user_text w latest) in *.
  set (wr := world_run thread_id metadata w) in *.
  set (r := running_run thread_id metadata w) in *.
  assert (Hw1 : result.1 = world_final self wr c ms l r)
    by (subst result; by rewrite Heq).
  assert (Hthread1 : threads_checkpoint_list result.1 !! thread_id =
                     Some (S (length (ckpts wr)) :: length (ckpts wr) :: l)).
  { rewrite Hw1. unfold world_final. cbn [threads_checkpoint_list].
    apply lookup_insert_eq. }
  destruct (thread_history_eq result.1 thread_id _ Hreach1 Hthread1 None None)
    as (page & Hpage & Hall); [simpl; lia..|].
  cbn [int_or] in Hpage, Hall.
  change (Z.to_nat 0) with 0 in Hall. change (Z.to_nat 50) with 50 in Hall.
  cbn [drop take] in Hall.
  apply Forall2_cons_inv_l in Hall as (final & page' & Hfinal & Hall & ->).
  apply Forall2_cons_inv_l in Hall as (step_0' & older & Hstep_0 & Hall & ->).
  assert (Hfinal' : final = final_checkpoint_json self wr ms).
  { rewrite Hw1 in Hfinal. unfold world_final in Hfinal. revert Hfinal.
    unfold_ops. rewrite lookup_snoc2_1. unfold_ops. rewrite lookup_snoc2_1.
    by intros [= <-]. }
  assert (Hstep_0' : step_0' = mkCheckpointJson (step_0 self wr c)
                                 (ms ++ [user_msg self wr])).
  { rewrite Hw1 in Hstep_0. unfold world_final in Hstep_0. revert Hstep_0.
    unfold_ops. rewrite lookup_snoc2_0. unfold_ops. rewrite lookup_snoc2_0.
    by intros [= <-]. }
  exists final, step_0', older. eexists. exists (frames_of_run self wr c ms r).
  split; [subst result; by rewrite Heq|]. split.
  { eexists _, _. rewrite last_frames_of_run, Hfinal'. reflexivity. }
  split; [exact Hpage|]. split.
  { rewrite <- (Forall2_length _ _ _ Hall). rewrite length_take. lia. }
  rewrite Hfinal', Hstep_0'. unfold final_checkpoint_json.
  cbn [cj_checkpoint cj_messages].
  split; [done|]. split; [done|]. split; [done|].
  eexists. split; [reflexivity|]. done.
Qed.

End History_after_run.

Lemma history_shows_run_witness :
  let result :=
    stream_run (H:=example_env) example_thread (py "hello world") (JObj [])
      patient example_world in
  ∃ final step_0 genesis,
    thread_history example_thread None None result.1 =
      (result.1, Ok (HistoryPage [final; step_0; genesis] 0 None)) ∧
    map msg_content (cj_messages final) = [py "hello world"; py "hello world"].
Proof.
  intros result.
  destruct (history_shows_run (H:=example_env) example_world example_thread
              (py "hello world") (JObj []) [0] example_reachable
              example_thread_list)
    as (final & step_0 & older & next & frames & _ & _ & Hpage & Hlen & _ & _ & _ &
        assistant & Hmsgs & _ & Hcontent).
  destruct older as [|genesis [|? older]]; try (simpl in Hlen; lia).
  exists final, step_0, genesis.
  assert (Hres : ∃ page, (thread_history example_thread None None result.1).2 =
                   Ok (HistoryPage page 0 None)).
  { vm_compute. eexists. reflexivity. }
  destruct Hres as [page Hres]. fold result in Hpage.
  rewrite Hpage in Hres. cbn [snd] in Hres. injection Hres as _ ->.
  split; [exact Hpage|].
  assert (Hfirst : ∃ j js, (thread_history example_thread None None result.1).2 =
                     Ok (HistoryPage (j :: js) 0 None) ∧
                     map msg_content (cj_messages j) =
                       [py "hello world"; py "hello world"]).
  { vm_compute. eexists _, _. split; reflexivity. }
  destruct Hfirst as (j & js & Hj & Hjm).
  rewrite Hpage in Hj. cbn [snd] in Hj. injection Hj as -> _. exact Hjm.
Defined.

(** ** What a streaming run leaves alone *)

Section Apart.

Context `{Env}.
Variable self : EchoStreamer.

(** From [w] to [w']: the thread dicts and the index of runs are the
    same, and so are the checkpoint lists of the other threads and the
    other run dicts. *)
Let apart : World → World → Prop := λ w w',
  threads w' = threads w ∧ db_runs w' = db_runs w ∧
  (∀ t, t ≠ thread_id self →
     threads_checkpoint_list w' !! t = threads_checkpoint_list w !! t) ∧
  (∀ l, l ≠ run_data self → runs w' !! l = runs w !! l) ∧
  length (runs w') = length (runs w).

Lemma apart_refl w : apart w w.
Proof. by repeat split. Qed.

Lemma apart_trans w1 w2 w3 : apart w1 w2 → apart w2 w3 → apart w1 w3.
Proof.
  intros (Ht & Hd & Hl & Hr & Hn) (Ht' & Hd' & Hl' & Hr' & Hn').
  split; [congruence|]. split; [congruence|]. split; [|split; [|congruence]].
  - intros t Hne. by rewrite Hl', Hl.
  - intros l Hne. by rewrite Hr', Hr.
Qed.

Ltac apart_world :=
  intros w; unfold_ops; repeat case_match; simplify_eq/=;
  repeat split; try done;
  try (intros t Hne; cbn [threads_checkpoint_list];
       by rewrite lookup_insert_ne by (intros Heq; by apply Hne));
  try (intros l Hne; cbn [runs];
       by rewrite list_lookup_insert_ne by (intros Heq; by apply Hne));
  cbn [runs];
  try (by rewrite length_insert).

Lemma create_step_0_apart : within apart (_create_step_0_checkpoint self).
Proof. unfold _create_step_0_checkpoint, make_msg. apart_world. Qed.

Lemma create_step_1_apart l : within apart (_create_step_1_checkpoint self l).
Proof. unfold _create_step_1_checkpoint, make_msg. apart_world. Qed.

Lemma add_checkpoint_apart l : within apart (add_checkpoint (thread_id self) l).
Proof. apart_world. Qed.

Lemma set_latest_content_apart final_text :
  within apart (set_latest_content self final_text).
Proof. unfold set_latest_content. apart_world. Qed.

Lemma finalize_data_apart final_checkpoint n :
  within apart (_finalize_data self final_checkpoint n).
Proof. unfold _finalize_data. apart_world. Qed.

Lemma run_stream_apart consumer w :
  apart w (world (run_stream self consumer w).1).
Proof.
  apply (run_stream_respects self consumer apart).
  - apply apart_refl.
  - apply apart_trans.
  - apply create_step_0_apart.
  - apply create_step_1_apart.
  - apply add_checkpoint_apart.
  - apply set_latest_content_apart.
  - apply finalize_data_apart.
Qed.

End Apart.

(** A streaming run, whatever the consumer does and whether it ends well
    or not, writes to its own thread's checkpoint list and its own run
    only: every thread dict (so the [values.messages] and [updated_at]
    that [get_thread] shows), the checkpoint list of every other thread,
    every run dict there was, and every other entry of the index of runs
    are as before. *)
Theorem stream_run_writes_its_own `{Env} thread_id user_text metadata consumer w :
  let w' := (stream_run thread_id user_text metadata consumer w).1 in
  threads w' = threads w ∧
  (∀ t, t ≠ thread_id →
     threads_checkpoint_list w' !! t = threads_checkpoint_list w !! t) ∧
  (∀ l, l < length (runs w) → runs w' !! l = runs w !! l) ∧
  (∀ run_id, run_id ≠ str_of_uuid (uuid4_at (uuid_draws w)) →
     db_runs w' !! run_id = db_runs w !! run_id).
Proof.
  intros w'. subst w'.
  destruct (threads_checkpoint_list w !! thread_id) as [[|latest rest]|] eqn:Hl.
  - unfold stream_run, add_run. unfold_ops. rewrite Hl. unfold_ops.
    rewrite lookup_snoc. simpl. repeat split; try done.
    + intros l Hlt. by rewrite lookup_app_l.
    + intros run_id Hne. by rewrite lookup_insert_ne by (intros Heq; by apply Hne).
  - rewrite (stream_run_eq _ _ _ _ _ latest rest) by done. unfold consume.
    pose proof (run_stream_apart (streamer_of thread_id user_text w latest)
                  consumer (world_run thread_id metadata w))
      as (Ht & Hd & Hlists & Hruns & _).
    destruct (run_stream _ _ _) as [s r]. cbn [fst snd] in *.
    split; [exact Ht|]. split; [exact Hlists|]. split.
    + intros l Hlt. rewrite Hruns by (simpl; lia). simpl. by rewrite lookup_app_l.
    + intros run_id Hne. rewrite Hd. simpl.
      by rewrite lookup_insert_ne by (intros Heq; by apply Hne).
  - by rewrite stream_run_unknown_thread.
Qed.

(** ** A client that leaves before the answer *)

Section Before_answer.

Context `{Env}.
Variable self : EchoStreamer.
Variable consumer : nat → signal.
Variables (w : World) (c : Checkpoint) (ms : list Msg) (l : list loc) (r : Run).

Hypothesis Hthread : threads_checkpoint_list w !! thread_id self = Some l.
Hypothesis Hlatest : ckpts w !! latest_checkpoint self = Some c.
Hypothesis Hmessages : mlists w !! values_messages c = Some ms.
Hypothesis Hrun : runs w !! run_data self = Some r.
Hypothesis Htaken : ∀ j, j < 3 → consumer j = Next.
Hypothesis Hleaves : consumer 3 = Throw BrokenPipeError.

(** The run whose consumer leaves at the frame of the first
    checkpoint. *)
Lemma run_stream_before_answer :
  run_stream self consumer w =
  (mkSt (world_step_0 self w c ms l) 4
     [ Keepalive;
       sse (py "metadata") (PMetadata (run_id self) (thread_id self)) (Some 1);
       sse (py "data") (PPatch [mkPatchOp (py "add") (py "/runs/-") (VRun r)])
           (Some 2);
       sse (py "data")
         (PPatch [mkPatchOp (py "add") (py "/checkpoints/-")
            (VCheckpoint (mkCheckpointJson (step_0 self w c) (ms ++ [user_msg self w])))])
         (Some 3) ],
   Ok tt).
Proof.
  unfold run_stream, stream_response, try_except.
  assert (Hbody :
    stream_body self consumer (mkSt w 1 []) =
    (mkSt (world_step_0 self w c ms l) 4
       [ Keepalive;
         sse (py "metadata") (PMetadata (run_id self) (thread_id self)) (Some 1);
         sse (py "data") (PPatch [mkPatchOp (py "add") (py "/runs/-") (VRun r)])
             (Some 2);
         sse (py "data")
           (PPatch [mkPatchOp (py "add") (py "/checkpoints/-")
              (VCheckpoint (mkCheckpointJson (step_0 self w c)
                              (ms ++ [user_msg self w])))])
           (Some 3) ],
     Raise BrokenPipeError)).
  { unfold stream_body, stream_until_finalization.
    erewrite bind_Raise; [reflexivity|].
    erewrite bind_Ok
      by (eapply initial_setup_events_taken; [done|apply Htaken; lia..]).
    erewrite bind_Raise; [reflexivity|].
    unfold create_and_send_checkpoints.
    erewrite bind_Ok by (apply lift_eq; simpl; by apply create_step_0_eq).
    erewrite bind_Ok by (apply lift_eq; unfold_ops; by rewrite Hthread).
    erewrite bind_Ok; cycle 1.
    { unfold_gen. rewrite lookup_snoc. unfold_gen. rewrite lookup_snoc.
      reflexivity. }
    rewrite bind_yield. cbn [emitted world event_id length]. rewrite Hleaves.
    reflexivity. }
  by rewrite Hbody.
Qed.

End Before_answer.

Section Unanswered.

Context `{Env}.
Variables (w : World) (thread_id : str) (l : list loc).
Variables (text1 text2 : str) (metadata1 metadata2 : Json).
Variable consumer : nat → signal.

Hypothesis Hreach : reachable w.
Hypothesis Hthread : threads_checkpoint_list w !! thread_id = Some l.
Hypothesis Htaken : ∀ j, j < 3 → consumer j = Next.
Hypothesis Hleaves : consumer 3 = Throw BrokenPipeError.

(** A client that closes the stream at the frame of the first
    checkpoint leaves the thread with that checkpoint as its latest: the
    user message is recorded without an answer and the run stays
    "running". The next run starts from there, so the thread then holds
    two user messages in a row. *)
Theorem unanswered_message_stays :
  let first := stream_run thread_id text1 metadata1 consumer w in
  let second := stream_run thread_id text2 metadata2 patient first.1 in
  ∃ ms u1 u2 a2,
    latest_messages w thread_id = Some ms ∧
    token_chunks (response_frames first.2) = [] ∧
    latest_messages first.1 thread_id = Some (ms ++ [u1]) ∧
    status_of first.1 (length (runs w)) = Some (py "running") ∧
    (get_history_count thread_id first.1).2 = Ok (Z.of_nat (length l) + 1)%Z ∧
    latest_messages second.1 thread_id = Some (ms ++ [u1; u2; a2]) ∧
    map msg_role [u1; u2; a2] = [py "user"; py "user"; py "assistant"] ∧
    map msg_content [u1; u2; a2] =
      [strip text1; strip text2; join_empty (chunks_of (words_of (strip text2)))].
Proof.
  intros first second.
  destruct (latest_there w thread_id l Hreach Hthread)
    as (latest & rest & c & ms & Hl & Hc & Hms).
  assert (Hreach1 : reachable first.1) by (subst first; by apply reach_stream_run).
  set (self1 := streamer_of thread_id text1 w latest).
  set (wr := world_run thread_id metadata1 w).
  assert (Hfirst : first =
    (world_step_0 self1 wr c ms l,
     Ok (Streaming
           [ Keepalive;
             sse (py "metadata") (PMetadata (run_id self1) thread_id) (Some 1);
             sse (py "data")
                 (PPatch [mkPatchOp (py "add") (py "/runs/-")
                            (VRun (running_run thread_id metadata1 w))]) (Some 2);
             sse (py "data")
               (PPatch [mkPatchOp (py "add") (py "/checkpoints/-")
                  (VCheckpoint (mkCheckpointJson (step_0 self1 wr c)
                                  (ms ++ [user_msg self1 wr])))])
               (Some 3) ]
           (Ok tt)))).
  { subst first. rewrite Hl in Hthread.
    rewrite (stream_run_eq _ _ _ _ _ latest rest) by done. unfold consume.
    rewrite (run_stream_before_answer self1 consumer wr c ms l
               (running_run thread_id metadata1 w));
      [by rewrite Hl|by rewrite Hl|done|done|apply lookup_snoc|done|done]. }
  assert (Hthread1 : threads_checkpoint_list first.1 !! thread_id =
                     Some (length (ckpts wr) :: l)).
  { rewrite Hfirst. unfold world_step_0. cbn [fst threads_checkpoint_list].
    apply lookup_insert_eq. }
  assert (Hlatest1 : latest_messages first.1 thread_id =
                     Some (ms ++ [user_msg self1 wr])).
  { rewrite Hfirst. unfold latest_messages, world_step_0. simpl.
    rewrite lookup_insert_eq. simpl. rewrite lookup_snoc. simpl.
    by rewrite lookup_snoc. }
  destruct (stream_run_patient_eq first.1 thread_id text2 metadata2 _ Hreach1
              Hthread1)
    as (latest' & rest' & c' & ms' & Hl' & Hc' & Hms' & Heq2).
  cbn zeta in Heq2. injection Hl' as <- <-.
  assert (Hms1 : ms' = ms ++ [user_msg self1 wr]).
  { unfold latest_messages in Hlatest1. rewrite Hthread1 in Hlatest1.
    simpl in Hlatest1. rewrite Hc' in Hlatest1. simpl in Hlatest1.
    rewrite Hms' in Hlatest1. by injection Hlatest1. }
  set (self2 := streamer_of thread_id text2 first.1 (length (ckpts wr))) in *.
  set (wr2 := world_run thread_id metadata2 first.1) in *.
  exists ms, (user_msg self1 wr), (user_msg self2 wr2),
    (assistant_msg wr2 (final_content self2) (Some (final_usage self2))).
  split.
  { unfold latest_messages. rewrite Hthread, Hl. simpl. rewrite Hc. simpl.
    exact Hms. }
  split; [by rewrite Hfirst|]. split; [exact Hlatest1|]. split.
  { rewrite Hfirst. unfold status_of, world_step_0. cbn [fst runs].
    unfold wr, world_run. cbn [runs]. by rewrite lookup_snoc. }
  split.
  { unfold get_history_count. unfold_ops. rewrite Hthread1. cbn [snd length].
    f_equal. lia. }
  split; [|by split].
  subst second. rewrite Heq2. unfold latest_messages, world_final. simpl.
  rewrite lookup_insert_eq. simpl. rewrite lookup_snoc2_1. simpl.
  rewrite lookup_snoc2_1. rewrite Hms1. by rewrite <- !app_assoc.
Qed.

End Unanswered.

Lemma unanswered_message_stays_witness :
  let first :=
    stream_run (H:=example_env) example_thread (py "hello") (JObj [])
      (throws_at 3 BrokenPipeError) example_world in
  let second :=
    stream_run (H:=example_env) example_thread (py "anyone") (JObj []) patient
      first.1 in
  (map msg_content <$> latest_messages second.1 example_thread) =
    Some [py "hello"; py "anyone"; py "anyone"] ∧
  status_of first.1 0 = Some (py "running").
Proof.
  intros first second.
  destruct (unanswered_message_stays (H:=example_env) example_world example_thread
              [0] (py "hello") (py "anyone") (JObj []) (JObj [])
              (throws_at 3 BrokenPipeError) example_reachable example_thread_list)
    as (ms & u1 & u2 & a2 & Hms & _ & _ & Hstatus & _ & Hlatest & _ & Hcontent).
  { intros j Hj. unfold throws_at. case_decide; [lia|reflexivity]. }
  { reflexivity. }
  split; [|exact Hstatus].
  assert (Hnil : Some ms = Some []).
  { etrans; [symmetry; exact Hms|]. vm_compute. reflexivity. }
  injection Hnil as ->.
  etrans; [exact (f_equal (fmap (map msg_content)) Hlatest)|].
  cbn [fmap option_fmap option_map app].
  etrans; [exact (f_equal Some Hcontent)|]. vm_compute. reflexivity.
Defined.
